(** * foresight_ai: the projection engine of [python_api/app.py]

    A shallow embedding of [predict_health_increase],
    [predict_future_twin] and the endpoint [handle_prediction], the
    properties the specification states about them, and further properties
    the code shows.

    Python [float]s are IEEE 754 binary64 numbers under round-to-nearest-even;
    they are embedded as Rocq's primitive [float]s, whose operations are
    specified by [SpecFloat]. Properties of the arithmetic are proved from
    that specification, with real numbers for the exact values. Python
    [int]s are [Z]. The request dictionary is a finite map from keys to
    dynamically typed values. The two trained pipelines are opaque: they
    live in a store of loadable artifacts and are functions that return a
    value or raise. The sort behind [np.argsort] is a parameter, since its
    default kind leaves the order of equal values open. What the process
    does besides returning (loading an artifact, calling it, printing a
    line) is recorded in a trace. *)

From Stdlib Require Import ZArith Lia Bool List Ascii String Sorted.
From Stdlib Require Import Floats Reals Lra.
From stdpp Require Import base option list gmap strings pretty.

Local Open Scope string_scope.
Local Open Scope Z_scope.

(** ** Python values and exceptions *)

(** The values a decoded JSON scalar can take. [bool] is a subtype of [int]
    in Python, and [np.float64] is a subtype of [float]. *)
Inductive pyval : Type :=
  | PNone
  | PBool (b : bool)
  | PInt (z : Z)
  | PFloat (f : float)
  | PStr (s : string).

(** Exceptions carry their argument: the key or the message of a
    [KeyError], the path of a [FileNotFoundError], the message of the
    others. [ArtifactError] stands for whatever a fitted pipeline raises. *)
Inductive exn : Type :=
  | KeyError (msg : string)
  | TypeError (msg : string)
  | ValueError (msg : string)
  | OverflowError (msg : string)
  | IndexError (msg : string)
  | FileNotFoundError (msg : string)
  | ArtifactError (msg : string).

Definition double_quote : string := String (Ascii.ascii_of_nat 34) EmptyString.

Fixpoint has_char (c : Ascii.ascii) (s : string) : bool :=
  match s with
  | EmptyString => false
  | String a rest => Ascii.eqb a c || has_char c rest
  end.

(** A backslash before every backslash, and before every single quote when
    [quotes] is set. *)
Fixpoint escaped (quotes : bool) (s : string) : string :=
  match s with
  | EmptyString => EmptyString
  | String a rest =>
      if Ascii.eqb a "\"%char || (quotes && Ascii.eqb a "'"%char)
      then String "\"%char (String a (escaped quotes rest))
      else String a (escaped quotes rest)
  end.

(** [repr(s)] of a string of printable ASCII characters: single quotes
    around it, unless it holds a single quote and no double quote. *)
Definition py_repr (s : string) : string :=
  if has_char "'"%char s && negb (has_char (Ascii.ascii_of_nat 34) s)
  then double_quote ++ escaped false s ++ double_quote
  else "'" ++ escaped true s ++ "'".

(** [str(e)]: a [KeyError] prints the [repr] of its argument. *)
Definition exn_str (e : exn) : string :=
  match e with
  | KeyError m => py_repr m
  | FileNotFoundError path => "[Errno 2] No such file or directory: " ++ py_repr path
  | TypeError m | ValueError m | OverflowError m | IndexError m | ArtifactError m => m
  end.

(** [type(v).__name__]. *)
Definition type_name (v : pyval) : string :=
  match v with
  | PNone => "NoneType"
  | PBool _ => "bool"
  | PInt _ => "int"
  | PFloat _ => "float"
  | PStr _ => "str"
  end.

(** A computation that returns or raises. *)
Definition result (A : Type) : Type := exn + A.

Definition Ok {A} (a : A) : result A := inr a.
Definition Raise {A} (e : exn) : result A := inl e.

(** ** Floating-point helpers *)

(** [float(n)] for a Python int: the correctly rounded binary64 number, or
    [OverflowError] when [n] is out of range. *)
Definition Z2SF (n : Z) : spec_float := binary_normalize prec emax n 0 false.

Definition float_of_int (n : Z) : result float :=
  match Z2SF n with
  | S754_infinity _ | S754_nan => Raise (OverflowError "int too large to convert to float")
  | sf => Ok (SF2Prim sf)
  end.

(** [int(x)] for a float: truncation toward zero. *)
Definition int_of_float (x : float) : result Z :=
  match Prim2SF x with
  | S754_zero _ => Ok 0
  | S754_finite s m e =>
      let a := if 0 <=? e then Z.pos m * 2 ^ e else Z.pos m / 2 ^ (- e) in
      Ok (if s then - a else a)
  | S754_infinity _ => Raise (OverflowError "cannot convert float infinity to integer")
  | S754_nan => Raise (ValueError "cannot convert float NaN to integer")
  end.

(** Nearest integer to [n / d] ([0 < d]), ties to the even one. *)
Definition div_half_even (n d : Z) : Z :=
  let q := n / d in
  let r := n mod d in
  match 2 * r ?= d with
  | Lt => q
  | Gt => q + 1
  | Eq => if Z.even q then q else q + 1
  end.

(** The binary64 number nearest to [n / d] for [0 < n] and [0 < d], with
    sign [s]: a correctly rounded division of integers. *)
Definition SF_of_ratio (s : bool) (n d : positive) : spec_float :=
  let '(q, e, l) := SFdiv_core_binary prec emax (Z.pos n) 0 (Z.pos d) 0 in
  binary_round_aux prec emax s q e l.

(** The built-in [round(x, ndigits)] on a float, for [0 <= ndigits]: the
    exact value of [x] is rounded half-even to [ndigits] decimals and the
    decimal is converted back to the nearest float. Zeros, infinities and
    NaN round to themselves, and the sign is kept. *)
Definition py_round (x : float) (ndigits : Z) : float :=
  match Prim2SF x with
  | S754_finite s m e =>
      let p := 10 ^ ndigits in
      let scaled :=
        if 0 <=? e then Z.pos m * 2 ^ e * p
        else div_half_even (Z.pos m * p) (2 ^ (- e)) in
      match scaled, p with
      | Z.pos n, Z.pos d => SF2Prim (SF_of_ratio s n d)
      | _, _ => SF2Prim (S754_zero s)
      end
  | _ => x
  end.

(** ** Dynamically typed operations *)

(** [d[key]] on a dict. *)
Definition dict_getitem (d : gmap string pyval) (key : string) : result pyval :=
  match d !! key with
  | Some v => Ok v
  | None => Raise (KeyError key)
  end.

(** [d.get(key, default)]. *)
Definition dict_get (d : gmap string pyval) (key : string) (default : pyval) : pyval :=
  match d !! key with
  | Some v => v
  | None => default
  end.

(** [v + n] where [n] is an int. *)
Definition py_add_int (v : pyval) (n : Z) : result pyval :=
  match v with
  | PInt a => Ok (PInt (a + n))
  | PBool b => Ok (PInt (Z.b2z b + n))
  | PFloat x =>
      match float_of_int n with
      | inr y => Ok (PFloat (x + y)%float)
      | inl e => Raise e
      end
  | PStr _ =>
      Raise (TypeError ("can only concatenate str (not " ++ double_quote ++ "int"
                        ++ double_quote ++ ") to str"))
  | PNone => Raise (TypeError "unsupported operand type(s) for +: 'NoneType' and 'int'")
  end.

(** The argument of [predict_health_increase] as a float. An int or bool
    argument is compared with the float bounds exactly and converted to
    float by the first subtraction; the bounds are integers or halves, so
    converting it first selects the same branch and raises the same
    [OverflowError]. Any other value fails in the first comparison. *)
Definition py_as_float (v : pyval) : result float :=
  match v with
  | PFloat x => Ok x
  | PInt n => float_of_int n
  | PBool b => float_of_int (Z.b2z b)
  | PStr _ | PNone =>
      Raise (TypeError ("'<=' not supported between instances of 'float' and '"
                        ++ type_name v ++ "'"))
  end.

(** The built-in [int(v)]. It is applied to the result of an addition only,
    which is never a string or [None]. *)
Definition py_int (v : pyval) : result Z :=
  match v with
  | PInt n => Ok n
  | PBool b => Ok (Z.b2z b)
  | PFloat x => int_of_float x
  | PStr s => Raise (ValueError ("invalid literal for int() with base 10: " ++ py_repr s))
  | PNone =>
      Raise (TypeError ("int() argument must be a string, a bytes-like object or a real "
                        ++ "number, not 'NoneType'"))
  end.

(** [max(0, v)] for a float [v]: the second argument wins only when it is
    strictly greater. The int [0] becomes [0.0] in the division that
    follows. *)
Definition py_max0 (v : float) : float :=
  if (0 <? v)%float then v else 0%float.

(** ** 1. The health heuristic *)

Definition predict_health_increase (avg_sleep_hours : float) : float :=
  let base_factor := 1.0%float in
  let optimal_sleep_min := 7.0%float in
  let optimal_sleep_max := 8.5%float in
  let max_increase_percent := 10.0%float in
  let increase :=
    if (optimal_sleep_min <=? avg_sleep_hours)%float
       && (avg_sleep_hours <=? optimal_sleep_max)%float
    then max_increase_percent
    else if (avg_sleep_hours <? optimal_sleep_min)%float then
      let deviation := (optimal_sleep_min - avg_sleep_hours)%float in
      py_max0 (max_increase_percent - deviation * 5)%float
    else
      let deviation := (avg_sleep_hours - optimal_sleep_max)%float in
      py_max0 (max_increase_percent - deviation * 2)%float
  in
  (base_factor + increase / 100.0)%float.

(** ** The world: artifacts on disk and what the process emits *)

(** A one-row data frame restricted to a list of columns. *)
Definition frame : Type := list (string * pyval).

(** A fitted scikit-learn pipeline, as far as the engine uses it. *)
Record pipeline : Type := {
  predict : frame -> result (list pyval);
  predict_proba : frame -> result (list (list float));
  classifier_classes : result (list string)
}.

Inductive event : Type :=
  | EvLoad (path : string)
  | EvPredict (X : frame)
  | EvPredictProba (X : frame)
  | EvPrint (line : string).

Record world : Type := {
  files : gmap string pipeline;
  trace : list event
}.

(** Stateful computations that may raise. *)
Definition M (A : Type) : Type := world -> result A * world.

Global Instance M_ret : MRet M := fun A a w => (Ok a, w).

Global Instance M_bind : MBind M := fun A B f m w =>
  match m w with
  | (inr a, w') => f a w'
  | (inl e, w') => (Raise e, w')
  end.

Definition lift {A} (r : result A) : M A := fun w => (r, w).

Definition emit (ev : event) : M unit := fun w =>
  (Ok tt, {| files := files w; trace := trace w ++ [ev] |}).

(** [try: body except Exception as e: handler e]. *)
Definition try_except {A} (body : M A) (handler : exn -> M A) : M A := fun w =>
  match body w with
  | (inr a, w') => (Ok a, w')
  | (inl e, w') => handler e w'
  end.

Definition print (line : string) : M unit := emit (EvPrint line).

Definition joblib_load (path : string) : M pipeline := fun w =>
  match emit (EvLoad path) w with
  | (_, w') =>
      match files w !! path with
      | Some p => (Ok p, w')
      | None => (Raise (FileNotFoundError path), w')
      end
  end.

Definition call_predict (p : pipeline) (X : frame) : M (list pyval) :=
  _ ← emit (EvPredict X); lift (predict p X).

Definition call_predict_proba (p : pipeline) (X : frame) : M (list (list float)) :=
  _ ← emit (EvPredictProba X); lift (predict_proba p X).

(** ** Configuration *)

Definition MODEL_DIR : string := "models".
Definition SALARY_MODEL_FILE : string := MODEL_DIR ++ "/" ++ "salary_predictor_model.joblib".
Definition JOB_MODEL_FILE : string := MODEL_DIR ++ "/" ++ "job_classifier_model.joblib".

(** The columns both pipelines were fitted on, in the order the engine
    selects them. *)
Definition feature_columns : list string :=
  ["education"; "location"; "title"; "industry"; "age"; "tenure_months"; "remote_flag"].

(** [df[[c1, ..., cn]]] on a one-row frame: [KeyError] when a column is
    missing. *)
Definition df_select (df : gmap string pyval) (cols : list string) : result frame :=
  match filter (fun c => df !! c = None) cols with
  | [] => Ok (omap (fun c => pair c <$> df !! c) cols)
  | missing =>
      Raise (KeyError ("[" ++ String.concat ", " (py_repr <$> missing) ++ "] not in index"))
  end.

(** [a[0]]. *)
Definition first_item {A} (a : list A) : result A :=
  match a with
  | x :: _ => Ok x
  | [] => Raise (IndexError "index 0 is out of bounds for axis 0 with size 0")
  end.

(** ** Top-k selection

    [np.argsort(a)] returns the indices that sort [a]: a permutation of the
    positions of [a] along which the values ascend, NaN last. The call of
    line 101 asks for no kind, and the default kind is not stable: which
    algorithm runs depends on the numpy build and on the processor, so the
    code does not fix the order of positions that hold equal values. The
    sort in use is therefore a parameter of the model; [argsort_sorts]
    states what every kind guarantees. *)

(** numpy's "less than" on doubles: NaN sorts last. *)
Definition np_lt (a b : float) : bool :=
  (a <? b)%float || (is_nan b && negb (is_nan a)).

(** The numpy in use, as far as the engine calls it. *)
Class NumPy : Type := {
  argsort : list float -> list nat
}.

Section ArgSort.
Variable v : list float.

Definition key_at (i : nat) : float := nth i v nan.

(** In an ascending sort position [i] may come before position [j]. *)
Definition ascending (i j : nat) : Prop := np_lt (key_at j) (key_at i) = false.

(** The sorted prefix is kept with its last position first; the new index
    [vi] skips the indices whose key is greater than its own. *)
Fixpoint insert_back (vi : nat) (sorted_rev : list nat) : list nat :=
  match sorted_rev with
  | [] => [vi]
  | k :: rest =>
      if np_lt (key_at vi) (key_at k) then k :: insert_back vi rest
      else vi :: sorted_rev
  end.

(** Insertion sort of the positions, taken in the order [order]. *)
Definition insertion_argsort (order : list nat) : list nat :=
  rev (fold_left (fun acc vi => insert_back vi acc) order []).
End ArgSort.

(** What [np.argsort] guarantees whatever the kind. *)
Definition argsort_sorts {np : NumPy} : Prop :=
  forall v, argsort v ≡ₚ seq 0 (length v) /\ StronglySorted (ascending v) (argsort v).

(** Two sorts that meet the guarantee. The first is numpy's scalar quicksort
    on a row of at most 16 elements, which sorts such a row by insertion
    from left to right; the closed runs of this file use it. The second
    inserts from right to left, and differs from the first on ties only. *)
#[global] Instance scalar_numpy : NumPy :=
  {| argsort := fun v => insertion_argsort v (seq 0 (length v)) |}.

Definition reversed_numpy : NumPy :=
  {| argsort := fun v => insertion_argsort v (rev (seq 0 (length v))) |}.

(** [np.argsort(probas)[::-1][:3]]. *)
Definition top_indices {np : NumPy} (probas : list float) : list nat :=
  take 3 (rev (argsort probas)).

(** [[classes[i] for i in top_indices]]. *)
Fixpoint take_labels (classes : list string) (idx : list nat) : result (list string) :=
  match idx with
  | [] => Ok []
  | i :: rest =>
      match classes !! i with
      | None =>
          Raise (IndexError ("index " ++ pretty i ++ " is out of bounds for axis 0 with size "
                             ++ pretty (length classes)))
      | Some c =>
          match take_labels classes rest with
          | inr cs => Ok (c :: cs)
          | inl e => Raise e
          end
      end
  end.

(** ** 2. The integrated prediction *)

Record ProjectionResult : Type := {
  projected_age : Z;
  health_increase_percent : float;
  predicted_salary : pyval;
  recommended_jobs : list string;
  time_projection_months : Z
}.

(** Lines 51-53: the time projection. *)
Definition time_projection (user_input_data : gmap string pyval) (projection_months : Z)
  : result (pyval * pyval) :=
  let age_increase_years := projection_months / 12 in
  match dict_getitem user_input_data "age" with
  | inl e => Raise e
  | inr age =>
      match py_add_int age age_increase_years with
      | inl e => Raise e
      | inr projected_age =>
          match dict_getitem user_input_data "tenure_months" with
          | inl e => Raise e
          | inr tenure =>
              match py_add_int tenure projection_months with
              | inl e => Raise e
              | inr projected_tenure => Ok (projected_age, projected_tenure)
              end
          end
      end
  end.

(** Lines 57-58: the health projection, in percent. *)
Definition health_projection (user_input_data : gmap string pyval) : result float :=
  match py_as_float (dict_get user_input_data "avg_sleep_hours" (PFloat 7.5)) with
  | inl e => Raise e
  | inr sleep =>
      let sleep_factor := predict_health_increase sleep in
      Ok ((sleep_factor - 1.0) * 100)%float
  end.

(** Lines 62-66: the row handed to both pipelines. *)
Definition build_twin_df (user_input_data : gmap string pyval)
    (projected_age projected_tenure : pyval) : gmap string pyval :=
  <["tenure_months" := projected_tenure]> (<["age" := projected_age]> user_input_data).

(** Lines 73-87. *)
Definition salary_prediction (twin_df : gmap string pyval) : M pyval :=
  try_except
    (salary_pipeline ← joblib_load SALARY_MODEL_FILE;
     X_salary ← lift (df_select twin_df feature_columns);
     predictions ← call_predict salary_pipeline X_salary;
     lift (first_item predictions))
    (fun e =>
       _ ← print ("Error in Salary Prediction: " ++ exn_str e
                   ++ ". Ensure models are trained and saved correctly.");
       mret (PFloat (-1.0))).

(** Lines 90-106. *)
Definition job_classification {np : NumPy} (twin_df : gmap string pyval) : M (list string) :=
  try_except
    (job_pipeline ← joblib_load JOB_MODEL_FILE;
     X_job ← lift (df_select twin_df feature_columns);
     rows ← call_predict_proba job_pipeline X_job;
     probas ← lift (first_item rows);
     classes ← lift (classifier_classes job_pipeline);
     lift (take_labels classes (top_indices probas)))
    (fun e =>
       _ ← print ("Error in Job Classification: " ++ exn_str e
                   ++ ". Ensure models are trained and saved correctly.");
       mret ["N/A"]).

(** Line 113: the salary as it is reported. *)
Definition salary_field (predicted_salary : pyval) : pyval :=
  match predicted_salary with
  | PFloat x => if negb (x =? -1.0)%float then PFloat (py_round x 2) else PStr "N/A"
  | _ => PStr "N/A"
  end.

Definition predict_future_twin {np : NumPy}
    (user_input_data : gmap string pyval) (projection_months : Z)
  : M ProjectionResult :=
  '(projected_age, projected_tenure) ← lift (time_projection user_input_data projection_months);
  health_percent_increase ← lift (health_projection user_input_data);
  let twin_df := build_twin_df user_input_data projected_age projected_tenure in
  predicted_salary ← salary_prediction twin_df;
  recommended_jobs ← job_classification twin_df;
  age ← lift (py_int projected_age);
  mret {| projected_age := age;
          health_increase_percent := py_round health_percent_increase 1;
          predicted_salary := salary_field predicted_salary;
          recommended_jobs := recommended_jobs;
          time_projection_months := projection_months |}.

(** ** The training columns *)

(** train_models.py, lines 36-38: the columns the pipelines are fitted on. *)
Definition categorical_features : list string := ["education"; "location"; "title"; "industry"].
Definition numerical_features : list string := ["age"; "tenure_months"; "remote_flag"].
Definition all_features : list string := (numerical_features ++ categorical_features)%list.

(** ** 3. The endpoint

    The handler is modelled from the parsed body on: a body that Flask
    cannot parse never reaches the code of the handler. Values nested
    inside the profile are not modelled; a profile maps keys to scalars. *)

(** A value of the request body under a key: a scalar, or an object or an
    array of scalars. *)
Inductive json_field : Type :=
  | FScalar (v : pyval)
  | FObject (o : gmap string pyval)
  | FArray (a : list pyval).

(** The parsed body of a request. *)
Inductive json_body : Type :=
  | BObject (o : gmap string json_field)
  | BArray (a : list json_field)
  | BScalar (v : pyval).

(** What the handler reads of a request: its [is_json] flag and its parsed
    body. *)
Record request : Type := {
  is_json : bool;
  json : json_body
}.

Inductive response_body : Type :=
  | ErrorBody (error : string)
  | ResultBody (result : ProjectionResult).

(** [jsonify(body), status]; the status is 200 when none is given. *)
Record response : Type := {
  body : response_body;
  status : Z
}.

(** [key in data]: a key of an object, an element of an array, a substring
    of a string; any other value is not iterable. *)
Definition py_contains (key : string) (data : json_body) : result bool :=
  match data with
  | BObject o => Ok (bool_decide (is_Some (o !! key)))
  | BArray a =>
      Ok (existsb (fun x => match x with
                            | FScalar (PStr s) => String.eqb s key
                            | _ => false
                            end) a)
  | BScalar (PStr s) =>
      Ok (match String.index 0 key s with Some _ => true | None => false end)
  | BScalar v => Raise (TypeError ("argument of type '" ++ type_name v ++ "' is not iterable"))
  end.

(** Line 139: [all(key in data for key in ['user_data', 'projection_months'])],
    which stops at the first key that is not there. *)
Definition has_required_keys (data : json_body) : result bool :=
  match py_contains "user_data" data with
  | inl e => Raise e
  | inr false => Ok false
  | inr true => py_contains "projection_months" data
  end.

(** [data[key]] for a string key. *)
Definition body_getitem (data : json_body) (key : string) : result json_field :=
  match data with
  | BObject o =>
      match o !! key with
      | Some f => Ok f
      | None => Raise (KeyError key)
      end
  | BArray _ => Raise (TypeError "list indices must be integers or slices, not str")
  | BScalar (PStr _) => Raise (TypeError "string indices must be integers, not 'str'")
  | BScalar v => Raise (TypeError ("'" ++ type_name v ++ "' object is not subscriptable"))
  end.

(** Line 145: the horizon when it is an [int] (a bool is one) found in
    [[6, 24, 60]]. *)
Definition validated_months (projection_months : json_field) : option Z :=
  match projection_months with
  | FScalar (PInt n) => if existsb (Z.eqb n) [6; 24; 60] then Some n else None
  | FScalar (PBool b) => if existsb (Z.eqb (Z.b2z b)) [6; 24; 60] then Some (Z.b2z b) else None
  | _ => None
  end.

(** [predict_future_twin(user_data, projection_months)] on whatever the body
    holds under [user_data]: anything but an object fails at
    [user_input_data['age']]. *)
Definition predict_future_twin_on {np : NumPy} (user_data : json_field) (projection_months : Z)
  : M ProjectionResult :=
  match user_data with
  | FObject o => predict_future_twin o projection_months
  | FArray _ => lift (Raise (TypeError "list indices must be integers or slices, not str"))
  | FScalar (PStr _) => lift (Raise (TypeError "string indices must be integers, not 'str'"))
  | FScalar v => lift (Raise (TypeError ("'" ++ type_name v ++ "' object is not subscriptable")))
  end.

Definition error_response (error : string) (status : Z) : response :=
  {| body := ErrorBody error; status := status |}.

(** Lines 128-154. *)
Definition handle_prediction {np : NumPy} (req : request) : M response :=
  if negb (is_json req) then mret (error_response "Request must be JSON" 400)
  else
    let data := json req in
    present ← lift (has_required_keys data);
    if negb present
    then mret (error_response "Missing 'user_data' or 'projection_months'." 400)
    else
      user_data ← lift (body_getitem data "user_data");
      projection_months ← lift (body_getitem data "projection_months");
      match validated_months projection_months with
      | None =>
          mret (error_response "Invalid 'projection_months'. Must be 6, 24, or 60." 400)
      | Some months =>
          try_except
            (prediction_result ← predict_future_twin_on user_data months;
             mret {| body := ResultBody prediction_result; status := 200 |})
            (fun e =>
               _ ← print ("Unhandled server error: " ++ exn_str e);
               mret (error_response ("Internal server error: " ++ exn_str e) 500))
      end.

(** A request with a JSON object holding a profile and a horizon. *)
Definition twin_request (user_data : json_field) (projection_months : json_field) : request :=
  {| is_json := true;
     json := BObject (<["user_data" := user_data]>
                        (<["projection_months" := projection_months]> ∅)) |}.

(** ** Vocabulary of the properties *)

(** The world after the events [evs] were emitted. *)
Definition emitted (w : world) (evs : list event) : world :=
  {| files := files w; trace := trace w ++ evs |}.

(** The columns a profile must bring besides the two projected ones. *)
Definition profile_columns : list string :=
  ["education"; "location"; "title"; "industry"; "remote_flag"].

(** A well-formed profile: integer [age] and [tenure_months], every
    categorical and boolean column present, and [avg_sleep_hours] a float or
    absent ([sleep] is then the default). *)
Record well_formed (d : gmap string pyval) (age tenure : Z) (sleep : float) : Prop := {
  wf_age : d !! "age" = Some (PInt age);
  wf_tenure : d !! "tenure_months" = Some (PInt tenure);
  wf_sleep : dict_get d "avg_sleep_hours" (PFloat 7.5) = PFloat sleep;
  wf_columns : Forall (fun c => is_Some (d !! c)) profile_columns
}.

(** The frame both pipelines receive for a well-formed profile. *)
Definition feature_frame (d : gmap string pyval) (age tenure months : Z) : frame :=
  omap (fun c => pair c <$> build_twin_df d (PInt (age + months / 12)) (PInt (tenure + months)) !! c)
       feature_columns.

(** The salary artifact fails on [X]: it cannot be loaded, [predict] raises,
    or it returns nothing to index. *)
Definition salary_raises (fs : gmap string pipeline) (X : frame) : Prop :=
  match fs !! SALARY_MODEL_FILE with
  | None => True
  | Some p => match predict p X with inl _ => True | inr a => a = [] end
  end.

(** The salary artifact answers [v] on [X]. *)
Definition salary_returns (fs : gmap string pipeline) (X : frame) (v : pyval) : Prop :=
  exists p rest, fs !! SALARY_MODEL_FILE = Some p /\ predict p X = inr (v :: rest).

(** The job artifact answers on [X] and the labels of its three most
    probable classes are [labels]. *)
Definition jobs_return {np : NumPy} (fs : gmap string pipeline) (X : frame) (labels : list string)
  : Prop :=
  exists p probas rows classes,
    fs !! JOB_MODEL_FILE = Some p /\ predict_proba p X = inr (probas :: rows)
    /\ classifier_classes p = inr classes
    /\ take_labels classes (top_indices probas) = inr labels.

(** The job artifact fails on [X] somewhere between loading and labelling. *)
Definition jobs_raise {np : NumPy} (fs : gmap string pipeline) (X : frame) : Prop :=
  forall labels, ~ jobs_return fs X labels.

(** A computation reads the artifacts, never changes them, and only appends
    to the trace; what it returns and appends depends on the artifacts
    alone. *)
Definition framed {A} (c : M A) : Prop :=
  forall fs, exists r evs,
    forall tr, c {| files := fs; trace := tr |} = (r, {| files := fs; trace := tr ++ evs |}).

(** The artifact files a run loaded, in order. *)
Definition loaded_paths (evs : list event) : list string :=
  omap (fun ev => match ev with EvLoad path => Some path | _ => None end) evs.

(** The frames a run handed to [predict] and [predict_proba], in order. *)
Definition predictor_calls (evs : list event) : list frame :=
  omap (fun ev => match ev with EvPredict X | EvPredictProba X => Some X | _ => None end) evs.

(** The lines a run printed, in order. *)
Definition printed_lines (evs : list event) : list string :=
  omap (fun ev => match ev with EvPrint line => Some line | _ => None end) evs.

(** Values that [+] and the comparisons of the engine accept. *)
Definition is_numeric (v : pyval) : bool :=
  match v with
  | PInt _ | PBool _ | PFloat _ => true
  | PStr _ | PNone => false
  end.

(** The line printed by the [except] block of a prediction step. *)
Definition error_line (step : string) (e : exn) : string :=
  "Error in " ++ step ++ ": " ++ exn_str e
  ++ ". Ensure models are trained and saved correctly.".

(** The three answers with status 400. *)
Definition rejections : list string :=
  ["Request must be JSON"; "Missing 'user_data' or 'projection_months'.";
   "Invalid 'projection_months'. Must be 6, 24, or 60."].

(** ** Order of floats *)

(** A key on which the order of floats is lexicographic; NaN has the top
    key, as in numpy's sorts. *)
Definition sf_key (x : spec_float) : Z * (Z * Z) :=
  match x with
  | S754_nan => (3, (0, 0))
  | S754_infinity false => (2, (0, 0))
  | S754_infinity true => (-2, (0, 0))
  | S754_zero _ => (0, (0, 0))
  | S754_finite false m e => (1, (e, Z.pos m))
  | S754_finite true m e => (-1, (- e, Z.neg m))
  end.

(** The strict lexicographic order of keys. *)
Definition key_lt (a b : Z * (Z * Z)) : Prop :=
  a.1 < b.1 \/ (a.1 = b.1 /\ (a.2.1 < b.2.1 \/ (a.2.1 = b.2.1 /\ a.2.2 < b.2.2))).

Definition fkey (x : float) : Z * (Z * Z) := sf_key (Prim2SF x).

(** Class [i] may be listed before class [j]: its probability is not the
    smaller one. *)
Definition listed_before (v : list float) (i j : nat) : Prop :=
  np_lt (key_at v i) (key_at v j) = false.

(** ** Values and rounding of binary64 floats *)

(** Powers of two with an integer exponent. *)
Definition bpow (e : Z) : R := powerRZ 2 e.

(** The real number a finite or zero float stands for. *)
Definition SF2R (x : spec_float) : R :=
  match x with
  | S754_finite s m e => (if s then - IZR (Z.pos m) else IZR (Z.pos m)) * bpow e
  | _ => 0%R
  end.

(** [(m, e, l)] locates [v]: [m * 2^e <= v < (m + 1) * 2^e], and [l] tells
    where [v] lies in that interval. *)
Definition inbetween (m e : Z) (l : location) (v : R) : Prop :=
  match l with
  | loc_Exact => v = (IZR m * bpow e)%R
  | loc_Inexact c =>
      (IZR m * bpow e < v < (IZR m + 1) * bpow e)%R
      /\ match c with
         | Lt => (v < (IZR m + / 2) * bpow e)%R
         | Eq => v = ((IZR m + / 2) * bpow e)%R
         | Gt => ((IZR m + / 2) * bpow e < v)%R
         end
  end.

Abbreviation fexp64 := (SpecFloat.fexp prec emax).

(** [(M, E, L)] locates [v] on the grid of its binade: the exponent is the
    canonical one, and the mantissa has 53 bits unless the exponent is the
    least one. *)
Definition located (M E : Z) (L : location) (v : R) : Prop :=
  0 <= M < 2 ^ 53 /\ -1074 <= E /\ (-1074 < E -> 2 ^ 52 <= M) /\ inbetween M E L v.

(** What [binary_round_aux] does once the location is on the canonical
    grid: round to nearest even, renormalise, detect overflow. *)
Definition round_finish (s : bool) (M E : Z) (L : location) : spec_float :=
  let '(mrs, e) := shr_fexp prec emax (round_nearest_even M L) E loc_Exact in
  match shr_m mrs with
  | Z0 => S754_zero s
  | Z.pos m => if e <=? emax - prec then S754_finite s m e else S754_infinity s
  | Z.neg _ => S754_nan
  end.

(** [x] is the rounding of the non-negative real [v]. *)
Definition rounds_to (v : R) (x : spec_float) : Prop :=
  exists m e l,
    0 <= m /\ e <= fexp64 (Zdigits2 m + e) /\ inbetween m e l v
    /\ x = binary_round_aux prec emax false m e l.

(** Floats of the non-negative half line, [+0] and [+oo] included. *)
Definition sf_nonneg (x : spec_float) : Prop :=
  match x with
  | S754_zero false | S754_finite false _ _ | S754_infinity false => True
  | _ => False
  end.

(** Zeros and finite floats. *)
Definition sf_finite (x : spec_float) : Prop :=
  match x with
  | S754_zero _ | S754_finite _ _ _ => True
  | _ => False
  end.

(** [x <= y] on keys. *)
Definition kle (x y : spec_float) : Prop := ~ key_lt (sf_key y) (sf_key x).

(** The sign of a rounding is the sign it was given. *)
Definition has_sign (s : bool) (x : spec_float) : Prop :=
  match x with
  | S754_zero s' | S754_finite s' _ _ | S754_infinity s' => s' = s
  | S754_nan => False
  end.

(** [max(0, q)] on specification floats. *)
Definition SFmax0 (q : spec_float) : spec_float :=
  if SFltb (S754_zero false) q then q else S754_zero false.

(** The same notions on primitive floats. *)
Definition fnonneg (a : float) : Prop := sf_nonneg (Prim2SF a).
Definition fkle (a b : float) : Prop := kle (Prim2SF a) (Prim2SF b).

(** ** Sample inputs *)

Definition sample_profile : gmap string pyval :=
  list_to_map
    [("age", PInt 30); ("tenure_months", PInt 10); ("education", PStr "Bachelors");
     ("location", PStr "Kochi"); ("title", PStr "Engineer"); ("industry", PStr "Software");
     ("remote_flag", PBool true)].

Definition constant_regressor (v : pyval) : pipeline :=
  {| predict := fun _ => Ok [v];
     predict_proba := fun _ => Raise (ArtifactError "no predict_proba");
     classifier_classes := Raise (KeyError "classifier") |}.

Definition constant_classifier (classes : list string) (probas : list float) : pipeline :=
  {| predict := fun _ => Raise (ArtifactError "not used");
     predict_proba := fun _ => Ok [probas];
     classifier_classes := Ok classes |}.

Definition broken_pipeline : pipeline :=
  {| predict := fun _ => Raise (ArtifactError "schema mismatch");
     predict_proba := fun _ => Raise (ArtifactError "schema mismatch");
     classifier_classes := Raise (KeyError "classifier") |}.

Definition sample_classifier : pipeline :=
  constant_classifier ["A"; "B"; "C"; "D"] [0.0625; 0.5; 0.25; 0.1875]%float.

Definition world_of (salary job : pipeline) : world :=
  {| files := <[SALARY_MODEL_FILE := salary]> (<[JOB_MODEL_FILE := job]> ∅); trace := [] |}.

Definition sample_world : world :=
  world_of (constant_regressor (PFloat 85000.125)) sample_classifier.

(** * Proofs *)

(** ** The model on sample inputs *)

Example health_in_band : predict_health_increase 7.5 = 0x1.199999999999ap+0%float.
Proof. reflexivity. Qed.

Example health_short_sleep : predict_health_increase 6.0 = 1.05%float.
Proof. reflexivity. Qed.

Example health_long_sleep : predict_health_increase 9.5 = 1.08%float.
Proof. reflexivity. Qed.

Example health_floor : predict_health_increase 4.0 = 1.0%float.
Proof. reflexivity. Qed.

Example health_nan : predict_health_increase nan = 1.0%float.
Proof. reflexivity. Qed.

Example round_half_even : py_round 0.125 2 = 0.12%float.
Proof. vm_compute. reflexivity. Qed.

Example round_default_health :
  py_round ((predict_health_increase 7.5 - 1.0) * 100)%float 1 = 10.0%float.
Proof. vm_compute. reflexivity. Qed.

Example sample_run :
  predict_future_twin sample_profile 24 sample_world
  = (Ok {| projected_age := 32;
           health_increase_percent := 10.0;
           predicted_salary := PFloat 85000.12;
           recommended_jobs := ["B"; "C"; "D"];
           time_projection_months := 24 |},
     emitted sample_world
       [EvLoad SALARY_MODEL_FILE; EvPredict (feature_frame sample_profile 30 10 24);
        EvLoad JOB_MODEL_FILE; EvPredictProba (feature_frame sample_profile 30 10 24)]).
Proof. vm_compute. reflexivity. Qed.

(** ** Order of floats *)

Lemma spec_float_nan_dec (x : spec_float) : {x = S754_nan} + {x <> S754_nan}.
Proof. destruct x; (by left) || (by right). Qed.

Lemma SFcompare_key x y :
  x <> S754_nan -> y <> S754_nan ->
  match SFcompare x y with
  | Some Lt => key_lt (sf_key x) (sf_key y)
  | Some Eq => sf_key x = sf_key y
  | Some Gt => key_lt (sf_key y) (sf_key x)
  | None => False
  end.
Proof.
  unfold key_lt.
  destruct x as [[]|[]| |[] m1 e1], y as [[]|[]| |[] m2 e2]; intros Hx Hy; try congruence;
    cbn; try lia; try reflexivity.
  - destruct (Z.compare_spec e1 e2); cbn; try lia.
    rewrite Pos.compare_cont_spec. cbn.
    destruct (Pos.compare_spec m1 m2); cbn; subst; try reflexivity; lia.
  - destruct (Z.compare_spec e1 e2); cbn; try lia.
    rewrite Pos.compare_cont_spec. cbn.
    destruct (Pos.compare_spec m1 m2); cbn; subst; try reflexivity; lia.
Qed.

Lemma sf_key_nan x : (sf_key x).1 = 3 <-> x = S754_nan.
Proof. destruct x as [[]|[]| |[] m e]; cbn; split; intros; congruence || lia. Qed.

Lemma key_lt_irrefl a : ~ key_lt a a.
Proof. unfold key_lt. lia. Qed.

Lemma key_lt_trans a b c : key_lt a b -> key_lt b c -> key_lt a c.
Proof. unfold key_lt. lia. Qed.

Lemma key_lt_total a b : key_lt a b \/ a = b \/ key_lt b a.
Proof.
  destruct a as [a1 [a2 a3]], b as [b1 [b2 b3]]. unfold key_lt. cbn.
  destruct (Z.lt_trichotomy a1 b1) as [?|[?|?]]; try lia.
  destruct (Z.lt_trichotomy a2 b2) as [?|[?|?]]; try lia.
  destruct (Z.lt_trichotomy a3 b3) as [?|[?|?]]; try lia.
  subst. auto.
Qed.

Lemma SFcompare_nan_r a : SFcompare a S754_nan = None.
Proof. by destruct a as [[]|[]| |[] m e]. Qed.

Lemma SFltb_key a b :
  SFltb a b = true <-> a <> S754_nan /\ b <> S754_nan /\ key_lt (sf_key a) (sf_key b).
Proof.
  unfold SFltb.
  destruct (spec_float_nan_dec a) as [->|Ha]; [cbn; split; [discriminate|tauto]|].
  destruct (spec_float_nan_dec b) as [->|Hb];
    [rewrite SFcompare_nan_r; split; [discriminate|tauto]|].
  pose proof (SFcompare_key a b Ha Hb) as Hk.
  destruct (SFcompare a b) as [[]|]; try contradiction.
  - split; [discriminate|]. intros (_ & _ & Hlt). rewrite Hk in Hlt.
    destruct (key_lt_irrefl _ Hlt).
  - tauto.
  - split; [discriminate|]. intros (_ & _ & Hlt).
    destruct (key_lt_irrefl _ (key_lt_trans _ _ _ Hk Hlt)).
Qed.

Lemma SFleb_key a b :
  SFleb a b = true <->
  a <> S754_nan /\ b <> S754_nan /\ ~ key_lt (sf_key b) (sf_key a).
Proof.
  unfold SFleb.
  destruct (spec_float_nan_dec a) as [->|Ha]; [cbn; split; [discriminate|tauto]|].
  destruct (spec_float_nan_dec b) as [->|Hb];
    [rewrite SFcompare_nan_r; split; [discriminate|tauto]|].
  pose proof (SFcompare_key a b Ha Hb) as Hk.
  destruct (SFcompare a b) as [[]|]; try contradiction.
  - split; [|reflexivity]. intros _. repeat split; try done. rewrite Hk. apply key_lt_irrefl.
  - split; [|reflexivity]. intros _. repeat split; try done.
    intros Hlt. destruct (key_lt_irrefl _ (key_lt_trans _ _ _ Hk Hlt)).
  - split; [discriminate|]. intros (_ & _ & Hn). contradiction.
Qed.

Lemma SFeqb_key a b :
  SFeqb a b = true <-> a <> S754_nan /\ b <> S754_nan /\ sf_key a = sf_key b.
Proof.
  unfold SFeqb.
  destruct (spec_float_nan_dec a) as [->|Ha]; [cbn; split; [discriminate|tauto]|].
  destruct (spec_float_nan_dec b) as [->|Hb];
    [rewrite SFcompare_nan_r; split; [discriminate|tauto]|].
  pose proof (SFcompare_key a b Ha Hb) as Hk.
  destruct (SFcompare a b) as [[]|]; try contradiction.
  - tauto.
  - split; [discriminate|]. intros (_ & _ & E). rewrite E in Hk. destruct (key_lt_irrefl _ Hk).
  - split; [discriminate|]. intros (_ & _ & E). rewrite E in Hk. destruct (key_lt_irrefl _ Hk).
Qed.

Lemma ltb_key x y :
  (x <? y)%float = true <->
  Prim2SF x <> S754_nan /\ Prim2SF y <> S754_nan /\ key_lt (fkey x) (fkey y).
Proof. rewrite FloatAxioms.ltb_spec. apply SFltb_key. Qed.

Lemma leb_key x y :
  (x <=? y)%float = true <->
  Prim2SF x <> S754_nan /\ Prim2SF y <> S754_nan /\ ~ key_lt (fkey y) (fkey x).
Proof. rewrite FloatAxioms.leb_spec. apply SFleb_key. Qed.

Lemma is_nan_key x : is_nan x = true <-> Prim2SF x = S754_nan.
Proof.
  unfold is_nan. rewrite FloatAxioms.eqb_spec.
  destruct (SFeqb (Prim2SF x) (Prim2SF x)) eqn:E; cbn.
  - split; [discriminate|]. apply SFeqb_key in E. tauto.
  - split; [intros _|done].
    destruct (spec_float_nan_dec (Prim2SF x)) as [|N]; [done|].
    assert (SFeqb (Prim2SF x) (Prim2SF x) = true) by (apply SFeqb_key; auto). congruence.
Qed.

Lemma sf_key_le_3 x : (sf_key x).1 <= 3.
Proof. by destruct x as [[]|[]| |[] m e]. Qed.

Lemma sf_key_nan_eq x : (sf_key x).1 = 3 -> sf_key x = (3, (0, 0)).
Proof. by destruct x as [[]|[]| |[] m e]. Qed.

Lemma np_lt_key a b : np_lt a b = true <-> key_lt (fkey a) (fkey b).
Proof.
  unfold np_lt. rewrite orb_true_iff, andb_true_iff, negb_true_iff, ltb_key.
  rewrite <- not_true_iff_false, !is_nan_key. unfold fkey.
  pose proof (sf_key_nan (Prim2SF a)) as Ha. pose proof (sf_key_nan (Prim2SF b)) as Hb.
  pose proof (sf_key_le_3 (Prim2SF a)) as La. pose proof (sf_key_le_3 (Prim2SF b)) as Lb.
  split.
  - intros [(_ & _ & Hlt)|[Hbn Han]]; [exact Hlt|]. left. apply Hb in Hbn.
    assert ((sf_key (Prim2SF a)).1 <> 3) by tauto. clear Ha Hb. lia.
  - intros Hlt. destruct (spec_float_nan_dec (Prim2SF b)) as [Eb|Nb].
    + right. split; [done|]. intros Ea. apply Ha, sf_key_nan_eq in Ea.
      apply Hb, sf_key_nan_eq in Eb. rewrite Ea, Eb in Hlt.
      destruct (key_lt_irrefl _ Hlt).
    + left. repeat split; try done. intros Ea. apply Ha in Ea. apply Nb, Hb.
      unfold key_lt in Hlt. clear Ha Hb. lia.
Qed.

Lemma np_lt_irrefl a : np_lt a a = false.
Proof.
  apply not_true_iff_false. rewrite np_lt_key. apply key_lt_irrefl.
Qed.

Lemma np_lt_neg_trans a b c :
  np_lt a b = false -> np_lt b c = false -> np_lt a c = false.
Proof.
  rewrite <- !not_true_iff_false, !np_lt_key. intros Hab Hbc Hac.
  destruct (key_lt_total (fkey b) (fkey c)) as [?|[E|Hcb]]; [done| |].
  - rewrite <- E in Hac. done.
  - apply Hab. by apply (key_lt_trans _ (fkey c)).
Qed.

Lemma SFmul_comm x y : SF64mul x y = SF64mul y x.
Proof.
  unfold SF64mul.
  destruct x as [sx|sx| |sx mx ex], y as [sy|sy| |sy my ey]; cbn;
    rewrite ?(xorb_comm sx sy); try reflexivity.
  by rewrite (Pos.mul_comm mx my), (Z.add_comm ex ey).
Qed.

Lemma float_mul_comm (x y : float) : (x * y)%float = (y * x)%float.
Proof. apply Prim2SF_inj. rewrite !mul_spec. apply SFmul_comm. Qed.

Lemma ltb_leb_false x y : (x <? y)%float = true -> (y <=? x)%float = false.
Proof.
  intros Hlt. apply ltb_key in Hlt as (_ & _ & Hlt).
  apply not_true_iff_false. intros Hle. apply leb_key in Hle as (_ & _ & Hle). done.
Qed.

Lemma fkey_7 : fkey 7.0 = (1, (-50, 7881299347898368)).
Proof. reflexivity. Qed.

Lemma fkey_8_5 : fkey 8.5 = (1, (-49, 4785074604081152)).
Proof. reflexivity. Qed.

Lemma above_band_not_below x : (8.5 <? x)%float = true -> (x <? 7.0)%float = false.
Proof.
  intros Hlt. apply ltb_key in Hlt as (_ & _ & Hlt).
  apply not_true_iff_false. intros Hlt'. apply ltb_key in Hlt' as (_ & _ & Hlt').
  pose proof (key_lt_trans _ _ _ Hlt Hlt') as H.
  rewrite fkey_7, fkey_8_5 in H. unfold key_lt in H. cbn in H. lia.
Qed.

(** ** Rounding of binary64 operations *)

Lemma bpow_gt_0 e : (0 < bpow e)%R.
Proof. apply powerRZ_lt. lra. Qed.

Lemma bpow_plus e1 e2 : bpow (e1 + e2) = (bpow e1 * bpow e2)%R.
Proof. apply powerRZ_add. lra. Qed.

Lemma bpow_opp e : bpow (- e) = (/ bpow e)%R.
Proof. apply powerRZ_neg'. Qed.

Lemma bpow_0 : bpow 0 = 1%R.
Proof. reflexivity. Qed.

Lemma bpow_1 : bpow 1 = 2%R.
Proof. unfold bpow. simpl. lra. Qed.

Lemma bpow_succ e : bpow (e + 1) = (2 * bpow e)%R.
Proof. rewrite bpow_plus, bpow_1. lra. Qed.

Lemma bpow_IZR n : 0 <= n -> bpow n = IZR (2 ^ n).
Proof.
  intros H. unfold bpow. destruct n as [|p|p]; [reflexivity| |lia].
  change (2 ^ Z.pos p) with (Z.pow_pos 2 p). by rewrite Zpower_pos_powerRZ.
Qed.

Lemma bpow_ge_1 n : 0 <= n -> (1 <= bpow n)%R.
Proof.
  intros H. rewrite bpow_IZR by done. apply IZR_le.
  pose proof (Z.pow_pos_nonneg 2 n). lia.
Qed.

Lemma bpow_le e1 e2 : e1 <= e2 -> (bpow e1 <= bpow e2)%R.
Proof.
  intros H. replace e2 with (e1 + (e2 - e1)) by lia. rewrite bpow_plus.
  pose proof (bpow_gt_0 e1). pose proof (bpow_ge_1 (e2 - e1) ltac:(lia)). nra.
Qed.

Lemma bpow_lt e1 e2 : e1 < e2 -> (bpow e1 < bpow e2)%R.
Proof.
  intros H. replace e2 with ((e1 + 1) + (e2 - e1 - 1)) by lia.
  rewrite bpow_plus, bpow_succ.
  pose proof (bpow_gt_0 e1). pose proof (bpow_ge_1 (e2 - e1 - 1) ltac:(lia)). nra.
Qed.

Lemma bpow_lt_inv e1 e2 : (bpow e1 < bpow e2)%R -> e1 < e2.
Proof.
  intros H. destruct (Z_lt_le_dec e1 e2) as [|Hle]; [done|].
  apply bpow_le in Hle. lra.
Qed.

Lemma digits2_pos_bounds p :
  2 ^ (Z.pos (digits2_pos p) - 1) <= Z.pos p < 2 ^ Z.pos (digits2_pos p).
Proof.
  induction p as [p IH|p IH|]; cbn [digits2_pos].
  - rewrite Pos2Z.inj_succ, Z.pow_succ_r by lia.
    replace (Z.succ (Z.pos (digits2_pos p)) - 1) with (Z.succ (Z.pos (digits2_pos p) - 1)) by lia.
    rewrite Z.pow_succ_r by lia. lia.
  - rewrite Pos2Z.inj_succ, Z.pow_succ_r by lia.
    replace (Z.succ (Z.pos (digits2_pos p)) - 1) with (Z.succ (Z.pos (digits2_pos p) - 1)) by lia.
    rewrite Z.pow_succ_r by lia. lia.
  - cbn. lia.
Qed.

(** The digits of a non-negative integer bracket it between powers of two. *)
Lemma Zdigits2_bounds m :
  0 < m -> (bpow (Zdigits2 m - 1) <= IZR m < bpow (Zdigits2 m))%R.
Proof.
  intros Hm. destruct m as [|p|p]; try lia. cbn [Zdigits2].
  pose proof (digits2_pos_bounds p) as [H1 H2].
  rewrite !bpow_IZR by lia. split; [apply IZR_le|apply IZR_lt]; done.
Qed.

Lemma Zdigits2_succ_le m : 0 < m -> (IZR m + 1 <= bpow (Zdigits2 m))%R.
Proof.
  intros Hm. destruct m as [|p|p]; try lia. cbn [Zdigits2].
  pose proof (digits2_pos_bounds p) as [_ H2].
  rewrite bpow_IZR by lia. rewrite <- plus_IZR. apply IZR_le. lia.
Qed.

Lemma fexp64_eq k : fexp64 k = Z.max (k - 53) (-1074).
Proof. reflexivity. Qed.

Lemma IZR_xO p : IZR (Z.pos p~0) = (2 * IZR (Z.pos p))%R.
Proof. rewrite Pos2Z.inj_xO, mult_IZR. lra. Qed.

Lemma IZR_xI p : IZR (Z.pos p~1) = (2 * IZR (Z.pos p) + 1)%R.
Proof. rewrite Pos2Z.inj_xI, plus_IZR, mult_IZR. lra. Qed.

Lemma inbetween_bounds m e l v :
  inbetween m e l v -> (IZR m * bpow e <= v < (IZR m + 1) * bpow e)%R.
Proof.
  pose proof (bpow_gt_0 e). destruct l as [|c]; cbn.
  - intros ->. lra.
  - intros [? _]. lra.
Qed.

Lemma shr_1_inbetween mrs e v :
  0 <= shr_m mrs ->
  inbetween (shr_m mrs) e (loc_of_shr_record mrs) v ->
  0 <= shr_m (shr_1 mrs)
  /\ inbetween (shr_m (shr_1 mrs)) (e + 1) (loc_of_shr_record (shr_1 mrs)) v.
Proof.
  pose proof (bpow_gt_0 e) as Hb.
  destruct mrs as [m r s]. cbn [shr_m]. intros Hm.
  destruct m as [|[p|p|]|p]; try lia;
    destruct r, s; cbn -[IZR bpow Z.add]; rewrite bpow_succ;
    try rewrite (IZR_xO p); try rewrite (IZR_xI p);
    intros Hin; (split; [lia|]); repeat split; lra.
Qed.

Lemma iter_shr_1_inbetween p : forall mrs e v,
  0 <= shr_m mrs ->
  inbetween (shr_m mrs) e (loc_of_shr_record mrs) v ->
  0 <= shr_m (SpecFloat.iter_pos shr_1 p mrs)
  /\ inbetween (shr_m (SpecFloat.iter_pos shr_1 p mrs)) (e + Z.pos p)
       (loc_of_shr_record (SpecFloat.iter_pos shr_1 p mrs)) v.
Proof.
  induction p as [p IH|p IH|]; intros mrs e v Hm Hin; cbn [SpecFloat.iter_pos].
  - destruct (shr_1_inbetween mrs e v Hm Hin) as [Hm1 Hin1].
    destruct (IH _ _ _ Hm1 Hin1) as [Hm2 Hin2].
    destruct (IH _ _ _ Hm2 Hin2) as [Hm3 Hin3].
    split; [done|]. replace (e + Z.pos p~1) with (e + 1 + Z.pos p + Z.pos p) by lia. done.
  - destruct (IH _ _ _ Hm Hin) as [Hm2 Hin2].
    destruct (IH _ _ _ Hm2 Hin2) as [Hm3 Hin3].
    split; [done|]. replace (e + Z.pos p~0) with (e + Z.pos p + Z.pos p) by lia. done.
  - by apply shr_1_inbetween.
Qed.

Lemma loc_of_shr_record_of_loc m l : loc_of_shr_record (shr_record_of_loc m l) = l.
Proof. by destruct l as [|[]]. Qed.

Lemma shr_m_record_of_loc m l : shr_m (shr_record_of_loc m l) = m.
Proof. by destruct l as [|[]]. Qed.

(** The first shift of [binary_round_aux] brings a location with enough
    precision to the canonical exponent. *)
Lemma shr_fexp_located m e l v :
  0 <= m -> e <= fexp64 (Zdigits2 m + e) -> inbetween m e l v ->
  exists mrs,
    shr_fexp prec emax m e l = (mrs, fexp64 (Zdigits2 m + e))
    /\ located (shr_m mrs) (fexp64 (Zdigits2 m + e)) (loc_of_shr_record mrs) v.
Proof.
  intros Hm Hprec Hin. set (E := fexp64 (Zdigits2 m + e)) in *.
  assert (exists mrs, shr_fexp prec emax m e l = (mrs, E) /\ 0 <= shr_m mrs
            /\ inbetween (shr_m mrs) E (loc_of_shr_record mrs) v) as (mrs & Hshr & Hm' & Hin').
  { unfold shr_fexp, shr. fold E.
    destruct (E - e) as [|n|n] eqn:Hn; try lia.
    - exists (shr_record_of_loc m l). replace E with e by lia.
      rewrite shr_m_record_of_loc, loc_of_shr_record_of_loc. done.
    - destruct (iter_shr_1_inbetween n (shr_record_of_loc m l) e v) as [H1 H2].
      + by rewrite shr_m_record_of_loc.
      + by rewrite shr_m_record_of_loc, loc_of_shr_record_of_loc.
      + eexists. split; [|split; [exact H1|]].
        * f_equal. lia.
        * replace E with (e + Z.pos n) by lia. done. }
  exists mrs. split; [done|].
  pose proof (inbetween_bounds _ _ _ _ Hin') as [Hlo Hhi].
  pose proof (inbetween_bounds _ _ _ _ Hin) as [Hlo0 Hhi0].
  pose proof (bpow_gt_0 E) as HbE. pose proof (bpow_gt_0 e) as Hbe.
  assert (E = Z.max (Zdigits2 m + e - 53) (-1074)) as HE by done.
  (* v < 2 ^ (digits m + e) *)
  assert (v < bpow (Zdigits2 m + e))%R as Hv.
  { destruct (Z.eq_dec m 0) as [->|Hnz].
    - cbn [Zdigits2]. rewrite Z.add_0_l. cbn in Hhi0. lra.
    - pose proof (Zdigits2_bounds m ltac:(lia)) as [_ Hd].
      rewrite bpow_plus.
      pose proof (Zdigits2_succ_le m ltac:(lia)). nra. }
  assert (IZR (shr_m mrs) < bpow 53)%R as HM.
  { assert (bpow (Zdigits2 m + e) <= bpow (E + 53))%R by (apply bpow_le; lia).
    rewrite (bpow_plus E 53) in H. assert (IZR (shr_m mrs) * bpow E < bpow E * bpow 53)%R by lra.
    nra. }
  repeat split; try done; try lia.
  - rewrite bpow_IZR in HM by lia. by apply lt_IZR in HM.
  - intros Hnorm.
    assert (0 < m) as Hmpos.
    { destruct (Z.eq_dec m 0) as [->|]; [|lia]. cbn [Zdigits2] in *. lia. }
    pose proof (Zdigits2_bounds m Hmpos) as [Hd _].
    assert (bpow (E + 52) <= v)%R as Hv2.
    { replace (E + 52) with ((Zdigits2 m - 1) + e) by lia. rewrite bpow_plus. nra. }
    rewrite (bpow_plus E 52) in Hv2.
    assert (bpow 52 < IZR (shr_m mrs) + 1)%R as Hlt by nra.
    rewrite bpow_IZR in Hlt by lia. rewrite <- plus_IZR in Hlt. apply lt_IZR in Hlt. lia.
Qed.

Lemma binary_round_aux_finish s m e l mrs E :
  shr_fexp prec emax m e l = (mrs, E) ->
  binary_round_aux prec emax s m e l = round_finish s (shr_m mrs) E (loc_of_shr_record mrs).
Proof. intros H. unfold binary_round_aux, round_finish. by rewrite H. Qed.

Lemma rne_bounds M L : M <= round_nearest_even M L <= M + 1.
Proof. destruct L as [|[]]; cbn; try destruct (Z.even M); lia. Qed.

Lemma Zdigits2_le_53 N : 0 < N < 2 ^ 53 -> Zdigits2 N <= 53.
Proof.
  intros [H1 H2]. destruct N as [|p|p]; try lia. cbn [Zdigits2].
  pose proof (digits2_pos_bounds p) as [Hlo _].
  destruct (Z_le_gt_dec (Z.pos (digits2_pos p)) 53) as [|Hgt]; [done|].
  assert (2 ^ 53 <= 2 ^ (Z.pos (digits2_pos p) - 1)) by (apply Z.pow_le_mono_r; lia).
  lia.
Qed.

Lemma round_finish_eq s M E L :
  let N := round_nearest_even M L in
  0 <= N <= 2 ^ 53 -> -1074 <= E ->
  round_finish s M E L =
    if N =? 0 then S754_zero s
    else if N =? 2 ^ 53
         then (if E + 1 <=? 971 then S754_finite s (2 ^ 52)%positive (E + 1)
               else S754_infinity s)
         else (if E <=? 971 then S754_finite s (Z.to_pos N) E else S754_infinity s).
Proof.
  intros N HN HE. unfold round_finish. fold N.
  destruct (Z.eqb_spec N 0) as [->|Hnz].
  { unfold shr_fexp, shr. cbn [Zdigits2]. rewrite fexp64_eq.
    destruct (Z.max (0 + E - 53) (-1074) - E) eqn:Hs; try lia; reflexivity. }
  destruct (Z.eqb_spec N (2 ^ 53)) as [->|Hn53].
  { unfold shr_fexp, shr. change (Zdigits2 (2 ^ 53)) with 54. rewrite fexp64_eq.
    replace (Z.max (54 + E - 53) (-1074) - E) with 1 by lia.
    cbn -[Z.leb Z.add]. reflexivity. }
  assert (Zdigits2 N <= 53) by (apply Zdigits2_le_53; lia).
  unfold shr_fexp, shr. rewrite fexp64_eq.
  destruct (Z.max (Zdigits2 N + E - 53) (-1074) - E) eqn:Hs; try lia.
  - cbn [shr_record_of_loc shr_m]. destruct N; try lia. reflexivity.
  - cbn [shr_record_of_loc shr_m]. destruct N; try lia. reflexivity.
Qed.

Lemma rne_mono M E La va Lb vb :
  inbetween M E La va -> inbetween M E Lb vb -> (va <= vb)%R ->
  round_nearest_even M La <= round_nearest_even M Lb.
Proof.
  pose proof (bpow_gt_0 E) as HB.
  destruct La as [|[]], Lb as [|[]]; cbn; intros Ha Hb Hle;
    try destruct (Z.even M); try lia; exfalso; lra.
Qed.

Lemma IZR_mul_lt_inv a b B : (0 < B)%R -> (IZR a * B < (IZR b + 1) * B)%R -> a <= b.
Proof.
  intros HB H. assert (IZR a < IZR (b + 1))%R as Hlt by (rewrite plus_IZR; nra).
  apply lt_IZR in Hlt. lia.
Qed.

(** Rounding is monotone on non-negative values. *)
Lemma round_finish_mono Ma Ea La va Mb Eb Lb vb :
  located Ma Ea La va -> located Mb Eb Lb vb -> (va <= vb)%R ->
  ~ key_lt (sf_key (round_finish false Mb Eb Lb)) (sf_key (round_finish false Ma Ea La)).
Proof.
  intros (HMa & HEa & Hna & Hia) (HMb & HEb & Hnb & Hib) Hle.
  pose proof (inbetween_bounds _ _ _ _ Hia) as [Hloa Hhia].
  pose proof (inbetween_bounds _ _ _ _ Hib) as [Hlob Hhib].
  pose proof (rne_bounds Ma La) as HNa. pose proof (rne_bounds Mb Lb) as HNb.
  pose proof (bpow_gt_0 Ea) as HBa. pose proof (bpow_gt_0 Eb) as HBb.
  assert (Ea <= Eb) as HE.
  { destruct (Z_le_gt_dec Ea Eb) as [|Hgt]; [done|]. exfalso.
    assert (2 ^ 52 <= Ma) as Hn by (apply Hna; lia).
    apply IZR_le in Hn. rewrite <- bpow_IZR in Hn by lia.
    assert (IZR Mb + 1 <= bpow 53)%R as Hb53.
    { rewrite bpow_IZR by lia. rewrite <- plus_IZR. apply IZR_le. lia. }
    assert (bpow (Eb + 53) <= bpow (Ea + 52))%R as Hp by (apply bpow_le; lia).
    rewrite (bpow_plus Eb 53), (bpow_plus Ea 52) in Hp. nra. }
  assert (Ea = Eb -> round_nearest_even Ma La <= round_nearest_even Mb Lb) as Hsame.
  { intros ->. assert (Ma <= Mb) as HM by (apply (IZR_mul_lt_inv _ _ (bpow Eb)); lra).
    destruct (Z.eq_dec Ma Mb) as [->|]; [|lia].
    by apply (rne_mono _ Eb _ va _ vb). }
  assert (Ea < Eb -> 2 ^ 52 <= round_nearest_even Mb Lb) as Hdiff.
  { intros Hlt. assert (2 ^ 52 <= Mb) by (apply Hnb; lia). lia. }
  rewrite !round_finish_eq by lia. unfold key_lt.
  set (Na := round_nearest_even Ma La) in *. set (Nb := round_nearest_even Mb Lb) in *.
  assert (2 ^ 52 = 4503599627370496) as E52 by reflexivity.
  assert (2 ^ 53 = 9007199254740992) as E53 by reflexivity.
  rewrite E52, E53 in *.
  destruct (Z.eqb_spec Na 0), (Z.eqb_spec Nb 0),
    (Z.eqb_spec Na 9007199254740992), (Z.eqb_spec Nb 9007199254740992),
    (Z.leb_spec (Ea + 1) 971), (Z.leb_spec Ea 971),
    (Z.leb_spec (Eb + 1) 971), (Z.leb_spec Eb 971); cbn; try lia.
  all: rewrite ?Z2Pos.id by lia; lia.
Qed.

Lemma valid_finite_located s m e :
  valid_binary (S754_finite s m e) = true ->
  located (Z.pos m) e loc_Exact (IZR (Z.pos m) * bpow e) /\ e <= 971.
Proof.
  unfold SpecFloat.valid_binary, SpecFloat.bounded, SpecFloat.canonical_mantissa.
  rewrite andb_true_iff, Z.eqb_eq, Z.leb_le.
  rewrite fexp64_eq. intros [Hc He]. change (emax - prec) with 971 in He.
  pose proof (digits2_pos_bounds m) as [Hlo Hhi].
  split; [|done]. repeat split; try lia.
  - assert (2 ^ Z.pos (digits2_pos m) <= 2 ^ 53) by (apply Z.pow_le_mono_r; lia). lia.
  - intros Hn. assert (Z.pos (digits2_pos m) = 53) as Hd by lia.
    rewrite Hd in Hlo. exact Hlo.
Qed.

Lemma round_finish_nonneg M E L :
  0 <= M < 2 ^ 53 -> -1074 <= E -> sf_nonneg (round_finish false M E L).
Proof.
  intros HM HE. pose proof (rne_bounds M L).
  rewrite round_finish_eq by lia.
  repeat match goal with |- context [if ?c then _ else _] => destruct c end; exact I.
Qed.

Lemma rounds_to_nonneg v x : rounds_to v x -> sf_nonneg x.
Proof.
  intros (m & e & l & Hm & Hp & Hin & ->).
  destruct (shr_fexp_located m e l v Hm Hp Hin) as (mrs & Hshr & HM & HE & _).
  rewrite (binary_round_aux_finish _ _ _ _ _ _ Hshr). by apply round_finish_nonneg.
Qed.

Lemma rounds_to_mono va xa vb xb :
  rounds_to va xa -> rounds_to vb xb -> (va <= vb)%R -> kle xa xb.
Proof.
  intros (ma & ea & la & Hma & Hpa & Hia & ->) (mb & eb & lb & Hmb & Hpb & Hib & ->) Hle.
  destruct (shr_fexp_located ma ea la va Hma Hpa Hia) as (mrsa & Hsa & Hla).
  destruct (shr_fexp_located mb eb lb vb Hmb Hpb Hib) as (mrsb & Hsb & Hlb).
  rewrite (binary_round_aux_finish _ _ _ _ _ _ Hsa), (binary_round_aux_finish _ _ _ _ _ _ Hsb).
  by apply (round_finish_mono _ _ _ va _ _ _ vb).
Qed.

(** A valid non-negative float is its own rounding. *)
Lemma rounds_to_valid m e :
  valid_binary (S754_finite false m e) = true ->
  rounds_to (IZR (Z.pos m) * bpow e) (S754_finite false m e).
Proof.
  intros Hv. pose proof Hv as Hv'.
  apply valid_finite_located in Hv' as [(HM & HE & Hn & Hin) He].
  exists (Z.pos m), e, loc_Exact.
  assert (fexp64 (Zdigits2 (Z.pos m) + e) = e) as Hc.
  { unfold SpecFloat.valid_binary, SpecFloat.bounded, SpecFloat.canonical_mantissa in Hv.
    apply andb_true_iff in Hv as [Hc _]. by apply Z.eqb_eq in Hc. }
  split; [lia|]. split; [lia|]. split; [done|].
  assert (shr_fexp prec emax (Z.pos m) e loc_Exact
          = ({| shr_m := Z.pos m; shr_r := false; shr_s := false |}, e)) as Hshr.
  { unfold shr_fexp. rewrite Hc, Z.sub_diag. reflexivity. }
  rewrite (binary_round_aux_finish _ _ _ _ _ _ Hshr). cbn [shr_m loc_of_shr_record].
  rewrite round_finish_eq by (cbn; lia). cbn [round_nearest_even].
  destruct (Z.eqb_spec (Z.pos m) 0); [lia|].
  destruct (Z.eqb_spec (Z.pos m) (2 ^ 53)); [lia|].
  destruct (Z.leb_spec e 971); [|lia]. reflexivity.
Qed.

Lemma rounds_to_zero : rounds_to 0 (S754_zero false).
Proof.
  exists 0, (-1074), loc_Exact. repeat split; try done. cbn. lra.
Qed.

(** On valid floats the key order is the order of the values. *)
Lemma key_lt_value x y :
  valid_binary x = true -> valid_binary y = true -> sf_finite x -> sf_finite y ->
  key_lt (sf_key x) (sf_key y) -> (SF2R x < SF2R y)%R.
Proof.
  intros Hvx Hvy Hfx Hfy Hlt.
  assert (forall m e, 0 < IZR (Z.pos m) * bpow e)%R as Hpos.
  { intros m e. pose proof (bpow_gt_0 e). assert (0 < IZR (Z.pos m))%R by (apply IZR_lt; lia).
    nra. }
  assert (forall sa ma ea sb mb eb,
    valid_binary (S754_finite sa ma ea) = true -> valid_binary (S754_finite sb mb eb) = true ->
    ea < eb \/ (ea = eb /\ Z.pos ma < Z.pos mb) ->
    (IZR (Z.pos ma) * bpow ea < IZR (Z.pos mb) * bpow eb)%R) as Hlex.
  { intros sa ma ea sb mb eb Ha Hb Hord.
    apply valid_finite_located in Ha as [(HMa & HEa & Hna & _) _].
    apply valid_finite_located in Hb as [(HMb & HEb & Hnb & _) _].
    pose proof (bpow_gt_0 ea). pose proof (bpow_gt_0 eb).
    destruct Hord as [He|[-> Hm]].
    - assert (2 ^ 52 <= Z.pos mb) as H52 by (apply Hnb; lia).
      apply IZR_le in H52. rewrite <- bpow_IZR in H52 by lia.
      assert (IZR (Z.pos ma) < bpow 53)%R as H53.
      { rewrite bpow_IZR by lia. apply IZR_lt. lia. }
      assert (bpow (ea + 53) <= bpow (eb + 52))%R as Hp by (apply bpow_le; lia).
      rewrite (bpow_plus ea 53), (bpow_plus eb 52) in Hp. nra.
    - apply IZR_lt in Hm. nra. }
  unfold key_lt in Hlt.
  destruct x as [sx|sx| |[] mx ex], y as [sy|sy| |[] my ey]; try done; cbn in Hlt |- *;
    try (pose proof (Hpos mx ex)); try (pose proof (Hpos my ey)); try lra; try lia.
  - assert (IZR (Z.pos my) * bpow ey < IZR (Z.pos mx) * bpow ex)%R; [|lra].
    apply (Hlex true my ey true mx ex); try done. lia.
  - apply (Hlex false mx ex false my ey); try done. lia.
Qed.

Lemma key_eq_value x y :
  sf_finite x -> sf_finite y -> sf_key x = sf_key y -> SF2R x = SF2R y.
Proof.
  destruct x as [sx|sx| |[] mx ex], y as [sy|sy| |[] my ey]; try done; cbn;
    try destruct sx; try destruct sy; cbn; try done; intros _ _ H; inversion H; subst; try done.
  replace ex with ey by lia. done.
Qed.

Lemma kle_value x y :
  valid_binary x = true -> valid_binary y = true -> sf_finite x -> sf_finite y ->
  kle x y -> (SF2R x <= SF2R y)%R.
Proof.
  intros Hvx Hvy Hfx Hfy Hle.
  destruct (key_lt_total (sf_key x) (sf_key y)) as [Hlt|[Heq|Hgt]].
  - apply Rlt_le. by apply key_lt_value.
  - apply Req_le. by apply key_eq_value.
  - contradiction.
Qed.

Lemma iter_xO_value d : forall m,
  Z.pos (Pos.iter xO m d) = Z.pos m * 2 ^ Z.pos d
  /\ Z.pos (digits2_pos (Pos.iter xO m d)) = Z.pos (digits2_pos m) + Z.pos d.
Proof.
  induction d as [|d IH] using Pos.peano_ind; intros m.
  - cbn. lia.
  - rewrite Pos.iter_succ. cbn [digits2_pos]. destruct (IH m) as [H1 H2].
    rewrite !Pos2Z.inj_succ, Z.pow_succ_r by lia. split.
    + rewrite Pos2Z.inj_xO, H1. lia.
    + rewrite H2. lia.
Qed.

Lemma shl_align_value mx ex ez :
  ez <= ex -> Z.pos (fst (shl_align mx ex ez)) = Z.pos mx * 2 ^ (ex - ez).
Proof.
  intros H. unfold shl_align. destruct (ez - ex) as [|d|d] eqn:Hd; try lia; cbn [fst].
  - replace (ex - ez) with 0 by lia. lia.
  - destruct (iter_xO_value d mx) as [-> _]. f_equal. f_equal. lia.
Qed.

Lemma IZR_mul_pow m k e : 0 <= k -> (IZR (m * 2 ^ k) * bpow e = IZR m * bpow (k + e))%R.
Proof. intros Hk. rewrite mult_IZR, <- bpow_IZR, bpow_plus by done. lra. Qed.

(** [binary_round] rounds the value of its mantissa and exponent. *)
Lemma binary_round_rounds_to n e :
  rounds_to (IZR (Z.pos n) * bpow e) (binary_round prec emax false n e).
Proof.
  unfold binary_round, shl_align.
  set (E := SpecFloat.fexp prec emax (Z.pos (digits2_pos n) + e)).
  destruct (E - e) as [|d|d] eqn:Hd.
  - exists (Z.pos n), e, loc_Exact. repeat split; try done.
    cbn [Zdigits2]. fold E. lia.
  - exists (Z.pos n), e, loc_Exact. repeat split; try done.
    cbn [Zdigits2]. fold E. lia.
  - destruct (iter_xO_value d n) as [Hv Hdig].
    exists (Z.pos (Pos.iter xO n d)), E, loc_Exact. repeat split; try done.
    + cbn [Zdigits2]. rewrite Hdig.
      replace (Z.pos (digits2_pos n) + Z.pos d + E) with (Z.pos (digits2_pos n) + e) by lia.
      fold E. lia.
    + cbn [inbetween]. rewrite Hv, IZR_mul_pow by lia. f_equal. f_equal. lia.
Qed.

Lemma binary_normalize_pos n e :
  0 < n -> rounds_to (IZR n * bpow e) (binary_normalize prec emax n e false).
Proof. intros Hn. destruct n; try lia. apply binary_round_rounds_to. Qed.

Lemma cond_Zopp_value s m : IZR (cond_Zopp s (Z.pos m))
  = (if s then - IZR (Z.pos m) else IZR (Z.pos m))%R.
Proof. destruct s; cbn [cond_Zopp]; [|done]. by rewrite opp_IZR. Qed.

Lemma aligned_value s m e ez :
  ez <= e ->
  (IZR (cond_Zopp s (Z.pos (fst (shl_align m e ez)))) * bpow ez
   = SF2R (S754_finite s m e))%R.
Proof.
  intros H. rewrite cond_Zopp_value, shl_align_value by done. cbn [SF2R].
  pose proof (IZR_mul_pow (Z.pos m) (e - ez) ez ltac:(lia)) as Hm.
  replace (e - ez + ez) with e in Hm by lia. destruct s; lra.
Qed.

(** Subtraction of finite floats with a positive exact result. *)
Lemma SFsub_finite_pos sx mx ex sy my ey :
  (0 < SF2R (S754_finite sx mx ex) - SF2R (S754_finite sy my ey))%R ->
  rounds_to (SF2R (S754_finite sx mx ex) - SF2R (S754_finite sy my ey))
    (SF64sub (S754_finite sx mx ex) (S754_finite sy my ey)).
Proof.
  intros Hpos. unfold SF64sub, SFsub.
  set (ez := Z.min ex ey).
  set (n := cond_Zopp sx (Z.pos (fst (shl_align mx ex ez)))
            - cond_Zopp sy (Z.pos (fst (shl_align my ey ez)))).
  assert (IZR n * bpow ez
          = SF2R (S754_finite sx mx ex) - SF2R (S754_finite sy my ey))%R as Hn.
  { unfold n. rewrite minus_IZR, Rmult_minus_distr_r, !aligned_value by lia. done. }
  rewrite <- Hn. apply binary_normalize_pos.
  pose proof (bpow_gt_0 ez). rewrite <- Hn in Hpos.
  assert (0 < IZR n)%R as H0 by nra. by apply lt_IZR in H0.
Qed.

(** Addition of positive finite floats. *)
Lemma SFadd_finite_pos mx ex my ey :
  rounds_to (SF2R (S754_finite false mx ex) + SF2R (S754_finite false my ey))
    (SF64add (S754_finite false mx ex) (S754_finite false my ey)).
Proof.
  unfold SF64add, SFadd.
  set (ez := Z.min ex ey).
  set (n := cond_Zopp false (Z.pos (fst (shl_align mx ex ez)))
            + cond_Zopp false (Z.pos (fst (shl_align my ey ez)))).
  assert (IZR n * bpow ez
          = SF2R (S754_finite false mx ex) + SF2R (S754_finite false my ey))%R as Hn.
  { unfold n. rewrite plus_IZR, Rmult_plus_distr_r, !aligned_value by lia. done. }
  rewrite <- Hn. apply binary_normalize_pos. unfold n. cbn [cond_Zopp]. lia.
Qed.

Lemma SF2R_pos m e : (0 < SF2R (S754_finite false m e))%R.
Proof.
  cbn. pose proof (bpow_gt_0 e). assert (0 < IZR (Z.pos m))%R by (apply IZR_lt; lia). nra.
Qed.

(** Multiplication of a positive finite float by a positive normal one. *)
Lemma SFmul_finite_pos mx ex mc ec :
  2 ^ 52 <= Z.pos mc ->
  rounds_to (SF2R (S754_finite false mx ex) * SF2R (S754_finite false mc ec))
    (SF64mul (S754_finite false mx ex) (S754_finite false mc ec)).
Proof.
  intros Hc. unfold SF64mul, SFmul. cbn [xorb].
  exists (Z.pos (mx * mc)), (ex + ec), loc_Exact. repeat split; try done.
  - cbn [Zdigits2]. rewrite fexp64_eq.
    pose proof (digits2_pos_bounds (mx * mc)) as [_ Hhi].
    assert (52 < Z.pos (digits2_pos (mx * mc))).
    { apply (Z.pow_lt_mono_r_iff 2); [lia|lia|]. nia. }
    lia.
  - cbn [inbetween SF2R]. rewrite Pos2Z.inj_mul, mult_IZR, bpow_plus. lra.
Qed.

Lemma Odd_not_double m r : Z.even m = false -> 2 * r <> m.
Proof. intros Hodd <-. rewrite Z.even_mul in Hodd. discriminate. Qed.

(** The quotient, exponent and location computed by the division core
    locate the exact quotient. *)
Lemma SFdiv_core_binary_inbetween m1 e1 m2 e2 :
  let '(q, e, l) := SFdiv_core_binary prec emax (Z.pos m1) e1 (Z.pos m2) e2 in
  let v := (IZR (Z.pos m1) * bpow e1 / (IZR (Z.pos m2) * bpow e2))%R in
  0 <= q /\ e <= fexp64 (Zdigits2 q + e) /\ inbetween q e l v.
Proof.
  unfold SFdiv_core_binary. cbn [Zdigits2].
  set (d1 := Z.pos (digits2_pos m1)). set (d2 := Z.pos (digits2_pos m2)).
  set (K := d1 + e1 - (d2 + e2)).
  set (e := Z.min (SpecFloat.fexp prec emax K) (e1 - e2)).
  set (s := e1 - e2 - e).
  assert (0 <= s) as Hs by lia.
  set (m' := match s with Z.pos _ => Z.shiftl (Z.pos m1) s | 0 => Z.pos m1 | Z.neg _ => 0 end).
  assert (m' = Z.pos m1 * 2 ^ s) as Hm'.
  { unfold m'. destruct s eqn:E; try lia. apply Z.shiftl_mul_pow2. lia. }
  pose proof (Z_div_mod m' (Z.pos m2) ltac:(lia)) as Hdiv.
  destruct (Z.div_eucl m' (Z.pos m2)) as [q r]. destruct Hdiv as [Hqr Hr].
  assert (0 <= q) as Hq by nia.
  pose proof (bpow_gt_0 e1) as HB1. pose proof (bpow_gt_0 e2) as HB2.
  pose proof (bpow_gt_0 e) as HB.
  assert (0 < IZR (Z.pos m1))%R as H1 by (apply IZR_lt; lia).
  assert (0 < IZR (Z.pos m2))%R as H2 by (apply IZR_lt; lia).
  set (rho := (IZR r / IZR (Z.pos m2))%R).
  assert (rho * IZR (Z.pos m2) = IZR r)%R as Hrho by (unfold rho; field; lra).
  assert (IZR (Z.pos m1) * bpow e1 / (IZR (Z.pos m2) * bpow e2)
          = (IZR q + rho) * bpow e)%R as Hv.
  { assert (IZR m' * bpow e = IZR (Z.pos m1) * bpow e1 / bpow e2)%R as Hscale.
    { rewrite Hm', IZR_mul_pow by done. replace (s + e) with (e1 + - e2) by lia.
      rewrite bpow_plus, bpow_opp. field. lra. }
    assert (IZR m' = IZR (Z.pos m2) * (IZR q + rho))%R as Hm2.
    { rewrite Hqr, plus_IZR, mult_IZR. lra. }
    rewrite Hm2 in Hscale. unfold Rdiv in *.
    rewrite Rinv_mult. 
    replace (IZR (Z.pos m1) * bpow e1 * (/ IZR (Z.pos m2) * / bpow e2))%R
      with (/ IZR (Z.pos m2) * (IZR (Z.pos m1) * bpow e1 * / bpow e2))%R by ring.
    rewrite <- Hscale. field. lra. }
  cbv zeta. rewrite Hv.
  assert (0 <= rho < 1)%R as Hrho01.
  { assert (0 <= IZR r < IZR (Z.pos m2))%R as [Ha Hb] by (split; [apply IZR_le|apply IZR_lt]; lia).
    split.
    - unfold rho. apply Rmult_le_pos; [done|]. apply Rlt_le, Rinv_0_lt_compat. done.
    - destruct (Rlt_le_dec rho 1) as [|Hge]; [done|]. exfalso. nra. }
  split; [done|]. split.
  - (* enough precision *)
    assert (bpow (K - 1) < (IZR q + rho) * bpow e)%R as Hlow.
    { rewrite <- Hv.
      pose proof (Zdigits2_bounds (Z.pos m1) ltac:(lia)) as [Hd1 _].
      pose proof (Zdigits2_bounds (Z.pos m2) ltac:(lia)) as [_ Hd2].
      cbn [Zdigits2] in Hd1, Hd2. fold d1 in Hd1. fold d2 in Hd2.
      assert (bpow (K - 1) * (bpow d2 * bpow e2) = bpow (d1 - 1) * bpow e1)%R as HK.
      { rewrite <- !bpow_plus. f_equal. lia. }
      pose proof (bpow_gt_0 (K - 1)) as HBK. pose proof (bpow_gt_0 d2).
      pose proof (bpow_gt_0 (d1 - 1)).
      assert (0 < IZR (Z.pos m2) * bpow e2)%R as Hden by nra.
      apply (Rmult_lt_reg_r (IZR (Z.pos m2) * bpow e2)); [done|].
      replace (IZR (Z.pos m1) * bpow e1 / (IZR (Z.pos m2) * bpow e2)
               * (IZR (Z.pos m2) * bpow e2))%R
        with (IZR (Z.pos m1) * bpow e1)%R by (field; lra).
      assert (bpow (K - 1) * (IZR (Z.pos m2) * bpow e2)
              < bpow (K - 1) * (bpow d2 * bpow e2))%R by
        (apply Rmult_lt_compat_l; [done|]; apply Rmult_lt_compat_r; done).
      assert (bpow (d1 - 1) * bpow e1 <= IZR (Z.pos m1) * bpow e1)%R by
        (apply Rmult_le_compat_r; lra).
      lra. }
    assert ((IZR q + rho) * bpow e < bpow (Zdigits2 q + e))%R as Hup.
    { rewrite bpow_plus.
      assert (IZR q + 1 <= bpow (Zdigits2 q))%R.
      { destruct (Z.eq_dec q 0) as [->|]; [cbn; lra|]. apply Zdigits2_succ_le. lia. }
      nra. }
    assert (K - 1 < Zdigits2 q + e) by (apply bpow_lt_inv; lra).
    rewrite fexp64_eq. unfold e at 1. rewrite fexp64_eq. lia.
  - (* the location *)
    unfold new_location, new_location_even, new_location_odd.
    destruct (Z.eqb_spec r 0) as [->|Hrnz].
    { assert (rho = 0)%R as -> by (unfold rho; lra).
      destruct (Z.even (Z.pos m2)); cbn; lra. }
    assert (0 < rho)%R as Hrpos.
    { assert (0 < IZR r)%R by (apply IZR_lt; lia). nra. }
    assert (forall a b : Z, a < b -> (IZR a < IZR b)%R) as Hlt by (intros; by apply IZR_lt).
    assert ((r =? 0) = false) as Hr0 by (by apply Z.eqb_neq).
    destruct (Z.even (Z.pos m2)) eqn:Hev; rewrite Hr0; cbv beta iota delta [inbetween].
    + split; [nra|]. destruct (Z.compare_spec (2 * r) (Z.pos m2)) as [Hc|Hc|Hc].
      * apply (f_equal IZR) in Hc. rewrite mult_IZR in Hc. nra.
      * apply Hlt in Hc. rewrite mult_IZR in Hc. nra.
      * apply Hlt in Hc. rewrite mult_IZR in Hc. nra.
    + split; [nra|]. pose proof (Odd_not_double _ r Hev) as Hodd.
      destruct (Z.compare_spec (2 * r + 1) (Z.pos m2)) as [Hc|Hc|Hc].
      * assert (2 * r < Z.pos m2) as Hc' by lia. apply Hlt in Hc'.
        rewrite mult_IZR in Hc'. nra.
      * assert (2 * r < Z.pos m2) as Hc' by lia. apply Hlt in Hc'.
        rewrite mult_IZR in Hc'. nra.
      * assert (Z.pos m2 < 2 * r) as Hc' by lia. apply Hlt in Hc'.
        rewrite mult_IZR in Hc'. nra.
Qed.

(** Division of positive finite floats. *)
Lemma SFdiv_finite_pos mx ex my ey :
  rounds_to (SF2R (S754_finite false mx ex) / SF2R (S754_finite false my ey))
    (SF64div (S754_finite false mx ex) (S754_finite false my ey)).
Proof.
  unfold SF64div, SFdiv. cbn [xorb SF2R].
  pose proof (SFdiv_core_binary_inbetween mx ex my ey) as H.
  destruct (SFdiv_core_binary prec emax (Z.pos mx) ex (Z.pos my) ey) as [[q e] l].
  cbv zeta in H. destruct H as (Hq & Hp & Hin).
  exists q, e, l. repeat split; done.
Qed.

Lemma binary_round_sign s n e : has_sign s (binary_round prec emax s n e).
Proof.
  assert (forall m e' l v, 0 <= m -> e' <= fexp64 (Zdigits2 m + e') -> inbetween m e' l v ->
            has_sign s (binary_round_aux prec emax s m e' l)) as Haux.
  { intros m e' l v Hm Hp Hin.
    destruct (shr_fexp_located m e' l v Hm Hp Hin) as (mrs & Hshr & HM & HE & _).
    rewrite (binary_round_aux_finish _ _ _ _ _ _ Hshr).
    pose proof (rne_bounds (shr_m mrs) (loc_of_shr_record mrs)).
    rewrite round_finish_eq by lia.
    repeat match goal with |- context [if ?c then _ else _] => destruct c end; reflexivity. }
  unfold binary_round, shl_align.
  set (E := SpecFloat.fexp prec emax (Z.pos (digits2_pos n) + e)).
  destruct (E - e) as [|d|d] eqn:Hd.
  - apply (Haux _ _ _ (IZR (Z.pos n) * bpow e)%R); try done. cbn [Zdigits2]. fold E. lia.
  - apply (Haux _ _ _ (IZR (Z.pos n) * bpow e)%R); try done. cbn [Zdigits2]. fold E. lia.
  - destruct (iter_xO_value d n) as [Hv Hdig].
    apply (Haux _ _ _ (IZR (Z.pos (Pos.iter xO n d)) * bpow E)%R); try done.
    cbn [Zdigits2]. rewrite Hdig.
    replace (Z.pos (digits2_pos n) + Z.pos d + E) with (Z.pos (digits2_pos n) + e) by lia.
    fold E. lia.
Qed.

Lemma has_sign_true_not_pos x : has_sign true x -> SFltb (S754_zero false) x = false.
Proof. destruct x as [[]|[]| |[] m e]; cbn; intros H; try done. Qed.

(** Subtraction of finite floats whose exact result is not positive. *)
Lemma SFsub_finite_nonpos sx mx ex sy my ey :
  (SF2R (S754_finite sx mx ex) - SF2R (S754_finite sy my ey) <= 0)%R ->
  SFltb (S754_zero false) (SF64sub (S754_finite sx mx ex) (S754_finite sy my ey)) = false.
Proof.
  intros Hneg. unfold SF64sub, SFsub.
  set (ez := Z.min ex ey).
  set (n := cond_Zopp sx (Z.pos (fst (shl_align mx ex ez)))
            - cond_Zopp sy (Z.pos (fst (shl_align my ey ez)))).
  assert (IZR n * bpow ez
          = SF2R (S754_finite sx mx ex) - SF2R (S754_finite sy my ey))%R as Hn.
  { unfold n. rewrite minus_IZR, Rmult_minus_distr_r, !aligned_value by lia. done. }
  pose proof (bpow_gt_0 ez). rewrite <- Hn in Hneg.
  assert (n <= 0) as Hle.
  { destruct (Z_le_gt_dec n 0) as [|Hgt]; [done|]. exfalso.
    assert (0 < IZR n)%R by (apply IZR_lt; lia). nra. }
  destruct n as [|p|p]; try lia; cbn [binary_normalize]; [reflexivity|].
  apply has_sign_true_not_pos, binary_round_sign.
Qed.

Lemma nonneg_key x : sf_nonneg x -> 0 <= (sf_key x).1 <= 2.
Proof. destruct x as [[]|[]| |[] m e]; cbn; intros H; try done; lia. Qed.

Lemma kle_refl x : kle x x.
Proof. apply key_lt_irrefl. Qed.

Lemma kle_infinity x : sf_nonneg x -> kle x (S754_infinity false).
Proof.
  intros H. apply nonneg_key in H. unfold kle, key_lt. cbn.
  destruct (sf_key x) as [k1 [k2 k3]] eqn:E. cbn in *.
  destruct x as [[]|[]| |[] m e]; cbn in E; inversion E; subst; lia.
Qed.

Lemma kle_zero x : sf_nonneg x -> kle (S754_zero false) x.
Proof.
  intros H. unfold kle, key_lt.
  destruct x as [[]|[]| |[] m e]; cbn in *; try done; lia.
Qed.

Lemma nonneg_value x : sf_nonneg x -> (0 <= SF2R x)%R.
Proof.
  destruct x as [[]|[]| |[] m e]; cbn; intros H; try done; try lra.
  pose proof (SF2R_pos m e) as Hp. cbn in Hp. lra.
Qed.

Lemma nonneg_cases x :
  sf_nonneg x -> sf_finite x \/ x = S754_infinity false.
Proof. destruct x as [[]|[]| |[] m e]; cbn; intros H; try done; auto. Qed.

Lemma kle_infinity_inv x :
  sf_nonneg x -> kle (S754_infinity false) x -> x = S754_infinity false.
Proof.
  unfold kle, key_lt. destruct x as [[]|[]| |[] m e]; cbn; intros H Hk; try done;
    exfalso; apply Hk; lia.
Qed.

(** A map that rounds a monotone function of the value and keeps [+oo] is
    monotone on the non-negative floats. *)
Lemma nonneg_map_mono (F : spec_float -> spec_float) (g : R -> R) :
  (forall u w, (0 <= u <= w)%R -> (g u <= g w)%R) ->
  (forall a, valid_binary a = true -> sf_nonneg a -> sf_finite a ->
             rounds_to (g (SF2R a)) (F a)) ->
  F (S754_infinity false) = S754_infinity false ->
  forall a b, valid_binary a = true -> valid_binary b = true -> sf_nonneg a -> sf_nonneg b ->
              kle a b -> kle (F a) (F b) /\ sf_nonneg (F a) /\ sf_nonneg (F b).
Proof.
  intros Hg HF Hinf a b Hva Hvb Hna Hnb Hle.
  assert (forall x, valid_binary x = true -> sf_nonneg x -> sf_nonneg (F x)) as Hnn.
  { intros x Hv Hn. destruct (nonneg_cases x Hn) as [Hf| ->].
    - eapply rounds_to_nonneg. by apply HF.
    - by rewrite Hinf. }
  split; [|split; by apply Hnn].
  destruct (nonneg_cases b Hnb) as [Hfb| ->].
  - destruct (nonneg_cases a Hna) as [Hfa| ->].
    + apply (rounds_to_mono (g (SF2R a)) _ (g (SF2R b))); try by apply HF.
      apply Hg. split; [by apply nonneg_value|by apply kle_value].
    + apply kle_infinity_inv in Hle; [|done]. subst b. apply kle_refl.
  - rewrite Hinf. apply kle_infinity. by apply Hnn.
Qed.

Lemma SFmax0_nonneg_id q : sf_nonneg q -> SFmax0 q = q.
Proof. by destruct q as [[]|[]| |[] m e]. Qed.

Lemma SFmax0_nonneg q : sf_nonneg (SFmax0 q).
Proof. by destruct q as [[]|[]| |[] m e]. Qed.

(** Subtraction with a positive exact result, zeros included. *)
Lemma SFsub_pos c x :
  valid_binary c = true -> valid_binary x = true -> sf_finite c -> sf_finite x ->
  (0 < SF2R c - SF2R x)%R -> rounds_to (SF2R c - SF2R x) (SF64sub c x).
Proof.
  intros Hvc Hvx Hfc Hfx Hpos.
  destruct c as [sc|sc| |sc mc ec], x as [sx|sx| |sx mx ex]; try done.
  - cbn in Hpos. lra.
  - destruct sx.
    + replace (SF2R (S754_zero sc) - SF2R (S754_finite true mx ex))%R
        with (IZR (Z.pos mx) * bpow ex)%R by (cbn; lra).
      unfold SF64sub. cbn. by apply rounds_to_valid.
    + pose proof (SF2R_pos mx ex). cbn [SF2R] in *. lra.
  - destruct sc.
    + pose proof (SF2R_pos mc ec). cbn [SF2R] in *. lra.
    + replace (SF2R (S754_finite false mc ec) - SF2R (S754_zero sx))%R
        with (IZR (Z.pos mc) * bpow ec)%R by (cbn; lra).
      unfold SF64sub. cbn. by apply rounds_to_valid.
  - by apply SFsub_finite_pos.
Qed.

(** Subtraction with a non-positive exact result is not above zero. *)
Lemma SFsub_nonpos c x :
  sf_finite c -> sf_finite x -> (SF2R c - SF2R x <= 0)%R ->
  SFltb (S754_zero false) (SF64sub c x) = false.
Proof.
  intros Hfc Hfx Hneg.
  destruct c as [sc|sc| |sc mc ec], x as [sx|sx| |sx mx ex]; try done.
  - by destruct sc, sx.
  - destruct sx; [|reflexivity]. pose proof (SF2R_pos mx ex). cbn [SF2R] in *. lra.
  - destruct sc; [reflexivity|]. pose proof (SF2R_pos mc ec). cbn [SF2R] in *. lra.
  - by apply SFsub_finite_nonpos.
Qed.

(** [a |-> max(0, c - a)] is antitone on the non-negative floats. *)
Lemma SFmax0_sub_antitone c a b :
  valid_binary c = true -> sf_finite c ->
  valid_binary a = true -> valid_binary b = true -> sf_nonneg a -> sf_nonneg b -> kle a b ->
  kle (SFmax0 (SF64sub c b)) (SFmax0 (SF64sub c a)).
Proof.
  intros Hvc Hfc Hva Hvb Hna Hnb Hle.
  destruct (nonneg_cases b Hnb) as [Hfb| ->].
  2:{ assert (SFmax0 (SF64sub c (S754_infinity false)) = S754_zero false) as ->.
      { by destruct c as [[]|[]| |[] m e]. }
      apply kle_zero, SFmax0_nonneg. }
  destruct (nonneg_cases a Hna) as [Hfa| ->].
  2:{ apply kle_infinity_inv in Hle; [|done]. by subst b. }
  pose proof (kle_value a b Hva Hvb Hfa Hfb Hle) as Hval.
  destruct (Rlt_le_dec 0 (SF2R c - SF2R b)) as [Hpos|Hneg].
  - pose proof (SFsub_pos c b Hvc Hvb Hfc Hfb Hpos) as Hb.
    pose proof (SFsub_pos c a Hvc Hva Hfc Hfa ltac:(lra)) as Ha.
    rewrite !SFmax0_nonneg_id by (eapply rounds_to_nonneg; eassumption).
    apply (rounds_to_mono _ _ _ _ Hb Ha). lra.
  - unfold SFmax0 at 1. rewrite (SFsub_nonpos c b Hfc Hfb Hneg).
    apply kle_zero, SFmax0_nonneg.
Qed.

Lemma sf_nonneg_not_nan x : sf_nonneg x -> x <> S754_nan.
Proof. by destruct x. Qed.

(** Multiplication by a positive normal constant is monotone. *)
Lemma SFmul_const_mono mc ec a b :
  2 ^ 52 <= Z.pos mc ->
  valid_binary a = true -> valid_binary b = true -> sf_nonneg a -> sf_nonneg b -> kle a b ->
  let c := S754_finite false mc ec in
  kle (SF64mul a c) (SF64mul b c) /\ sf_nonneg (SF64mul a c) /\ sf_nonneg (SF64mul b c).
Proof.
  intros Hc Hva Hvb Hna Hnb Hle c.
  apply (nonneg_map_mono (fun a => SF64mul a c) (fun u => u * SF2R c)%R); try done.
  - intros u w Huw. pose proof (SF2R_pos mc ec). fold c in H. nra.
  - intros x Hvx Hnx Hfx. destruct x as [[]|[]| |[] mx ex]; try done.
    + rewrite Rmult_0_l. apply rounds_to_zero.
    + by apply SFmul_finite_pos.
Qed.

(** Division by a positive finite constant is monotone. *)
Lemma SFdiv_const_mono mc ec a b :
  valid_binary a = true -> valid_binary b = true -> sf_nonneg a -> sf_nonneg b -> kle a b ->
  let c := S754_finite false mc ec in
  kle (SF64div a c) (SF64div b c) /\ sf_nonneg (SF64div a c) /\ sf_nonneg (SF64div b c).
Proof.
  intros Hva Hvb Hna Hnb Hle c.
  apply (nonneg_map_mono (fun a => SF64div a c) (fun u => u / SF2R c)%R); try done.
  - intros u w Huw. pose proof (SF2R_pos mc ec) as H. fold c in H.
    unfold Rdiv. apply Rmult_le_compat_r; [|lra].
    apply Rlt_le, Rinv_0_lt_compat. done.
  - intros x Hvx Hnx Hfx. destruct x as [[]|[]| |[] mx ex]; try done.
    + unfold Rdiv. rewrite Rmult_0_l. apply rounds_to_zero.
    + by apply SFdiv_finite_pos.
Qed.

(** Adding a non-negative float to a positive finite constant is monotone. *)
Lemma SFadd_const_mono mc ec a b :
  valid_binary (S754_finite false mc ec) = true ->
  valid_binary a = true -> valid_binary b = true -> sf_nonneg a -> sf_nonneg b -> kle a b ->
  let c := S754_finite false mc ec in
  kle (SF64add c a) (SF64add c b) /\ sf_nonneg (SF64add c a) /\ sf_nonneg (SF64add c b).
Proof.
  intros Hvc Hva Hvb Hna Hnb Hle c.
  apply (nonneg_map_mono (fun a => SF64add c a) (fun u => SF2R c + u)%R); try done.
  - intros u w Huw. lra.
  - intros x Hvx Hnx Hfx. destruct x as [[]|[]| |[] mx ex]; try done.
    + rewrite Rplus_0_r. unfold SF64add. cbn. by apply rounds_to_valid.
    + by apply SFadd_finite_pos.
Qed.

Lemma sf_key_finite_bounds x : sf_finite x -> -1 <= (sf_key x).1 <= 1.
Proof. destruct x as [[]|[]| |[] m e]; cbn; intros H; try done; lia. Qed.

Lemma key_below_finite x c :
  sf_finite c -> key_lt (sf_key x) (sf_key c) -> sf_finite x \/ x = S754_infinity true.
Proof.
  intros Hc Hlt. apply sf_key_finite_bounds in Hc. unfold key_lt in Hlt.
  destruct x as [[]|[]| |[] m e]; cbn in *; auto; lia.
Qed.

Lemma key_above_finite x c :
  sf_finite c -> x <> S754_nan -> key_lt (sf_key c) (sf_key x) ->
  sf_finite x \/ x = S754_infinity false.
Proof.
  intros Hc Hn Hlt. apply sf_key_finite_bounds in Hc. unfold key_lt in Hlt.
  destruct x as [[]|[]| |[] m e]; cbn in *; auto; try done; lia.
Qed.

Lemma kle_key_lt x y z : kle x y -> key_lt (sf_key y) (sf_key z) -> key_lt (sf_key x) (sf_key z).
Proof.
  unfold kle. intros Hxy Hyz.
  destruct (key_lt_total (sf_key x) (sf_key y)) as [H|[H|H]]; try done.
  - by apply (key_lt_trans _ (sf_key y)).
  - by rewrite H.
Qed.

Lemma key_lt_kle x y z : key_lt (sf_key x) (sf_key y) -> kle y z -> key_lt (sf_key x) (sf_key z).
Proof.
  unfold kle. intros Hxy Hyz.
  destruct (key_lt_total (sf_key y) (sf_key z)) as [H|[H|H]]; try done.
  - by apply (key_lt_trans _ (sf_key y)).
  - by rewrite <- H.
Qed.

(** [x |-> c - x] is antitone below [c], with non-negative results. *)
Lemma SFsub_from_antitone c x y :
  valid_binary c = true -> sf_finite c -> valid_binary x = true -> valid_binary y = true ->
  kle x y -> key_lt (sf_key y) (sf_key c) ->
  kle (SF64sub c y) (SF64sub c x) /\ sf_nonneg (SF64sub c y) /\ sf_nonneg (SF64sub c x).
Proof.
  intros Hvc Hfc Hvx Hvy Hle Hyc.
  pose proof (kle_key_lt _ _ _ Hle Hyc) as Hxc.
  assert (forall z, valid_binary z = true -> sf_finite z -> key_lt (sf_key z) (sf_key c) ->
                    rounds_to (SF2R c - SF2R z) (SF64sub c z)) as Hfin.
  { intros z Hvz Hfz Hzc. apply SFsub_pos; try done.
    pose proof (key_lt_value z c Hvz Hvc Hfz Hfc Hzc). lra. }
  assert (SF64sub c (S754_infinity true) = S754_infinity false) as Hinf.
  { by destruct c as [[]|[]| |[] m e]. }
  destruct (key_below_finite y c Hfc Hyc) as [Hfy| ->];
    destruct (key_below_finite x c Hfc Hxc) as [Hfx| ->].
  - pose proof (Hfin x Hvx Hfx Hxc) as Hx. pose proof (Hfin y Hvy Hfy Hyc) as Hy.
    split; [|split; eapply rounds_to_nonneg; eassumption].
    apply (rounds_to_mono _ _ _ _ Hy Hx).
    pose proof (kle_value x y Hvx Hvy Hfx Hfy Hle). lra.
  - pose proof (Hfin y Hvy Hfy Hyc) as Hy. apply rounds_to_nonneg in Hy.
    rewrite Hinf. split; [by apply kle_infinity|]. done.
  - exfalso. apply Hle. unfold key_lt.
    destruct x as [[]|[]| |[] m e]; cbn in *; try done; lia.
  - rewrite Hinf. split; [apply kle_refl|]. done.
Qed.

(** [x |-> x - c] is monotone above [c], with non-negative results. *)
Lemma SFsub_const_mono c x y :
  valid_binary c = true -> sf_finite c -> valid_binary x = true -> valid_binary y = true ->
  y <> S754_nan -> key_lt (sf_key c) (sf_key x) -> kle x y ->
  kle (SF64sub x c) (SF64sub y c) /\ sf_nonneg (SF64sub x c) /\ sf_nonneg (SF64sub y c).
Proof.
  intros Hvc Hfc Hvx Hvy Hny Hcx Hle.
  pose proof (key_lt_kle _ _ _ Hcx Hle) as Hcy.
  assert (x <> S754_nan) as Hnx.
  { intros ->. apply Hle. unfold key_lt.
    destruct y as [[]|[]| |[] m e]; cbn; try done; lia. }
  assert (forall z, valid_binary z = true -> sf_finite z -> key_lt (sf_key c) (sf_key z) ->
                    rounds_to (SF2R z - SF2R c) (SF64sub z c)) as Hfin.
  { intros z Hvz Hfz Hzc. apply SFsub_pos; try done.
    pose proof (key_lt_value c z Hvc Hvz Hfc Hfz Hzc). lra. }
  assert (SF64sub (S754_infinity false) c = S754_infinity false) as Hinf.
  { by destruct c as [[]|[]| |[] m e]. }
  destruct (key_above_finite x c Hfc Hnx Hcx) as [Hfx| ->];
    destruct (key_above_finite y c Hfc Hny Hcy) as [Hfy| ->].
  - pose proof (Hfin x Hvx Hfx Hcx) as Hx. pose proof (Hfin y Hvy Hfy Hcy) as Hy.
    split; [|split; eapply rounds_to_nonneg; eassumption].
    apply (rounds_to_mono _ _ _ _ Hx Hy).
    pose proof (kle_value x y Hvx Hvy Hfx Hfy Hle). lra.
  - pose proof (Hfin x Hvx Hfx Hcx) as Hx. apply rounds_to_nonneg in Hx.
    rewrite Hinf. split; [by apply kle_infinity|]. done.
  - exfalso. apply Hle. unfold key_lt.
    destruct y as [[]|[]| |[] m e]; cbn in *; try done; lia.
  - rewrite Hinf. split; [apply kle_refl|]. done.
Qed.

Lemma leb_fkle a b :
  (a <=? b)%float = true <->
  Prim2SF a <> S754_nan /\ Prim2SF b <> S754_nan /\ fkle a b.
Proof. apply leb_key. Qed.

Lemma fnonneg_leb a b : fnonneg a -> fnonneg b -> fkle a b -> (a <=? b)%float = true.
Proof.
  intros Ha Hb Hle. apply leb_fkle. repeat split; try done; by apply sf_nonneg_not_nan.
Qed.

Lemma py_max0_spec v : Prim2SF (py_max0 v) = SFmax0 (Prim2SF v).
Proof.
  unfold py_max0, SFmax0. rewrite FloatAxioms.ltb_spec.
  change (Prim2SF 0) with (S754_zero false).
  by destruct (SFltb (S754_zero false) (Prim2SF v)).
Qed.

Lemma py_max0_nonneg v : fnonneg (py_max0 v).
Proof. unfold fnonneg. rewrite py_max0_spec. apply SFmax0_nonneg. Qed.

Lemma mul_const_mono (a b c : float) mc ec :
  Prim2SF c = S754_finite false mc ec -> 2 ^ 52 <= Z.pos mc ->
  fnonneg a -> fnonneg b -> fkle a b ->
  fkle (a * c) (b * c) /\ fnonneg (a * c) /\ fnonneg (b * c).
Proof.
  intros Hc Hn Ha Hb Hle. unfold fkle, fnonneg. rewrite !mul_spec, Hc.
  apply SFmul_const_mono; try done; apply Prim2SF_valid.
Qed.

Lemma div_const_mono (a b c : float) mc ec :
  Prim2SF c = S754_finite false mc ec ->
  fnonneg a -> fnonneg b -> fkle a b ->
  fkle (a / c) (b / c) /\ fnonneg (a / c) /\ fnonneg (b / c).
Proof.
  intros Hc Ha Hb Hle. unfold fkle, fnonneg. rewrite !div_spec, Hc.
  apply SFdiv_const_mono; try done; apply Prim2SF_valid.
Qed.

Lemma add_const_mono (a b c : float) mc ec :
  Prim2SF c = S754_finite false mc ec ->
  fnonneg a -> fnonneg b -> fkle a b ->
  fkle (c + a) (c + b) /\ fnonneg (c + a) /\ fnonneg (c + b).
Proof.
  intros Hc Ha Hb Hle. unfold fkle, fnonneg. rewrite !add_spec, Hc.
  apply SFadd_const_mono; try done; try apply Prim2SF_valid.
  rewrite <- Hc. apply Prim2SF_valid.
Qed.

Lemma max0_sub_antitone (a b c : float) mc ec :
  Prim2SF c = S754_finite false mc ec ->
  fnonneg a -> fnonneg b -> fkle a b ->
  fkle (py_max0 (c - b)) (py_max0 (c - a)).
Proof.
  intros Hc Ha Hb Hle. unfold fkle. rewrite !py_max0_spec, !sub_spec.
  apply SFmax0_sub_antitone; try done; try apply Prim2SF_valid. by rewrite Hc.
Qed.

Lemma sub_from_antitone (x y c : float) mc ec :
  Prim2SF c = S754_finite false mc ec ->
  (x <=? y)%float = true -> (y <? c)%float = true ->
  fkle (c - y) (c - x) /\ fnonneg (c - y) /\ fnonneg (c - x).
Proof.
  intros Hc Hle Hlt. apply leb_fkle in Hle as (_ & _ & Hle).
  apply ltb_key in Hlt as (_ & _ & Hlt).
  unfold fkle, fnonneg. rewrite !sub_spec.
  apply SFsub_from_antitone; try done; try apply Prim2SF_valid. by rewrite Hc.
Qed.

Lemma sub_const_mono (x y c : float) mc ec :
  Prim2SF c = S754_finite false mc ec ->
  (c <? x)%float = true -> (x <=? y)%float = true ->
  fkle (x - c) (y - c) /\ fnonneg (x - c) /\ fnonneg (y - c).
Proof.
  intros Hc Hlt Hle. apply leb_fkle in Hle as (_ & Hny & Hle).
  apply ltb_key in Hlt as (_ & _ & Hlt).
  unfold fkle, fnonneg. rewrite !sub_spec.
  apply SFsub_const_mono; try done; try apply Prim2SF_valid. by rewrite Hc.
Qed.

(** The factor built from a non-negative increase is monotone in it and
    at least 1. *)
Lemma factor_mono (a b : float) :
  fnonneg a -> fnonneg b -> fkle a b ->
  (1.0 + a / 100.0 <=? 1.0 + b / 100.0)%float = true.
Proof.
  intros Ha Hb Hle.
  destruct (div_const_mono a b 100.0 _ _ eq_refl Ha Hb Hle) as (Hd & Hda & Hdb).
  destruct (add_const_mono _ _ 1.0 _ _ eq_refl Hda Hdb Hd) as (Hs & Hsa & Hsb).
  by apply fnonneg_leb.
Qed.

Lemma factor_ge_one (a : float) : fnonneg a -> (1.0 <=? 1.0 + a / 100.0)%float = true.
Proof.
  intros Ha. change 1.0%float with (1.0 + 0 / 100.0)%float at 1.
  apply factor_mono; try done. apply kle_zero. exact Ha.
Qed.

Lemma leb_ltb_trans x y z :
  (x <=? y)%float = true -> (y <? z)%float = true -> (x <? z)%float = true.
Proof.
  intros Hle Hlt. apply leb_fkle in Hle as (Hx & _ & Hle).
  apply ltb_key in Hlt as (_ & Hz & Hlt). apply ltb_key. repeat split; try done.
  by apply (kle_key_lt _ (Prim2SF y)).
Qed.

Lemma ltb_leb_trans x y z :
  (x <? y)%float = true -> (y <=? z)%float = true -> (x <? z)%float = true.
Proof.
  intros Hlt Hle. apply leb_fkle in Hle as (_ & Hz & Hle).
  apply ltb_key in Hlt as (Hx & _ & Hlt). apply ltb_key. repeat split; try done.
  by apply (key_lt_kle _ (Prim2SF y)).
Qed.

(** ** The health heuristic *)

Lemma predict_health_increase_below x :
  (x <? 7.0)%float = true ->
  predict_health_increase x = (1.0 + py_max0 (10.0 - (7.0 - x) * 5) / 100.0)%float.
Proof.
  intros H. unfold predict_health_increase. cbn zeta.
  by rewrite (ltb_leb_false _ _ H), H.
Qed.

Lemma predict_health_increase_above x :
  (8.5 <? x)%float = true ->
  predict_health_increase x = (1.0 + py_max0 (10.0 - (x - 8.5) * 2) / 100.0)%float.
Proof.
  intros H. unfold predict_health_increase. cbn zeta.
  by rewrite (ltb_leb_false _ _ H), andb_false_r, (above_band_not_below _ H).
Qed.

(** C4: inside the band [7.0, 8.5] the heuristic returns the double
    nearest 1.10. Below 7.0, with [p = 10 - 5 * (7.0 - s)] in binary64
    arithmetic, it returns [1.0 + p / 100] when [p] is positive and exactly
    1.0 when it is not, which is [1.0 + max(0, p) / 100]; above 8.5 the same
    holds with [p = 10 - 2 * (s - 8.5)]. Six hours give 1.05, nine and a
    half give 1.08, four hours and twenty hours give 1.0. *)
Theorem predict_health_increase_spec (avg_sleep_hours : float) :
  ((7.0 <=? avg_sleep_hours)%float = true -> (avg_sleep_hours <=? 8.5)%float = true ->
     predict_health_increase avg_sleep_hours = 0x1.199999999999ap+0%float)
  /\ ((avg_sleep_hours <? 7.0)%float = true ->
     let p := (10 - 5 * (7.0 - avg_sleep_hours))%float in
     predict_health_increase avg_sleep_hours
     = if (0 <? p)%float then (1.0 + p / 100)%float else 1.0%float)
  /\ ((8.5 <? avg_sleep_hours)%float = true ->
     let p := (10 - 2 * (avg_sleep_hours - 8.5))%float in
     predict_health_increase avg_sleep_hours
     = if (0 <? p)%float then (1.0 + p / 100)%float else 1.0%float)
  /\ predict_health_increase 6.0 = 1.05%float
  /\ predict_health_increase 9.5 = 1.08%float
  /\ predict_health_increase 4.0 = 1.0%float
  /\ predict_health_increase 20.0 = 1.0%float.
Proof.
  split; [|split; [|split]].
  - intros H1 H2. unfold predict_health_increase. cbn zeta. rewrite H1, H2. reflexivity.
  - intros H p. rewrite (predict_health_increase_below _ H), <- (float_mul_comm 5).
    unfold py_max0. fold p. by destruct (0 <? p)%float.
  - intros H p. rewrite (predict_health_increase_above _ H), <- (float_mul_comm 2).
    unfold py_max0. fold p. by destruct (0 <? p)%float.
  - repeat split; reflexivity.
Qed.

Lemma predict_health_increase_spec_witness :
  predict_health_increase 7.5 = 0x1.199999999999ap+0%float
  /\ predict_health_increase 6.5 = (1.0 + (10 - 5 * (7.0 - 6.5)) / 100)%float
  /\ predict_health_increase 3.0 = 1.0%float
  /\ predict_health_increase 10.0 = (1.0 + (10 - 2 * (10.0 - 8.5)) / 100)%float
  /\ predict_health_increase 14.0 = 1.0%float.
Proof.
  split; [|split; [|split; [|split]]].
  - apply (proj1 (predict_health_increase_spec 7.5)); reflexivity.
  - apply (proj1 (proj2 (predict_health_increase_spec 6.5))); reflexivity.
  - apply (proj1 (proj2 (predict_health_increase_spec 3.0))); reflexivity.
  - apply (proj1 (proj2 (proj2 (predict_health_increase_spec 10.0)))); reflexivity.
  - apply (proj1 (proj2 (proj2 (predict_health_increase_spec 14.0)))); reflexivity.
Defined.

(** C5: the heuristic is non-decreasing below 7.0, non-increasing above
    8.5, and at least 1.0 on every float, NaN and the infinities
    included. *)
Theorem predict_health_increase_monotone :
  (forall x y, (x <=? y)%float = true -> (y <? 7.0)%float = true ->
     (predict_health_increase x <=? predict_health_increase y)%float = true)
  /\ (forall x y, (8.5 <? x)%float = true -> (x <=? y)%float = true ->
     (predict_health_increase y <=? predict_health_increase x)%float = true)
  /\ (forall x, (1.0 <=? predict_health_increase x)%float = true).
Proof.
  split; [|split].
  - intros x y Hle Hlt.
    rewrite (predict_health_increase_below x (leb_ltb_trans _ _ _ Hle Hlt)),
      (predict_health_increase_below y Hlt).
    destruct (sub_from_antitone x y 7.0 _ _ eq_refl Hle Hlt) as (Hd & Hdy & Hdx).
    destruct (mul_const_mono _ _ 5 _ _ eq_refl ltac:(done) Hdy Hdx Hd) as (Hp & Hpy & Hpx).
    pose proof (max0_sub_antitone _ _ 10.0 _ _ eq_refl Hpy Hpx Hp) as Hi.
    apply factor_mono; try done; apply py_max0_nonneg.
  - intros x y Hlt Hle.
    rewrite (predict_health_increase_above x Hlt),
      (predict_health_increase_above y (ltb_leb_trans _ _ _ Hlt Hle)).
    destruct (sub_const_mono x y 8.5 _ _ eq_refl Hlt Hle) as (Hd & Hdx & Hdy).
    destruct (mul_const_mono _ _ 2 _ _ eq_refl ltac:(done) Hdx Hdy Hd) as (Hp & Hpx & Hpy).
    pose proof (max0_sub_antitone _ _ 10.0 _ _ eq_refl Hpx Hpy Hp) as Hi.
    apply factor_mono; try done; apply py_max0_nonneg.
  - intros x. unfold predict_health_increase. cbn zeta.
    destruct ((7.0 <=? x)%float && (x <=? 8.5)%float).
    + apply factor_ge_one. exact I.
    + destruct (x <? 7.0)%float; apply factor_ge_one, py_max0_nonneg.
Qed.

Lemma predict_health_increase_monotone_witness :
  (predict_health_increase 5.0 <=? predict_health_increase 6.5)%float = true
  /\ (predict_health_increase 12.0 <=? predict_health_increase 9.0)%float = true
  /\ (1.0 <=? predict_health_increase 3.0)%float = true.
Proof.
  split; [|split].
  - apply (proj1 predict_health_increase_monotone 5.0 6.5)%float; reflexivity.
  - apply (proj1 (proj2 predict_health_increase_monotone) 9.0 12.0)%float; reflexivity.
  - apply (proj2 (proj2 predict_health_increase_monotone) 3.0%float).
Defined.

(** ** Top-k selection *)

Lemma np_lt_asym a b : np_lt a b = true -> np_lt b a = false.
Proof.
  intros Hab. apply not_true_iff_false. intros Hba. apply np_lt_key in Hab, Hba.
  exact (key_lt_irrefl _ (key_lt_trans _ _ _ Hab Hba)).
Qed.

Lemma StronglySorted_snoc {A} (R : A -> A -> Prop) l x :
  StronglySorted R l -> Forall (fun y => R y x) l -> StronglySorted R (l ++ [x]).
Proof.
  induction l as [|y l IH]; intros Hs Hall; cbn.
  { repeat constructor. }
  apply StronglySorted_inv in Hs as [Hs Hy]. apply Forall_cons in Hall as [Hyx Hall].
  constructor; [by apply IH|]. apply Forall_app. split; [done|]. by constructor.
Qed.

Lemma StronglySorted_rev {A} (R : A -> A -> Prop) l :
  StronglySorted R l -> StronglySorted (fun x y => R y x) (rev l).
Proof.
  induction 1 as [|x l Hs IH Hx]; cbn; [constructor|].
  apply StronglySorted_snoc; [done|]. by apply List.Forall_rev.
Qed.

Section ArgSortProofs.
Variable v : list float.

Lemma insert_back_perm vi acc : insert_back v vi acc ≡ₚ vi :: acc.
Proof.
  induction acc as [|k rest IH]; cbn; [done|].
  destruct (np_lt (key_at v vi) (key_at v k)); [|done].
  rewrite IH. apply Permutation_swap.
Qed.

Lemma insert_back_sorted vi acc :
  StronglySorted (listed_before v) acc ->
  StronglySorted (listed_before v) (insert_back v vi acc).
Proof.
  induction acc as [|k rest IH]; intros Hs; cbn.
  { repeat constructor. }
  apply StronglySorted_inv in Hs as [Hs Hk].
  destruct (np_lt (key_at v vi) (key_at v k)) eqn:Hcmp.
  - constructor; [by apply IH|].
    rewrite insert_back_perm. constructor; [|done].
    by apply np_lt_asym.
  - constructor; [by constructor|]. constructor; [done|].
    rewrite Forall_forall in Hk |- *. intros k' Hin.
    apply (np_lt_neg_trans _ (key_at v k)); [done|]. by apply Hk.
Qed.

Lemma insertion_fold_sorted order :
  let acc := fold_left (fun acc vi => insert_back v vi acc) order [] in
  StronglySorted (listed_before v) acc /\ acc ≡ₚ order.
Proof.
  induction order as [|vi order [Hs Hp]] using rev_ind; cbn zeta.
  { cbn. split; constructor. }
  rewrite fold_left_app. cbn. split.
  - by apply insert_back_sorted.
  - rewrite insert_back_perm, Hp. apply Permutation_cons_append.
Qed.

(** Insertion sort returns its positions sorted, whatever the order it
    takes them in. *)
Lemma insertion_argsort_sorted order :
  insertion_argsort v order ≡ₚ order
  /\ StronglySorted (ascending v) (insertion_argsort v order).
Proof.
  unfold insertion_argsort. destruct (insertion_fold_sorted order) as [Hs Hp]. split.
  - by rewrite <- Permutation_rev.
  - apply StronglySorted_rev in Hs. exact Hs.
Qed.
End ArgSortProofs.

Lemma scalar_numpy_sorts : @argsort_sorts scalar_numpy.
Proof.
  intros v. destruct (insertion_argsort_sorted v (seq 0 (length v))) as [Hp Hs]. by split.
Qed.

Lemma reversed_numpy_sorts : @argsort_sorts reversed_numpy.
Proof.
  intros v. destruct (insertion_argsort_sorted v (rev (seq 0 (length v)))) as [Hp Hs].
  split; [|done]. cbn. rewrite Hp. symmetry. apply Permutation_rev.
Qed.

Example insertion_sort_is_stable :
  @argsort scalar_numpy [0.5; 0.25; 0.5; 0.25]%float = [1; 3; 0; 2]%nat.
Proof. reflexivity. Qed.

(** Two sorts that meet numpy's guarantee select different classes from a
    row with ties. *)
Example tie_order_follows_the_sort :
  @top_indices scalar_numpy [0.4; 0.4; 0.1; 0.1]%float = [1; 0; 3]%nat
  /\ @top_indices reversed_numpy [0.4; 0.4; 0.1; 0.1]%float = [0; 1; 2]%nat.
Proof. split; reflexivity. Qed.

(** The selection is a prefix of a listing of every class, sorted by
    probability descending. *)
Lemma top_indices_sorted_prefix {np : NumPy} probas :
  argsort_sorts ->
  exists listing,
    top_indices probas = take 3 listing
    /\ StronglySorted (listed_before probas) listing
    /\ listing ≡ₚ seq 0 (length probas).
Proof.
  intros Hsort. destruct (Hsort probas) as [Hp Hs].
  exists (rev (argsort probas)). split; [done|]. split.
  - apply StronglySorted_rev in Hs. exact Hs.
  - by rewrite <- Permutation_rev.
Qed.

Lemma take_labels_in_range classes idx :
  Forall (fun i => (i < length classes)%nat) idx ->
  take_labels classes idx = Ok (omap (fun i => classes !! i) idx)
  /\ length (omap (fun i => classes !! i) idx) = length idx.
Proof.
  induction idx as [|i rest IH]; intros Hall; cbn; [done|].
  apply Forall_cons in Hall as [Hi Hall]. destruct (IH Hall) as [E L].
  destruct (lookup_lt_is_Some_2 classes i Hi) as [c Hc]. rewrite Hc, E. cbn.
  by rewrite L.
Qed.

(** The listings of the row 0.1, 0.4, 0.4, 0.1 that are sorted by
    probability descending start with classes 1 and 2 in either order and
    go on with class 0 or class 3. *)
Lemma tied_row_listings listing :
  listing ≡ₚ seq 0 4 ->
  StronglySorted (listed_before [0.1; 0.4; 0.4; 0.1]%float) listing ->
  exists i1 i2 i3 i4,
    listing = [i1; i2; i3; i4] /\ [i1; i2] ≡ₚ [1; 2]%nat /\ (i3 = 0 \/ i3 = 3)%nat.
Proof.
  intros Hp Hs. symmetry in Hp. apply permutations_Permutation in Hp.
  cbn in Hp. rewrite !elem_of_cons, elem_of_nil in Hp.
  repeat (destruct Hp as [->|Hp]); try done;
    repeat match goal with
           | H : StronglySorted _ (_ :: _) |- _ => apply StronglySorted_inv in H as [? ?]
           | H : List.Forall _ (_ :: _) |- _ => apply Forall_cons in H as [? ?]
           end;
    unfold listed_before in *;
    try match goal with
        | H : np_lt _ _ = false |- _ => by vm_compute in H
        end;
    eexists _, _, _, _; (split; [reflexivity|]);
    (split; [reflexivity || apply Permutation_swap | (by left) || (by right)]).
Qed.

(** C3 (as amended): whatever sort numpy uses, the selected indices are a
    prefix of length [min 3 n] of a listing of all [n] class indices by
    probability descending, and the labels are read at these indices; with
    at most three classes every index is selected. The order of classes
    that tie is not fixed: labels A, B, C, D with probabilities 0.1, 0.4,
    0.4, 0.1 give B and C in either order, followed by A or D. *)
Theorem top_indices_spec {np : NumPy} probas classes :
  argsort_sorts -> length classes = length probas ->
  (exists rest,
      top_indices probas ++ rest ≡ₚ seq 0 (length probas)
      /\ StronglySorted (listed_before probas) (top_indices probas ++ rest)
      /\ length (top_indices probas) = Nat.min 3 (length probas))
  /\ (exists labels,
        take_labels classes (top_indices probas) = Ok labels
        /\ length labels = Nat.min 3 (length classes))
  /\ ((length probas <= 3)%nat -> top_indices probas ≡ₚ seq 0 (length probas))
  /\ (exists l1 l2 l3,
        take_labels ["A"; "B"; "C"; "D"] (top_indices [0.1; 0.4; 0.4; 0.1]%float)
        = Ok [l1; l2; l3]
        /\ [l1; l2] ≡ₚ ["B"; "C"] /\ (l3 = "A" \/ l3 = "D")).
Proof.
  intros Hsort Hlen.
  destruct (top_indices_sorted_prefix probas Hsort) as (acc & Htop & Hs & Hp).
  assert (length acc = length probas) as Hacc.
  { rewrite Hp. apply length_seq. }
  assert (length (take 3 acc) = Nat.min 3 (length probas)) as Htake.
  { rewrite length_take. lia. }
  split; [|split; [|split]].
  - rewrite Htop. exists (drop 3 acc). rewrite take_drop. done.
  - rewrite Htop. destruct (take_labels_in_range classes (take 3 acc)) as [E L].
    { apply Forall_take. rewrite Hlen, <- Hacc.
      apply Forall_forall. intros i Hi. rewrite Hp in Hi.
      apply elem_of_seq in Hi. rewrite Hacc. lia. }
    eexists. split; [exact E|]. rewrite L, Htake, Hlen. done.
  - intros Hsmall. rewrite Htop, take_ge by lia. done.
  - destruct (top_indices_sorted_prefix [0.1; 0.4; 0.4; 0.1]%float Hsort)
      as (l & -> & Hsl & Hpl).
    destruct (tied_row_listings l Hpl Hsl) as (i1 & i2 & i3 & i4 & -> & H12 & H3).
    assert ((i1 = 1 /\ i2 = 2) \/ (i1 = 2 /\ i2 = 1))%nat as Hfirst.
    { apply Permutation_length_2 in H12. destruct H12 as [[-> ->]|[-> ->]]; auto. }
    destruct Hfirst as [[-> ->]|[-> ->]]; destruct H3 as [-> | ->]; cbn;
      eexists _, _, _; (split; [reflexivity|]);
      (split; [reflexivity || apply Permutation_swap | (by left) || (by right)]).
Qed.

Lemma top_indices_spec_witness :
  (exists rest,
      top_indices [0.125; 0.5; 0.25; 0.125]%float ++ rest ≡ₚ seq 0 4
      /\ StronglySorted (listed_before [0.125; 0.5; 0.25; 0.125]%float)
           (top_indices [0.125; 0.5; 0.25; 0.125]%float ++ rest)
      /\ length (top_indices [0.125; 0.5; 0.25; 0.125]%float) = Nat.min 3 4)
  /\ (exists labels,
        take_labels ["A"; "B"; "C"; "D"] (top_indices [0.125; 0.5; 0.25; 0.125]%float)
        = Ok labels
        /\ length labels = Nat.min 3 4)
  /\ ((4 <= 3)%nat -> top_indices [0.125; 0.5; 0.25; 0.125]%float ≡ₚ seq 0 4)
  /\ (exists l1 l2 l3,
        take_labels ["A"; "B"; "C"; "D"] (top_indices [0.1; 0.4; 0.4; 0.1]%float)
        = Ok [l1; l2; l3]
        /\ [l1; l2] ≡ₚ ["B"; "C"] /\ (l3 = "A" \/ l3 = "D")).
Proof.
  apply (@top_indices_spec scalar_numpy [0.125; 0.5; 0.25; 0.125]%float
           ["A"; "B"; "C"; "D"]).
  - exact scalar_numpy_sorts.
  - reflexivity.
Defined.

(** A sort that meets numpy's guarantee, insertion from left to right,
    answers C, B, D on the row of the example, not B, C, A. *)
Lemma top_three_of_tied_example :
  @argsort_sorts scalar_numpy
  /\ take_labels ["A"; "B"; "C"; "D"] (@top_indices scalar_numpy [0.1; 0.4; 0.4; 0.1]%float)
     = Ok ["C"; "B"; "D"]
  /\ take_labels ["A"; "B"; "C"; "D"] (@top_indices scalar_numpy [0.1; 0.4; 0.4; 0.1]%float)
     <> Ok ["B"; "C"; "A"].
Proof.
  split; [exact scalar_numpy_sorts|]. split; [reflexivity|]. vm_compute. discriminate.
Qed.

(** ** The engine *)

(** ** Column selection *)

Lemma df_select_missing (df : gmap string pyval) cols c :
  c ∈ cols -> df !! c = None -> exists msg, df_select df cols = Raise (KeyError msg).
Proof.
  intros Hin Hnone. unfold df_select.
  destruct (filter (fun c => df !! c = None) cols) as [|c0 l] eqn:E.
  - assert (c ∈ filter (fun c => df !! c = None) cols) as Hc
      by (apply list_elem_of_filter; auto).
    rewrite E in Hc. inversion Hc.
  - eauto.
Qed.

Lemma df_select_present (df : gmap string pyval) cols :
  Forall (fun c => is_Some (df !! c)) cols ->
  df_select df cols = Ok (omap (fun c => pair c <$> df !! c) cols).
Proof.
  intros Hall. unfold df_select.
  destruct (filter (fun c => df !! c = None) cols) as [|c0 l] eqn:E; [done|].
  assert (c0 ∈ filter (fun c => df !! c = None) cols) as Hc by (rewrite E; left).
  apply list_elem_of_filter in Hc as [Hnone Hin].
  rewrite Forall_forall in Hall. apply Hall in Hin. rewrite Hnone in Hin.
  destruct Hin; discriminate.
Qed.

(** ** The two predictions *)

Ltac run_step :=
  unfold salary_prediction, job_classification, try_except, joblib_load, call_predict,
    call_predict_proba, print, emit, lift, mbind, M_bind, mret, M_ret, Ok, Raise, emitted; cbn.

Ltac close_run := cbn; rewrite <- ?app_assoc; reflexivity.

Lemma emitted_emitted w evs evs' : emitted (emitted w evs) evs' = emitted w (evs ++ evs').
Proof. unfold emitted; cbn. by rewrite <- app_assoc. Qed.

Lemma emitted_nil w : emitted w [] = w.
Proof. destruct w; unfold emitted; cbn. by rewrite app_nil_r. Qed.

Lemma salary_prediction_returns df w X v :
  df_select df feature_columns = Ok X -> salary_returns (files w) X v ->
  salary_prediction df w = (Ok v, emitted w [EvLoad SALARY_MODEL_FILE; EvPredict X]).
Proof.
  intros HX (p & rest & Hp & Hv).
  run_step. rewrite Hp, HX. cbn. rewrite Hv. cbn. close_run.
Qed.

Lemma salary_prediction_raises df w X :
  df_select df feature_columns = Ok X -> salary_raises (files w) X ->
  exists evs, salary_prediction df w = (Ok (PFloat (-1.0)), emitted w evs).
Proof.
  intros HX Hr. unfold salary_raises in Hr.
  run_step. destruct (files w !! SALARY_MODEL_FILE) as [p|] eqn:Hp.
  - rewrite HX. cbn. destruct (predict p X) as [e|a] eqn:Hv; cbn.
    + eexists; close_run.
    + subst a. cbn. eexists; close_run.
  - eexists; close_run.
Qed.

Lemma salary_prediction_missing df w e :
  df_select df feature_columns = Raise e ->
  exists line, salary_prediction df w
    = (Ok (PFloat (-1.0)), emitted w [EvLoad SALARY_MODEL_FILE; EvPrint line]).
Proof.
  intros HX. run_step. rewrite HX.
  destruct (files w !! SALARY_MODEL_FILE) as [p|]; cbn; eexists; close_run.
Qed.

Lemma job_classification_returns {np : NumPy} df w X labels :
  df_select df feature_columns = Ok X -> jobs_return (files w) X labels ->
  job_classification df w = (Ok labels, emitted w [EvLoad JOB_MODEL_FILE; EvPredictProba X]).
Proof.
  intros HX (p & probas & rows & classes & Hp & Hv & Hc & Hl).
  run_step. rewrite Hp, HX. cbn. rewrite Hv. cbn. rewrite Hc, Hl. cbn.
  close_run.
Qed.

Lemma job_classification_raises {np : NumPy} df w X :
  df_select df feature_columns = Ok X -> jobs_raise (files w) X ->
  exists evs, job_classification df w = (Ok ["N/A"], emitted w evs).
Proof.
  intros HX Hr. unfold jobs_raise, jobs_return in Hr.
  run_step. destruct (files w !! JOB_MODEL_FILE) as [p|] eqn:Hp.
  - rewrite HX. cbn. destruct (predict_proba p X) as [e|[|probas rows]] eqn:Hv; cbn;
      try (eexists; close_run).
    destruct (classifier_classes p) as [e|classes] eqn:Hc; cbn;
      try (eexists; close_run).
    destruct (take_labels classes (top_indices probas)) as [e|labels] eqn:Hl; cbn;
      try (eexists; close_run).
    exfalso. apply (Hr labels). eauto 10.
  - eexists; close_run.
Qed.

Lemma job_classification_missing {np : NumPy} df w e :
  df_select df feature_columns = Raise e ->
  exists line, job_classification df w
    = (Ok ["N/A"], emitted w [EvLoad JOB_MODEL_FILE; EvPrint line]).
Proof.
  intros HX. run_step. rewrite HX.
  destruct (files w !! JOB_MODEL_FILE) as [p|]; cbn; eexists; close_run.
Qed.

(** ** Framing *)

Lemma framed_lift {A} (r : result A) : framed (lift r).
Proof. intros fs. exists r, []. intros tr. unfold lift. by rewrite app_nil_r. Qed.

Lemma framed_ret {A} (a : A) : framed (mret a).
Proof. apply (framed_lift (Ok a)). Qed.

Lemma framed_emit ev : framed (emit ev).
Proof. intros fs. exists (Ok tt), [ev]. reflexivity. Qed.

Lemma framed_bind {A B} (c : M A) (f : A -> M B) :
  framed c -> (forall a, framed (f a)) -> framed (c ≫= f).
Proof.
  intros Hc Hf fs. destruct (Hc fs) as (r & evs & Hrun).
  destruct r as [e|a].
  - exists (Raise e), evs. intros tr. unfold mbind, M_bind. by rewrite Hrun.
  - destruct (Hf a fs) as (r' & evs' & Hrun').
    exists r', (evs ++ evs')%list. intros tr. unfold mbind, M_bind.
    rewrite Hrun, Hrun'. by rewrite <- app_assoc.
Qed.

Lemma framed_try_except {A} (body : M A) (handler : exn -> M A) :
  framed body -> (forall e, framed (handler e)) -> framed (try_except body handler).
Proof.
  intros Hc Hf fs. destruct (Hc fs) as (r & evs & Hrun).
  destruct r as [e|a].
  - destruct (Hf e fs) as (r' & evs' & Hrun').
    exists r', (evs ++ evs')%list. intros tr. unfold try_except.
    rewrite Hrun, Hrun'. by rewrite <- app_assoc.
  - exists (Ok a), evs. intros tr. unfold try_except. by rewrite Hrun.
Qed.

Lemma framed_joblib_load path : framed (joblib_load path).
Proof.
  intros fs. unfold joblib_load, emit. cbn.
  destruct (fs !! path) as [p|]; eexists _, [EvLoad path]; reflexivity.
Qed.

Lemma framed_salary_prediction df : framed (salary_prediction df).
Proof.
  unfold salary_prediction, call_predict, print.
  repeat first
    [ apply framed_try_except | apply framed_bind | apply framed_joblib_load
    | apply framed_lift | apply framed_ret | apply framed_emit | intro ].
Qed.

Lemma framed_job_classification {np : NumPy} df : framed (job_classification df).
Proof.
  unfold job_classification, call_predict_proba, print.
  repeat first
    [ apply framed_try_except | apply framed_bind | apply framed_joblib_load
    | apply framed_lift | apply framed_ret | apply framed_emit | intro ].
Qed.

Lemma framed_predict_future_twin {np : NumPy} d months : framed (predict_future_twin d months).
Proof.
  unfold predict_future_twin.
  apply framed_bind; [apply framed_lift|]. intros [pa pt].
  repeat first
    [ apply framed_bind | apply framed_salary_prediction | apply framed_job_classification
    | apply framed_lift | apply framed_ret | intro ].
Qed.

(** The handlers make both predictions total. *)
Lemma salary_prediction_total df w :
  exists v evs, salary_prediction df w = (Ok v, emitted w evs).
Proof.
  run_step. destruct (files w !! SALARY_MODEL_FILE) as [p|]; cbn.
  - destruct (df_select df feature_columns) as [e|X]; cbn; [eexists _, _; close_run|].
    destruct (predict p X) as [e|[|v a]]; cbn; eexists _, _; close_run.
  - eexists _, _; close_run.
Qed.

Lemma job_classification_total {np : NumPy} df w :
  exists v evs, job_classification df w = (Ok v, emitted w evs).
Proof.
  run_step. destruct (files w !! JOB_MODEL_FILE) as [p|]; cbn.
  - destruct (df_select df feature_columns) as [e|X]; cbn; [eexists _, _; close_run|].
    destruct (predict_proba p X) as [e|[|probas rows]]; cbn; try (eexists _, _; close_run).
    destruct (classifier_classes p) as [e|classes]; cbn; try (eexists _, _; close_run).
    destruct (take_labels classes (top_indices probas)) as [e|l]; cbn; eexists _, _; close_run.
  - eexists _, _; close_run.
Qed.

(** ** The profile *)

Lemma time_projection_int d months age tenure :
  d !! "age" = Some (PInt age) -> d !! "tenure_months" = Some (PInt tenure) ->
  time_projection d months = Ok (PInt (age + months / 12), PInt (tenure + months)).
Proof.
  intros Ha Ht. unfold time_projection, dict_getitem. by rewrite Ha, Ht.
Qed.

Lemma health_projection_float d sleep :
  dict_get d "avg_sleep_hours" (PFloat 7.5) = PFloat sleep ->
  health_projection d = Ok ((predict_health_increase sleep - 1.0) * 100)%float.
Proof. intros Hs. unfold health_projection. by rewrite Hs. Qed.

Lemma profile_column_not_projected c :
  c ∈ profile_columns -> c <> "age" /\ c <> "tenure_months".
Proof.
  unfold profile_columns. intros Hc.
  repeat (apply elem_of_cons in Hc as [->|Hc]; [split; discriminate|]).
  inversion Hc.
Qed.

Lemma feature_columns_split c :
  c ∈ feature_columns <-> c ∈ profile_columns \/ c = "age" \/ c = "tenure_months".
Proof.
  unfold feature_columns, profile_columns. rewrite !elem_of_cons, !elem_of_nil. tauto.
Qed.

Lemma build_twin_df_column d pa pt c :
  c ∈ profile_columns -> build_twin_df d pa pt !! c = d !! c.
Proof.
  intros Hc. apply profile_column_not_projected in Hc as [H1 H2].
  unfold build_twin_df. by rewrite !lookup_insert_ne.
Qed.

Lemma df_select_well_formed d age tenure sleep months :
  well_formed d age tenure sleep ->
  df_select (build_twin_df d (PInt (age + months / 12)) (PInt (tenure + months))) feature_columns
  = Ok (feature_frame d age tenure months).
Proof.
  intros [Ha Ht Hs Hc]. apply df_select_present.
  assert (forall c, c ∈ profile_columns ->
            is_Some (build_twin_df d (PInt (age + months / 12)) (PInt (tenure + months)) !! c)) as Hpc.
  { intros c Hin. rewrite build_twin_df_column by done.
    rewrite Forall_forall in Hc. by apply Hc. }
  apply Forall_forall. intros c Hin.
  destruct (decide (c = "age")) as [->|Hna].
  { unfold build_twin_df. rewrite lookup_insert_ne by done. rewrite lookup_insert_eq. eauto. }
  destruct (decide (c = "tenure_months")) as [->|Hnt].
  { unfold build_twin_df. rewrite lookup_insert_eq. eauto. }
  apply Hpc. apply feature_columns_split in Hin as [?|[?|?]]; done.
Qed.

Lemma df_select_missing_column d pa pt c :
  c ∈ profile_columns -> d !! c = None ->
  exists msg, df_select (build_twin_df d pa pt) feature_columns = Raise (KeyError msg).
Proof.
  intros Hc Hnone. apply (df_select_missing _ _ c).
  - apply feature_columns_split. by left.
  - by rewrite build_twin_df_column.
Qed.

(** The run of a profile whose integers are in place, up to the two
    predictions. *)
Lemma predict_future_twin_run {np : NumPy} d months age tenure sleep w sv w1 jv w2 :
  d !! "age" = Some (PInt age) -> d !! "tenure_months" = Some (PInt tenure) ->
  dict_get d "avg_sleep_hours" (PFloat 7.5) = PFloat sleep ->
  let twin_df := build_twin_df d (PInt (age + months / 12)) (PInt (tenure + months)) in
  salary_prediction twin_df w = (Ok sv, w1) ->
  job_classification twin_df w1 = (Ok jv, w2) ->
  predict_future_twin d months w
  = (Ok {| projected_age := age + months / 12;
           health_increase_percent :=
             py_round ((predict_health_increase sleep - 1.0) * 100)%float 1;
           predicted_salary := salary_field sv;
           recommended_jobs := jv;
           time_projection_months := months |}, w2).
Proof.
  intros Ha Ht Hs twin_df Hsal Hjob. unfold predict_future_twin.
  rewrite (time_projection_int _ _ _ _ Ha Ht), (health_projection_float _ _ Hs).
  unfold mbind, M_bind, lift, Ok. cbn. fold twin_df.
  unfold Ok in Hsal, Hjob. rewrite Hsal, Hjob. reflexivity.
Qed.

Lemma sample_profile_well_formed : well_formed sample_profile 30 10 7.5.
Proof.
  split; try reflexivity.
  unfold profile_columns. repeat constructor; eexists; reflexivity.
Qed.

(** ** Properties of the engine *)

(** C1 (as amended): when the profile has integer [age] and [tenure_months]
    and a float or absent [avg_sleep_hours] but lacks a categorical or
    boolean column, [predict_future_twin] raises nothing. Each artifact is
    loaded, the column selection fails inside the [try], a line is printed,
    and the result carries ["N/A"] for the salary and [["N/A"]] for the
    jobs next to the usual age, health and horizon fields. Neither [predict]
    nor [predict_proba] is called. *)
Theorem missing_column_yields_sentinels {np : NumPy} d months age tenure sleep c w :
  d !! "age" = Some (PInt age) -> d !! "tenure_months" = Some (PInt tenure) ->
  dict_get d "avg_sleep_hours" (PFloat 7.5) = PFloat sleep ->
  c ∈ profile_columns -> d !! c = None ->
  exists line1 line2,
    predict_future_twin d months w
    = (Ok {| projected_age := age + months / 12;
             health_increase_percent :=
               py_round ((predict_health_increase sleep - 1.0) * 100)%float 1;
             predicted_salary := PStr "N/A";
             recommended_jobs := ["N/A"];
             time_projection_months := months |},
       emitted w [EvLoad SALARY_MODEL_FILE; EvPrint line1;
                  EvLoad JOB_MODEL_FILE; EvPrint line2]).
Proof.
  intros Ha Ht Hs Hc Hnone.
  destruct (df_select_missing_column d (PInt (age + months / 12)) (PInt (tenure + months)) c Hc Hnone)
    as [msg Hsel].
  destruct (salary_prediction_missing _ w _ Hsel) as [line1 Hsal].
  destruct (job_classification_missing _ (emitted w [EvLoad SALARY_MODEL_FILE; EvPrint line1]) _ Hsel)
    as [line2 Hjob].
  exists line1, line2.
  rewrite (predict_future_twin_run _ _ _ _ _ _ _ _ _ _ Ha Ht Hs Hsal Hjob).
  by rewrite emitted_emitted.
Qed.

Lemma industry_is_profile_column : "industry" ∈ profile_columns.
Proof. unfold profile_columns. do 3 apply list_elem_of_further. apply list_elem_of_here. Qed.

Lemma missing_column_yields_sentinels_witness :
  exists line1 line2,
    predict_future_twin (delete "industry" sample_profile) 24 sample_world
    = (Ok {| projected_age := 30 + 24 / 12;
             health_increase_percent :=
               py_round ((predict_health_increase 7.5 - 1.0) * 100)%float 1;
             predicted_salary := PStr "N/A";
             recommended_jobs := ["N/A"];
             time_projection_months := 24 |},
       emitted sample_world [EvLoad SALARY_MODEL_FILE; EvPrint line1;
                             EvLoad JOB_MODEL_FILE; EvPrint line2]).
Proof.
  apply (missing_column_yields_sentinels (delete "industry" sample_profile) 24 30 10 7.5
           "industry" sample_world);
    solve [ reflexivity | apply industry_is_profile_column ].
Defined.

Lemma missing_industry_returns :
  fst (predict_future_twin (delete "industry" sample_profile) 24 sample_world)
  = Ok {| projected_age := 32; health_increase_percent := 10;
          predicted_salary := PStr "N/A"; recommended_jobs := ["N/A"];
          time_projection_months := 24 |}
  /\ forall e, fst (predict_future_twin (delete "industry" sample_profile) 24 sample_world)
               <> Raise e.
Proof.
  assert (fst (predict_future_twin (delete "industry" sample_profile) 24 sample_world)
  = Ok {| projected_age := 32; health_increase_percent := 10;
          predicted_salary := PStr "N/A"; recommended_jobs := ["N/A"];
          time_projection_months := 24 |}) as E by (vm_compute; reflexivity).
  split; [exact E|]. intros e. rewrite E. discriminate.
Qed.

Lemma well_formed_run {np : NumPy} d months age tenure sleep w :
  well_formed d age tenure sleep ->
  exists sv jv evs,
    predict_future_twin d months w
    = (Ok {| projected_age := age + months / 12;
             health_increase_percent :=
               py_round ((predict_health_increase sleep - 1.0) * 100)%float 1;
             predicted_salary := salary_field sv;
             recommended_jobs := jv;
             time_projection_months := months |}, emitted w evs)
    /\ (forall v, salary_returns (files w) (feature_frame d age tenure months) v -> sv = v)
    /\ (salary_raises (files w) (feature_frame d age tenure months) -> sv = PFloat (-1.0))
    /\ (forall labels, jobs_return (files w) (feature_frame d age tenure months) labels
                       -> jv = labels)
    /\ (jobs_raise (files w) (feature_frame d age tenure months) -> jv = ["N/A"]).
Proof.
  intros Hwf. pose proof Hwf as [Ha Ht Hs Hc].
  pose proof (df_select_well_formed d age tenure sleep months Hwf) as Hsel.
  set (twin_df := build_twin_df d (PInt (age + months / 12)) (PInt (tenure + months))) in *.
  destruct (salary_prediction_total twin_df w) as (sv & evs1 & Hsal).
  destruct (job_classification_total twin_df (emitted w evs1)) as (jv & evs2 & Hjob).
  exists sv, jv, (evs1 ++ evs2)%list.
  rewrite (predict_future_twin_run _ _ _ _ _ _ _ _ _ _ Ha Ht Hs Hsal Hjob).
  rewrite emitted_emitted. split; [reflexivity|]. repeat split.
  - intros v Hv. rewrite (salary_prediction_returns _ _ _ _ Hsel Hv) in Hsal. unfold Ok in *; congruence.
  - intros Hr. destruct (salary_prediction_raises _ w _ Hsel Hr) as [evs Hrun].
    rewrite Hrun in Hsal. unfold Ok in *; congruence.
  - intros labels Hl.
    rewrite (job_classification_returns _ (emitted w evs1) _ _ Hsel Hl) in Hjob. unfold Ok in *; congruence.
  - intros Hr. destruct (job_classification_raises _ (emitted w evs1) _ Hsel Hr) as [evs Hrun].
    rewrite Hrun in Hjob. unfold Ok in *; congruence.
Qed.

(** C2 (as amended): failure isolation. For a well-formed profile, when
    the salary artifact fails and the job artifact answers, the salary field
    is ["N/A"] and the jobs are the labels of the three most probable
    classes; when the job artifact fails and the salary artifact answers a
    float [v] other than -1.0, the jobs are [["N/A"]] and the salary field
    is [v] rounded to two decimals. A salary answer that is -1.0 or not a
    float is reported as ["N/A"] although the salary artifact did not fail.
    Age, health and horizon are populated in every case. *)
Theorem failure_isolation {np : NumPy} d months age tenure sleep w :
  well_formed d age tenure sleep ->
  let X := feature_frame d age tenure months in
  let result sv jv :=
    Ok {| projected_age := age + months / 12;
          health_increase_percent :=
            py_round ((predict_health_increase sleep - 1.0) * 100)%float 1;
          predicted_salary := sv;
          recommended_jobs := jv;
          time_projection_months := months |} in
  (forall labels, salary_raises (files w) X -> jobs_return (files w) X labels ->
     fst (predict_future_twin d months w) = result (PStr "N/A") labels)
  /\ (forall v, jobs_raise (files w) X -> salary_returns (files w) X (PFloat v) ->
       (v =? -1.0)%float = false ->
     fst (predict_future_twin d months w) = result (PFloat (py_round v 2)) ["N/A"])
  /\ (forall v, jobs_raise (files w) X -> salary_returns (files w) X v ->
       (forall x, v = PFloat x -> (x =? -1.0)%float = true) ->
     fst (predict_future_twin d months w) = result (PStr "N/A") ["N/A"]).
Proof.
  intros Hwf X result.
  destruct (well_formed_run d months age tenure sleep w Hwf)
    as (sv & jv & evs & Hrun & Hsv & Hsr & Hjv & Hjr).
  fold X in Hsv, Hsr, Hjv, Hjr. rewrite Hrun. cbn. subst result. cbn.
  repeat split.
  - intros labels Hs Hj. by rewrite (Hsr Hs), (Hjv _ Hj).
  - intros v Hj Hs Hv. rewrite (Hsv _ Hs), (Hjr Hj). cbn. by rewrite Hv.
  - intros v Hj Hs Hv. rewrite (Hsv _ Hs), (Hjr Hj).
    destruct v as [| | |x|]; try reflexivity. cbn. by rewrite (Hv x eq_refl).
Qed.

Lemma failure_isolation_witness :
  fst (predict_future_twin sample_profile 24
         (world_of broken_pipeline sample_classifier))
  = Ok {| projected_age := 30 + 24 / 12;
          health_increase_percent :=
            py_round ((predict_health_increase 7.5 - 1.0) * 100)%float 1;
          predicted_salary := PStr "N/A";
          recommended_jobs := ["B"; "C"; "D"];
          time_projection_months := 24 |}
  /\ fst (predict_future_twin sample_profile 24
            (world_of (constant_regressor (PFloat 85000.125)) broken_pipeline))
     = Ok {| projected_age := 30 + 24 / 12;
             health_increase_percent :=
               py_round ((predict_health_increase 7.5 - 1.0) * 100)%float 1;
             predicted_salary := PFloat (py_round 85000.125 2);
             recommended_jobs := ["N/A"];
             time_projection_months := 24 |}.
Proof.
  split.
  - apply (proj1 (failure_isolation sample_profile 24 30 10 7.5
                    (world_of broken_pipeline sample_classifier)
                    sample_profile_well_formed)).
    + exact I.
    + exists sample_classifier, [0.0625; 0.5; 0.25; 0.1875]%float, [], ["A"; "B"; "C"; "D"].
      repeat split; reflexivity.
  - apply (proj1 (proj2 (failure_isolation sample_profile 24 30 10 7.5
                           (world_of (constant_regressor (PFloat 85000.125)) broken_pipeline)
                           sample_profile_well_formed))).
    + intros labels (p & probas & rows & classes & Hp & Hv & _).
      assert (files (world_of (constant_regressor (PFloat 85000.125)) broken_pipeline)
                !! JOB_MODEL_FILE = Some broken_pipeline) as Hq by reflexivity.
      rewrite Hq in Hp. injection Hp as <-. discriminate Hv.
    + exists (constant_regressor (PFloat 85000.125)), []. split; reflexivity.
    + reflexivity.
Defined.

(** The salary artifact answers -1.0 and only the job artifact fails: the
    result carries both fallbacks, so the answer of the artifact that did
    not fail is not in it. *)
Lemma lone_job_failure_hides_minus_one :
  let w := world_of (constant_regressor (PFloat (-1.0))) broken_pipeline in
  let X := feature_frame sample_profile 30 10 24 in
  salary_returns (files w) X (PFloat (-1.0))
  /\ ~ salary_raises (files w) X
  /\ jobs_raise (files w) X
  /\ fst (predict_future_twin sample_profile 24 w)
     = Ok {| projected_age := 32;
             health_increase_percent := 10.0;
             predicted_salary := PStr "N/A";
             recommended_jobs := ["N/A"];
             time_projection_months := 24 |}.
Proof.
  cbn zeta. split; [|split; [|split]].
  - exists (constant_regressor (PFloat (-1.0))), []. split; reflexivity.
  - unfold salary_raises.
    assert (files (world_of (constant_regressor (PFloat (-1.0))) broken_pipeline)
              !! SALARY_MODEL_FILE = Some (constant_regressor (PFloat (-1.0)))) as ->
      by reflexivity.
    cbn. discriminate.
  - intros labels (p & probas & rows & classes & Hp & Hv & _).
    assert (files (world_of (constant_regressor (PFloat (-1.0))) broken_pipeline)
              !! JOB_MODEL_FILE = Some broken_pipeline) as Hq by reflexivity.
    rewrite Hq in Hp. injection Hp as <-. discriminate Hv.
  - vm_compute. reflexivity.
Qed.

(** C6: with integer [age] and [tenure_months] the time projection is
    [age + floor(months / 12)] and [tenure_months + months]; the age 30
    with tenure 0 projected by 6 months gives (30, 6) and with tenure 10
    projected by 24 months gives (32, 34). *)
Theorem time_projection_spec d months age tenure :
  d !! "age" = Some (PInt age) -> d !! "tenure_months" = Some (PInt tenure) ->
  (exists years,
      12 * years <= months < 12 * years + 12
      /\ time_projection d months = Ok (PInt (age + years), PInt (tenure + months)))
  /\ time_projection {[ "age" := PInt 30; "tenure_months" := PInt 0 ]} 6
     = Ok (PInt 30, PInt 6)
  /\ time_projection {[ "age" := PInt 30; "tenure_months" := PInt 10 ]} 24
     = Ok (PInt 32, PInt 34).
Proof.
  intros Ha Ht. split; [|split; reflexivity].
  exists (months / 12). split.
  - pose proof (Z.mul_div_le months 12). pose proof (Z.mul_succ_div_gt months 12). lia.
  - by apply time_projection_int.
Qed.

Lemma time_projection_spec_witness :
  exists years,
    12 * years <= 60 < 12 * years + 12
    /\ time_projection sample_profile 60 = Ok (PInt (30 + years), PInt (10 + 60)).
Proof.
  apply (time_projection_spec sample_profile 60 30 10); reflexivity.
Defined.

(** C7 (as amended): for a well-formed profile the call returns a result
    whose age is [age + months / 12], whose health percentage is
    [round((factor - 1.0) * 100, 1)] with the default sleep 7.5 when the key
    is absent, whose salary is the answer rounded to two decimals when the
    salary artifact answers a float other than -1.0 and ["N/A"] when it
    fails, whose jobs are the top three labels when the job artifact answers
    and [["N/A"]] when it fails, and whose horizon is the input. *)
Theorem projection_result_fields {np : NumPy} d months age tenure sleep w :
  well_formed d age tenure sleep ->
  let X := feature_frame d age tenure months in
  exists r w',
    predict_future_twin d months w = (Ok r, w')
    /\ projected_age r = age + months / 12
    /\ health_increase_percent r
       = py_round ((predict_health_increase sleep - 1.0) * 100)%float 1
    /\ (d !! "avg_sleep_hours" = None -> sleep = 7.5%float)
    /\ (forall v, salary_returns (files w) X (PFloat v) -> (v =? -1.0)%float = false ->
          predicted_salary r = PFloat (py_round v 2))
    /\ (salary_raises (files w) X -> predicted_salary r = PStr "N/A")
    /\ (forall labels, jobs_return (files w) X labels -> recommended_jobs r = labels)
    /\ (jobs_raise (files w) X -> recommended_jobs r = ["N/A"])
    /\ time_projection_months r = months.
Proof.
  intros Hwf X.
  destruct (well_formed_run d months age tenure sleep w Hwf)
    as (sv & jv & evs & Hrun & Hsv & Hsr & Hjv & Hjr).
  fold X in Hsv, Hsr, Hjv, Hjr. eexists _, _. split; [exact Hrun|]. cbn.
  repeat split; try done.
  - intros Hnone. destruct Hwf as [_ _ Hs _]. unfold dict_get in Hs.
    rewrite Hnone in Hs. congruence.
  - intros v Hv Hne. rewrite (Hsv _ Hv). cbn. by rewrite Hne.
  - intros Hr. by rewrite (Hsr Hr).
Qed.

Lemma projection_result_fields_witness :
  exists r w',
    predict_future_twin sample_profile 24 sample_world = (Ok r, w')
    /\ projected_age r = 30 + 24 / 12
    /\ health_increase_percent r
       = py_round ((predict_health_increase 7.5 - 1.0) * 100)%float 1
    /\ (sample_profile !! "avg_sleep_hours" = None -> 7.5%float = 7.5%float)
    /\ (forall v, salary_returns (files sample_world) (feature_frame sample_profile 30 10 24)
                    (PFloat v) -> (v =? -1.0)%float = false ->
          predicted_salary r = PFloat (py_round v 2))
    /\ (salary_raises (files sample_world) (feature_frame sample_profile 30 10 24)
        -> predicted_salary r = PStr "N/A")
    /\ (forall labels, jobs_return (files sample_world) (feature_frame sample_profile 30 10 24)
                         labels -> recommended_jobs r = labels)
    /\ (jobs_raise (files sample_world) (feature_frame sample_profile 30 10 24)
        -> recommended_jobs r = ["N/A"])
    /\ time_projection_months r = 24.
Proof.
  exact (projection_result_fields sample_profile 24 30 10 7.5 sample_world
           sample_profile_well_formed).
Defined.

(** The salary artifact answers -1.0: the report says "N/A", not -1.0. *)
Lemma genuine_minus_one_is_reported_unavailable :
  let w := world_of (constant_regressor (PFloat (-1.0))) sample_classifier in
  salary_returns (files w) (feature_frame sample_profile 30 10 24) (PFloat (-1.0))
  /\ exists r, fst (predict_future_twin sample_profile 24 w) = Ok r
       /\ predicted_salary r = PStr "N/A"
       /\ predicted_salary r <> PFloat (py_round (-1.0) 2).
Proof.
  cbn zeta. split.
  - eexists _, []. split; reflexivity.
  - eexists. split; [vm_compute; reflexivity|]. cbn. split; [reflexivity|discriminate].
Qed.

(** C8: two calls in a row with the same profile and horizon return the
    same result and emit the same events; the artifact store is the same
    after each call, and the result does not depend on the trace. *)
Theorem predict_future_twin_deterministic {np : NumPy} d months w :
  let run1 := predict_future_twin d months w in
  let run2 := predict_future_twin d months (snd run1) in
  fst run2 = fst run1
  /\ files (snd run1) = files w /\ files (snd run2) = files w
  /\ (exists evs, trace (snd run1) = (trace w ++ evs)%list
                  /\ trace (snd run2) = (trace (snd run1) ++ evs)%list)
  /\ (forall w', files w' = files w ->
        fst (predict_future_twin d months w') = fst run1).
Proof.
  destruct (framed_predict_future_twin d months (files w)) as (r & evs & Hrun).
  assert (forall tr, predict_future_twin d months {| files := files w; trace := tr |}
                     = (r, {| files := files w; trace := (tr ++ evs)%list |})) as Hrun' by exact Hrun.
  cbn zeta. destruct w as [fs tr]. cbn in *.
  rewrite (Hrun' tr). cbn. rewrite (Hrun' (tr ++ evs)%list). cbn.
  repeat split; eauto.
  intros [fs' tr'] Hfs. cbn in Hfs. subst fs'. by rewrite Hrun'.
Qed.

Lemma job_classification_fst {np : NumPy} df w w' :
  files w !! JOB_MODEL_FILE = files w' !! JOB_MODEL_FILE ->
  fst (job_classification df w) = fst (job_classification df w').
Proof.
  intros Hfs. run_step. rewrite Hfs.
  destruct (files w' !! JOB_MODEL_FILE) as [p|]; cbn; [|reflexivity].
  destruct (df_select df feature_columns) as [e|X]; cbn; [reflexivity|].
  destruct (predict_proba p X) as [e|[|probas rows]]; cbn; try reflexivity.
  destruct (classifier_classes p) as [e|classes]; cbn; try reflexivity.
  destruct (take_labels classes (top_indices probas)) as [e|l]; reflexivity.
Qed.

(** C9: when the salary artifact answers exactly -1.0 the result reports
    ["N/A"], and the whole result equals the one of any world in which the
    salary artifact fails and the job artifact is the same. *)
Theorem minus_one_salary_is_unavailable {np : NumPy} d months age tenure sleep w :
  well_formed d age tenure sleep ->
  salary_returns (files w) (feature_frame d age tenure months) (PFloat (-1.0)) ->
  (exists r w', predict_future_twin d months w = (Ok r, w')
                /\ predicted_salary r = PStr "N/A")
  /\ (forall wf,
        salary_raises (files wf) (feature_frame d age tenure months) ->
        files wf !! JOB_MODEL_FILE = files w !! JOB_MODEL_FILE ->
        fst (predict_future_twin d months wf) = fst (predict_future_twin d months w)).
Proof.
  intros Hwf Hret. pose proof Hwf as [Ha Ht Hs Hc].
  pose proof (df_select_well_formed d age tenure sleep months Hwf) as Hsel.
  set (twin_df := build_twin_df d (PInt (age + months / 12)) (PInt (tenure + months))) in *.
  pose proof (salary_prediction_returns _ w _ _ Hsel Hret) as Hsal.
  destruct (job_classification_total twin_df
              (emitted w [EvLoad SALARY_MODEL_FILE;
                          EvPredict (feature_frame d age tenure months)]))
    as (jv & evs2 & Hjob).
  pose proof (predict_future_twin_run _ _ _ _ _ _ _ _ _ _ Ha Ht Hs Hsal Hjob) as Hrun.
  split.
  - eexists _, _. split; [exact Hrun|]. reflexivity.
  - intros wf Hr Hfs.
    destruct (salary_prediction_raises _ wf _ Hsel Hr) as [evs Hsal'].
    destruct (job_classification_total twin_df (emitted wf evs)) as (jv' & evs2' & Hjob').
    rewrite Hrun, (predict_future_twin_run _ _ _ _ _ _ _ _ _ _ Ha Ht Hs Hsal' Hjob').
    cbn. assert (jv' = jv) as ->; [|reflexivity].
    pose proof (job_classification_fst twin_df (emitted wf evs)
                  (emitted w [EvLoad SALARY_MODEL_FILE;
                              EvPredict (feature_frame d age tenure months)]) Hfs) as E.
    rewrite Hjob, Hjob' in E. cbn in E. unfold Ok in E. congruence.
Qed.

Lemma minus_one_salary_is_unavailable_witness :
  let w := world_of (constant_regressor (PFloat (-1.0))) sample_classifier in
  (exists r w', predict_future_twin sample_profile 24 w = (Ok r, w')
                /\ predicted_salary r = PStr "N/A")
  /\ (forall wf,
        salary_raises (files wf) (feature_frame sample_profile 30 10 24) ->
        files wf !! JOB_MODEL_FILE = files w !! JOB_MODEL_FILE ->
        fst (predict_future_twin sample_profile 24 wf)
        = fst (predict_future_twin sample_profile 24 w)).
Proof.
  apply (minus_one_salary_is_unavailable sample_profile 24 30 10 7.5
           (world_of (constant_regressor (PFloat (-1.0))) sample_classifier)
           sample_profile_well_formed).
  eexists _, []. split; reflexivity.
Defined.

(** C10: when [age] or [tenure_months] is missing the call raises and
    leaves the world as it was: no artifact is loaded, no predictor is
    called, nothing is printed. The error is [KeyError] on the first
    missing key when the present one is an integer. *)
Theorem missing_projected_key_raises {np : NumPy} d months w :
  d !! "age" = None \/ d !! "tenure_months" = None ->
  (exists e, predict_future_twin d months w = (Raise e, w))
  /\ (d !! "age" = None -> predict_future_twin d months w = (Raise (KeyError "age"), w))
  /\ (forall age, d !! "age" = Some (PInt age) ->
        predict_future_twin d months w = (Raise (KeyError "tenure_months"), w)).
Proof.
  intros Hmiss.
  assert (forall e, time_projection d months = Raise e ->
                    predict_future_twin d months w = (Raise e, w)) as Hraise.
  { intros e He. unfold predict_future_twin. rewrite He. reflexivity. }
  assert (d !! "age" = None -> time_projection d months = Raise (KeyError "age")) as Hage.
  { intros Ha. unfold time_projection, dict_getitem. by rewrite Ha. }
  assert (exists e, time_projection d months = Raise e) as [e He].
  { destruct (d !! "age") as [v|] eqn:Ha; [|eauto].
    destruct Hmiss as [?|Ht]; [discriminate|].
    unfold time_projection, dict_getitem. rewrite Ha, Ht.
    unfold Ok, Raise; cbn. destruct (py_add_int v (months / 12)); cbn; eauto. }
  split; [eauto|]. split; [auto|].
  intros age Ha. destruct Hmiss as [Hn|Ht]; [congruence|].
  apply Hraise. unfold time_projection, dict_getitem. by rewrite Ha, Ht.
Qed.

Lemma missing_projected_key_raises_witness :
  (exists e, predict_future_twin (delete "age" sample_profile) 24 sample_world
             = (Raise e, sample_world))
  /\ (delete "age" sample_profile !! "age" = None ->
      predict_future_twin (delete "age" sample_profile) 24 sample_world
      = (Raise (KeyError "age"), sample_world))
  /\ (forall age, delete "age" sample_profile !! "age" = Some (PInt age) ->
        predict_future_twin (delete "age" sample_profile) 24 sample_world
        = (Raise (KeyError "tenure_months"), sample_world)).
Proof.
  apply (missing_projected_key_raises (delete "age" sample_profile) 24 sample_world).
  left. reflexivity.
Defined.

(** ** Further properties of the health heuristic *)

Lemma kle_zero_inv q : sf_nonneg q -> kle q (S754_zero false) -> q = S754_zero false.
Proof.
  unfold kle, key_lt. destruct q as [[]|[]| |[] m e]; cbn; intros H Hk; try done;
    exfalso; apply Hk; lia.
Qed.

Lemma fkle_zero_inv (a : float) : fnonneg a -> fkle a 0 -> a = 0%float.
Proof.
  intros Ha Hle. apply Prim2SF_inj. change (Prim2SF 0) with (S754_zero false).
  by apply kle_zero_inv.
Qed.

Lemma fkle_refl (a : float) : fkle a a.
Proof. apply kle_refl. Qed.

(** [max(0, c - p)] never exceeds [c] when [p] is non-negative. *)
Lemma max0_sub_le (p c : float) mc ec :
  Prim2SF c = S754_finite false mc ec -> fnonneg p ->
  fkle (py_max0 (c - p)) (py_max0 (c - 0)).
Proof.
  intros Hc Hp. apply (max0_sub_antitone 0 p c mc ec Hc); try done.
  apply kle_zero. exact Hp.
Qed.

Lemma py_max0_nan (x : float) : Prim2SF x = S754_nan -> py_max0 x = 0%float.
Proof.
  intros Hx. unfold py_max0. rewrite FloatAxioms.ltb_spec, Hx. reflexivity.
Qed.

Lemma SFsub_nan_l y : SF64sub S754_nan y = S754_nan.
Proof. reflexivity. Qed.

Lemma SFsub_nan_r x : SF64sub x S754_nan = S754_nan.
Proof. by destruct x as [[]|[]| |[] m e]. Qed.

Lemma SFmul_nan_l y : SF64mul S754_nan y = S754_nan.
Proof. reflexivity. Qed.

(** Where a float stands with respect to the band. *)
Lemma band_cases (x : float) :
  Prim2SF x = S754_nan
  \/ (x <? 7.0)%float = true
  \/ ((7.0 <=? x)%float = true /\ (x <=? 8.5)%float = true)
  \/ (8.5 <? x)%float = true.
Proof.
  destruct (spec_float_nan_dec (Prim2SF x)) as [Hn|Hn]; [by left|right].
  assert (Prim2SF 7.0 <> S754_nan) as H7 by done.
  assert (Prim2SF 8.5 <> S754_nan) as H8 by done.
  destruct (key_lt_total (fkey x) (fkey 7.0)) as [Hlt|Hge].
  { left. apply ltb_key. done. }
  right.
  destruct (key_lt_total (fkey 8.5) (fkey x)) as [Hgt|Hle].
  { right. apply ltb_key. done. }
  left. split; apply leb_key; repeat split; try done.
  - intros Hlt. destruct Hge as [E|Hgt].
    + rewrite E in Hlt. by apply key_lt_irrefl in Hlt.
    + by apply (key_lt_irrefl _ (key_lt_trans _ _ _ Hlt Hgt)).
  - intros Hlt. destruct Hle as [E|Hgt].
    + rewrite E in Hlt. by apply key_lt_irrefl in Hlt.
    + by apply (key_lt_irrefl _ (key_lt_trans _ _ _ Hlt Hgt)).
Qed.

Lemma predict_health_increase_nan x :
  Prim2SF x = S754_nan -> predict_health_increase x = 1.0%float.
Proof.
  intros Hx. unfold predict_health_increase. cbn zeta.
  assert ((7.0 <=? x)%float = false) as ->.
  { apply not_true_iff_false. intros H. apply leb_key in H. tauto. }
  assert ((x <? 7.0)%float = false) as ->.
  { apply not_true_iff_false. intros H. apply ltb_key in H. tauto. }
  cbn [andb].
  assert (py_max0 (10.0 - (x - 8.5) * 2) = 0)%float as ->; [|reflexivity].
  apply py_max0_nan. by rewrite sub_spec, mul_spec, sub_spec, Hx.
Qed.

Lemma factor_le_max (a : float) :
  fnonneg a -> fkle a 10.0 ->
  (1.0 + a / 100.0 <=? 0x1.199999999999ap+0)%float = true.
Proof.
  intros Ha Hle. change 0x1.199999999999ap+0%float with (1.0 + 10.0 / 100.0)%float.
  by apply factor_mono.
Qed.

Lemma leb_refl_of_ltb_l x y : (x <? y)%float = true -> (x <=? x)%float = true.
Proof.
  intros H. apply ltb_key in H as (Hx & _). apply leb_key. repeat split; try done.
  apply key_lt_irrefl.
Qed.

Lemma leb_refl_of_ltb_r x y : (x <? y)%float = true -> (y <=? y)%float = true.
Proof.
  intros H. apply ltb_key in H as (_ & Hy & _). apply leb_key. repeat split; try done.
  apply key_lt_irrefl.
Qed.

(** Whatever the argument, the factor is [1.0 + a / 100.0] for an increase
    [a] between 0 and 10. *)
Lemma predict_health_increase_shape (x : float) :
  exists a, fnonneg a /\ fkle a 10.0
            /\ predict_health_increase x = (1.0 + a / 100.0)%float.
Proof.
  destruct (band_cases x) as [Hn|[Hlo|[[H1 H2]|Hhi]]].
  - exists 0%float. rewrite (predict_health_increase_nan x Hn). repeat split; try done.
    by apply kle_zero.
  - exists (py_max0 (10.0 - (7.0 - x) * 5)). rewrite (predict_health_increase_below x Hlo).
    destruct (sub_from_antitone x x 7.0 _ _ eq_refl (leb_refl_of_ltb_l _ _ Hlo) Hlo)
      as (_ & Hd & _).
    destruct (mul_const_mono _ _ 5 _ _ eq_refl ltac:(done) Hd Hd (fkle_refl _))
      as (_ & Hp & _).
    split; [apply py_max0_nonneg|]. split; [|done].
    exact (max0_sub_le _ 10.0 _ _ eq_refl Hp).
  - exists 10.0%float. unfold predict_health_increase. cbn zeta. rewrite H1, H2.
    repeat split; try done. apply fkle_refl.
  - exists (py_max0 (10.0 - (x - 8.5) * 2)). rewrite (predict_health_increase_above x Hhi).
    destruct (sub_const_mono x x 8.5 _ _ eq_refl Hhi (leb_refl_of_ltb_r _ _ Hhi))
      as (_ & Hd & _).
    destruct (mul_const_mono _ _ 2 _ _ eq_refl ltac:(done) Hd Hd (fkle_refl _))
      as (_ & Hp & _).
    split; [apply py_max0_nonneg|]. split; [|done].
    exact (max0_sub_le _ 10.0 _ _ eq_refl Hp).
Qed.

(** X1: the factor never exceeds the full 10 percent boost and is never NaN. *)
Theorem predict_health_increase_upper_bound (x : float) :
  (predict_health_increase x <=? 0x1.199999999999ap+0)%float = true
  /\ is_nan (predict_health_increase x) = false.
Proof.
  destruct (predict_health_increase_shape x) as (a & Ha & Hle & ->).
  pose proof (factor_le_max a Ha Hle) as Hmax.
  split; [done|].
  apply not_true_iff_false. intros Hnan. apply is_nan_key in Hnan.
  apply leb_key in Hmax. tauto.
Qed.

(** X2: the penalty is floored: five hours or less, or thirteen and a half
    hours or more, give exactly 1.0. *)
Theorem predict_health_increase_floor (x : float) :
  ((x <=? 5.0)%float = true -> predict_health_increase x = 1.0%float)
  /\ ((13.5 <=? x)%float = true -> predict_health_increase x = 1.0%float).
Proof.
  split.
  - intros Hle.
    assert ((x <? 7.0)%float = true) as Hlo by (by apply (leb_ltb_trans x 5.0 7.0)).
    rewrite (predict_health_increase_below x Hlo).
    destruct (sub_from_antitone x 5.0 7.0 _ _ eq_refl Hle eq_refl) as (Hd & Hd5 & Hdx).
    destruct (mul_const_mono _ _ 5 _ _ eq_refl ltac:(done) Hd5 Hdx Hd) as (Hp & Hp5 & Hpx).
    pose proof (max0_sub_antitone _ _ 10.0 _ _ eq_refl Hp5 Hpx Hp) as Hi.
    rewrite (fkle_zero_inv (py_max0 (10.0 - (7.0 - x) * 5))); [reflexivity| |exact Hi].
    apply py_max0_nonneg.
  - intros Hge.
    assert ((8.5 <? x)%float = true) as Hhi by (by apply (ltb_leb_trans 8.5 13.5 x)).
    rewrite (predict_health_increase_above x Hhi).
    destruct (sub_const_mono 13.5 x 8.5 _ _ eq_refl eq_refl Hge) as (Hd & Hd5 & Hdx).
    destruct (mul_const_mono _ _ 2 _ _ eq_refl ltac:(done) Hd5 Hdx Hd) as (Hp & Hp5 & Hpx).
    pose proof (max0_sub_antitone _ _ 10.0 _ _ eq_refl Hp5 Hpx Hp) as Hi.
    rewrite (fkle_zero_inv (py_max0 (10.0 - (x - 8.5) * 2))); [reflexivity| |exact Hi].
    apply py_max0_nonneg.
Qed.

Lemma predict_health_increase_floor_witness :
  predict_health_increase 3.25 = 1.0%float /\ predict_health_increase 20.0 = 1.0%float.
Proof.
  split.
  - apply (proj1 (predict_health_increase_floor 3.25)). reflexivity.
  - apply (proj2 (predict_health_increase_floor 20.0)). reflexivity.
Defined.

(** ** What a run emits *)

Lemma emitted_inj w evs evs' : emitted w evs = emitted w evs' -> evs = evs'.
Proof. unfold emitted. intros H. injection H as H. by apply app_inv_head in H. Qed.

(** What the salary block emits, whatever happens in it. *)
Lemma salary_prediction_events df w :
  exists v evs,
    salary_prediction df w = (Ok v, emitted w evs)
    /\ loaded_paths evs = [SALARY_MODEL_FILE]
    /\ (forall X, X ∈ predictor_calls evs -> df_select df feature_columns = Ok X)
    /\ (length (predictor_calls evs) <= 1)%nat
    /\ (length (printed_lines evs) <= 1)%nat.
Proof.
  run_step. destruct (files w !! SALARY_MODEL_FILE) as [p|]; cbn.
  - destruct (df_select df feature_columns) as [e|X] eqn:HX; cbn.
    { eexists _, [_; _]. split; [close_run|]. cbn. repeat split; try lia.
      intros X HXin. inversion HXin. }
    destruct (predict p X) as [e|[|v a]]; cbn.
    + eexists _, [_; _; _]. split; [close_run|]. cbn. repeat split; try lia.
      intros X' HXin. apply list_elem_of_singleton in HXin. by subst.
    + eexists _, [_; _; _]. split; [close_run|]. cbn. repeat split; try lia.
      intros X' HXin. apply list_elem_of_singleton in HXin. by subst.
    + eexists _, [_; _]. split; [close_run|]. cbn. repeat split; try lia.
      intros X' HXin. apply list_elem_of_singleton in HXin. by subst.
  - eexists _, [_; _]. split; [close_run|]. cbn. repeat split; try lia.
    intros X HXin. inversion HXin.
Qed.

Lemma take_labels_length classes idx labels :
  take_labels classes idx = Ok labels -> length labels = length idx.
Proof.
  revert labels. induction idx as [|i idx IH]; intros labels; cbn.
  { intros H. unfold Ok in H. by inversion H. }
  destruct (classes !! i) as [c|]; [|done].
  destruct (take_labels classes idx) as [e|cs]; [done|].
  intros H. unfold Ok in H. inversion H. cbn. by rewrite (IH cs).
Qed.

Lemma top_indices_length {np : NumPy} probas : (length (top_indices probas) <= 3)%nat.
Proof. unfold top_indices. rewrite length_take. lia. Qed.

(** What the job block emits, and how long its answer is. *)
Lemma job_classification_events {np : NumPy} df w :
  exists v evs,
    job_classification df w = (Ok v, emitted w evs)
    /\ (length v <= 3)%nat
    /\ loaded_paths evs = [JOB_MODEL_FILE]
    /\ (forall X, X ∈ predictor_calls evs -> df_select df feature_columns = Ok X)
    /\ (length (predictor_calls evs) <= 1)%nat
    /\ (length (printed_lines evs) <= 1)%nat.
Proof.
  run_step. destruct (files w !! JOB_MODEL_FILE) as [p|]; cbn.
  - destruct (df_select df feature_columns) as [e|X] eqn:HX; cbn.
    { eexists _, [_; _]. split; [close_run|]. cbn. repeat split; try lia.
      intros X HXin. inversion HXin. }
    assert (forall X', X' ∈ [X] -> Ok X = Ok X') as Hone.
    { intros X' HXin. apply list_elem_of_singleton in HXin. by subst. }
    destruct (predict_proba p X) as [e|[|probas rows]]; cbn;
      try (eexists _, [_; _; _]; split; [close_run|]; cbn; repeat split; (lia || done)).
    destruct (classifier_classes p) as [e|classes]; cbn;
      try (eexists _, [_; _; _]; split; [close_run|]; cbn; repeat split; (lia || done)).
    destruct (take_labels classes (top_indices probas)) as [e|l] eqn:Hl; cbn.
    + eexists _, [_; _; _]; split; [close_run|]; cbn; repeat split; (lia || done).
    + eexists _, [_; _]; split; [close_run|]; cbn.
      apply take_labels_length in Hl. pose proof (top_indices_length probas).
      repeat split; (lia || done).
  - eexists _, [_; _]. split; [close_run|]. cbn. repeat split; try lia.
    intros X HXin. inversion HXin.
Qed.

(** The run once the two projections succeeded. *)
Lemma predict_future_twin_steps {np : NumPy} d months w pa pt h sv w1 jv w2 :
  time_projection d months = Ok (pa, pt) -> health_projection d = Ok h ->
  salary_prediction (build_twin_df d pa pt) w = (Ok sv, w1) ->
  job_classification (build_twin_df d pa pt) w1 = (Ok jv, w2) ->
  predict_future_twin d months w
  = (match py_int pa with
     | inl e => Raise e
     | inr age =>
         Ok {| projected_age := age;
               health_increase_percent := py_round h 1;
               predicted_salary := salary_field sv;
               recommended_jobs := jv;
               time_projection_months := months |}
     end, w2).
Proof.
  intros Ht Hh Hs Hj. unfold predict_future_twin. rewrite Ht, Hh.
  unfold mbind, M_bind, lift, Ok in *. cbn. rewrite Hs, Hj.
  destruct (py_int pa); reflexivity.
Qed.

(** What a run emits once the two projections succeeded. *)
Lemma predict_future_twin_events {np : NumPy} d months w pa pt h :
  time_projection d months = Ok (pa, pt) -> health_projection d = Ok h ->
  exists sv jv evs,
    predict_future_twin d months w
    = (match py_int pa with
       | inl e => Raise e
       | inr age =>
           Ok {| projected_age := age;
                 health_increase_percent := py_round h 1;
                 predicted_salary := salary_field sv;
                 recommended_jobs := jv;
                 time_projection_months := months |}
       end, emitted w evs)
    /\ (length jv <= 3)%nat
    /\ loaded_paths evs = [SALARY_MODEL_FILE; JOB_MODEL_FILE]
    /\ (forall X, X ∈ predictor_calls evs ->
          df_select (build_twin_df d pa pt) feature_columns = Ok X)
    /\ (length (predictor_calls evs) <= 2)%nat
    /\ (length (printed_lines evs) <= 2)%nat.
Proof.
  intros Ht Hh.
  destruct (salary_prediction_events (build_twin_df d pa pt) w)
    as (sv & evs1 & Hs & Hl1 & Hc1 & Hn1 & Hp1).
  destruct (job_classification_events (build_twin_df d pa pt) (emitted w evs1))
    as (jv & evs2 & Hj & Hlen & Hl2 & Hc2 & Hn2 & Hp2).
  exists sv, jv, (evs1 ++ evs2)%list.
  rewrite (predict_future_twin_steps _ _ _ _ _ _ _ _ _ _ Ht Hh Hs Hj), emitted_emitted.
  split; [done|]. unfold loaded_paths, predictor_calls, printed_lines in *.
  rewrite !omap_app, !length_app, Hl1, Hl2. repeat split; try lia.
  intros X HX. apply elem_of_app in HX as [HX|HX]; auto.
Qed.

(** ** Validity of roundings and the reported health percentage *)

Lemma digits2_pos_53 p : 2 ^ 52 <= Z.pos p < 2 ^ 53 -> Z.pos (digits2_pos p) = 53.
Proof.
  intros [Hlo Hhi]. pose proof (digits2_pos_bounds p) as [H1 H2].
  pose proof (Zdigits2_le_53 (Z.pos p) ltac:(lia)) as Hle. cbn [Zdigits2] in Hle.
  destruct (Z_le_gt_dec 53 (Z.pos (digits2_pos p))) as [|Hgt]; [lia|].
  assert (2 ^ Z.pos (digits2_pos p) <= 2 ^ 52) by (apply Z.pow_le_mono_r; lia).
  lia.
Qed.

Lemma valid_finite_intro s N E :
  0 < N < 2 ^ 53 -> -1074 <= E <= 971 -> (-1074 < E -> 2 ^ 52 <= N) ->
  valid_binary (S754_finite s (Z.to_pos N) E) = true.
Proof.
  intros HN HE Hn. destruct N as [|p|p]; try lia. cbn [Z.to_pos].
  unfold SpecFloat.valid_binary, SpecFloat.bounded, SpecFloat.canonical_mantissa.
  rewrite andb_true_iff, Z.eqb_eq, Z.leb_le, fexp64_eq.
  change (emax - prec) with 971. split; [|lia].
  destruct (Z.eq_dec E (-1074)) as [->|Hne].
  - pose proof (Zdigits2_le_53 (Z.pos p) ltac:(lia)) as Hle. cbn [Zdigits2] in Hle. lia.
  - rewrite (digits2_pos_53 p) by lia. lia.
Qed.

Lemma round_finish_valid s M E L :
  0 <= M < 2 ^ 53 -> -1074 <= E -> (-1074 < E -> 2 ^ 52 <= M) ->
  valid_binary (round_finish s M E L) = true.
Proof.
  intros HM HE Hn. pose proof (rne_bounds M L) as HN.
  rewrite round_finish_eq by lia.
  destruct (Z.eqb_spec (round_nearest_even M L) 0) as [|Hnz]; [done|].
  destruct (Z.eqb_spec (round_nearest_even M L) (2 ^ 53)) as [|Hn53].
  - destruct (Z.leb_spec (E + 1) 971); [|done].
    apply (valid_finite_intro s (2 ^ 52) (E + 1)); lia.
  - destruct (Z.leb_spec E 971); [|done].
    apply valid_finite_intro; lia.
Qed.

Lemma binary_round_aux_valid s m e l v :
  0 <= m -> e <= fexp64 (Zdigits2 m + e) -> inbetween m e l v ->
  valid_binary (binary_round_aux prec emax s m e l) = true.
Proof.
  intros Hm Hp Hin.
  destruct (shr_fexp_located m e l v Hm Hp Hin) as (mrs & Hshr & HM & HE & Hn & _).
  rewrite (binary_round_aux_finish _ _ _ _ _ _ Hshr). by apply round_finish_valid.
Qed.

Lemma binary_round_valid s n e : valid_binary (binary_round prec emax s n e) = true.
Proof.
  unfold binary_round, shl_align.
  set (E := SpecFloat.fexp prec emax (Z.pos (digits2_pos n) + e)).
  destruct (E - e) as [|d|d] eqn:Hd.
  - apply (binary_round_aux_valid s (Z.pos n) e loc_Exact (IZR (Z.pos n) * bpow e));
      [lia| |done]. cbn [Zdigits2]. fold E. lia.
  - apply (binary_round_aux_valid s (Z.pos n) e loc_Exact (IZR (Z.pos n) * bpow e));
      [lia| |done]. cbn [Zdigits2]. fold E. lia.
  - destruct (iter_xO_value d n) as [Hv Hdig].
    apply (binary_round_aux_valid s _ E loc_Exact (IZR (Z.pos (Pos.iter xO n d)) * bpow E));
      [lia| |done].
    cbn [Zdigits2]. rewrite Hdig.
    replace (Z.pos (digits2_pos n) + Z.pos d + E) with (Z.pos (digits2_pos n) + e) by lia.
    fold E. lia.
Qed.

Lemma Z2SF_valid n : valid_binary (Z2SF n) = true.
Proof. unfold Z2SF, binary_normalize. destruct n; [done| |]; apply binary_round_valid. Qed.

(** [float(n)], when it succeeds, is a finite float. *)
Lemma float_of_int_finite n y : float_of_int n = Ok y -> sf_finite (Prim2SF y).
Proof.
  unfold float_of_int. pose proof (Z2SF_valid n) as Hv.
  destruct (Z2SF n) as [s|s| |s m e] eqn:E; intros H; try done.
  - injection H as <-. by destruct s.
  - assert (y = SF2Prim (S754_finite s m e)) as -> by (unfold Ok in H; congruence).
    by rewrite Prim2SF_SF2Prim.
Qed.

Lemma div_half_even_le_succ n d : 0 < d -> div_half_even n d <= n / d + 1.
Proof.
  intros Hd. unfold div_half_even.
  destruct (2 * (n mod d) ?= d); try destruct (Z.even (n / d)); lia.
Qed.

Lemma div_half_even_ge n d : 0 < d -> n / d <= div_half_even n d.
Proof.
  intros Hd. unfold div_half_even.
  destruct (2 * (n mod d) ?= d); try destruct (Z.even (n / d)); lia.
Qed.

Lemma div_half_even_mono n1 n2 d : 0 < d -> n1 <= n2 -> div_half_even n1 d <= div_half_even n2 d.
Proof.
  intros Hd Hle.
  assert (n1 / d <= n2 / d) as Hq by (by apply Z.div_le_mono).
  destruct (Z.eq_dec (n1 / d) (n2 / d)) as [Heq|Hne].
  - assert (n1 mod d <= n2 mod d) as Hr.
    { rewrite !Z.mod_eq by lia. rewrite Heq. lia. }
    unfold div_half_even. rewrite Heq.
    destruct (Z.compare_spec (2 * (n1 mod d)) d), (Z.compare_spec (2 * (n2 mod d)) d);
      try destruct (Z.even (n2 / d)); lia.
  - pose proof (div_half_even_le_succ n1 d Hd). pose proof (div_half_even_ge n2 d Hd). lia.
Qed.

(** Tenths from 0.1 to 10.0 convert to floats between 0 and 10. *)
Lemma tenths_in_range n :
  (Pos.to_nat n <= 100)%nat ->
  let r := SF2Prim (SF_of_ratio false n 10) in
  (0 <=? r)%float && (r <=? 10)%float = true.
Proof.
  intros Hn.
  assert (forallb (fun n => (0 <=? SF2Prim (SF_of_ratio false n 10))%float
                            && (SF2Prim (SF_of_ratio false n 10) <=? 10)%float)
            (List.map Pos.of_nat (seq 1 100)) = true) as Hall by (vm_compute; reflexivity).
  rewrite forallb_forall in Hall. apply Hall.
  apply in_map_iff. exists (Pos.to_nat n). split; [apply Pos2Nat.id|].
  apply in_seq. pose proof (Pos2Nat.is_pos n). lia.
Qed.

Lemma max_percent_spec :
  Prim2SF ((0x1.199999999999ap+0 - 1.0) * 100)%float
  = S754_finite false 5629499534213125 (-49).
Proof. by vm_compute. Qed.

(** Rounding to one decimal keeps a percentage between 0 and the largest one
    the heuristic can produce inside [0, 10]. *)
Lemma py_round_percent (h : float) :
  fnonneg h -> fkle h ((0x1.199999999999ap+0 - 1.0) * 100)%float ->
  (0 <=? py_round h 1)%float && (py_round h 1 <=? 10)%float = true.
Proof.
  unfold fnonneg, fkle. rewrite max_percent_spec.
  intros Hn Hle. pose proof (Prim2SF_valid h) as Hv.
  unfold py_round.
  destruct (Prim2SF h) as [[]|[]| |[] m e] eqn:Eh; try done.
  - assert (h = 0%float) as -> by (by apply Prim2SF_inj). reflexivity.
  - exfalso. apply Hle. unfold key_lt. cbn. lia.
  - change (10 ^ 1) with 10.
    assert (Zdigits2 (Z.pos m) <= 53 /\ e <= -49
            /\ (e = -49 -> Z.pos m <= 5629499534213125)) as (Hdig & He & Hm).
    { apply valid_finite_located in Hv as [(HM & _) _].
      pose proof (Zdigits2_le_53 (Z.pos m) ltac:(lia)).
      unfold kle, key_lt in Hle. cbn in Hle. repeat split; lia. }
    assert (Z.pos m < 2 ^ 53) as HM.
    { apply valid_finite_located in Hv as [(HM & _) _]. lia. }
    destruct (Z.leb_spec 0 e); [lia|].
    assert (0 < 2 ^ (- e)) as Hd by (apply Z.pow_pos_nonneg; lia).
    assert (0 <= div_half_even (Z.pos m * 10) (2 ^ (- e)) <= 100) as Hs.
    { split.
      - pose proof (div_half_even_ge (Z.pos m * 10) _ Hd).
        assert (0 <= Z.pos m * 10 / 2 ^ (- e)) by (apply Z.div_pos; lia). lia.
      - destruct (Z.eq_dec e (-49)) as [->|Hne].
        + change (- -49) with 49.
          transitivity (div_half_even (5629499534213125 * 10) (2 ^ 49));
            [apply div_half_even_mono; lia|]. by vm_compute.
        + pose proof (div_half_even_le_succ (Z.pos m * 10) _ Hd).
          assert (2 ^ 50 <= 2 ^ (- e)) as Hp by (apply Z.pow_le_mono_r; lia).
          assert (Z.pos m * 10 / 2 ^ (- e) <= Z.pos m * 10 / 2 ^ 50) as H1
            by (apply Z.div_le_compat_l; lia).
          assert (Z.pos m * 10 / 2 ^ 50 <= (2 ^ 53 * 10) / 2 ^ 50) as H2
            by (apply Z.div_le_mono; lia).
          change (2 ^ 53 * 10 / 2 ^ 50) with 80 in H2. lia. }
    destruct (div_half_even (Z.pos m * 10) (2 ^ (- e))) as [|n|n]; try lia.
    + reflexivity.
    + apply tenths_in_range. lia.
Qed.

Lemma sf_key_finite_inj x m e : sf_key x = (1, (e, Z.pos m)) -> x = S754_finite false m e.
Proof. destruct x as [[]|[]| |[] m' e']; cbn; intros H; by inversion H. Qed.

(** The percentage before it is rounded. *)
Lemma health_percent_range (x : float) :
  let h := ((predict_health_increase x - 1.0) * 100)%float in
  fnonneg h /\ fkle h ((0x1.199999999999ap+0 - 1.0) * 100)%float.
Proof.
  destruct (predict_health_increase_shape x) as (a & Ha & Hle & ->). cbn zeta.
  pose proof (factor_ge_one a Ha) as Hge.
  pose proof (factor_le_max a Ha Hle) as Hmax.
  set (f := (1.0 + a / 100.0)%float) in *.
  destruct (key_lt_total (fkey 1.0) (fkey f)) as [Hlt|[Heq|Hgt]].
  - assert ((1.0 <? f)%float = true) as Hltb.
    { apply leb_key in Hge as (H1 & Hf & _). by apply ltb_key. }
    destruct (sub_const_mono f 0x1.199999999999ap+0 1.0 _ _ eq_refl Hltb Hmax)
      as (Hd & Hdf & Hdm).
    destruct (mul_const_mono _ _ 100 _ _ eq_refl ltac:(done) Hdf Hdm Hd) as (Hp & Hpf & _).
    by split.
  - assert (f = 1.0%float) as ->.
    { apply Prim2SF_inj. symmetry in Heq. by apply sf_key_finite_inj in Heq. }
    split; [done|]. unfold fkle. rewrite max_percent_spec.
    change (Prim2SF ((1.0 - 1.0) * 100)) with (S754_zero false). by apply kle_zero.
  - apply leb_key in Hge as (_ & _ & Hge). done.
Qed.

(** ** Further properties of the engine *)

Lemma df_select_ok_inv (df : gmap string pyval) cols X :
  df_select df cols = Ok X ->
  map fst X = cols /\ forall c v, (c, v) ∈ X <-> c ∈ cols /\ df !! c = Some v.
Proof.
  unfold df_select. destruct (filter _ cols) as [|c0 l] eqn:Hf; [|done].
  intros H. assert (X = omap (fun c => pair c <$> df !! c) cols) as ->
    by (unfold Ok in H; congruence).
  clear H. induction cols as [|c cols IH].
  { split; [done|]. intros c v. cbn. rewrite !elem_of_nil. tauto. }
  rewrite filter_cons in Hf. destruct (decide (df !! c = None)) as [|Hc]; [done|].
  destruct (df !! c) as [v0|] eqn:Hv0; [|done].
  destruct (IH Hf) as [IH1 IH2]. cbn. rewrite Hv0. cbn. split; [by rewrite IH1|].
  intros c' v'. rewrite !elem_of_cons, IH2. split.
  - intros [E|[? ?]]; [|tauto]. inversion E; subst. tauto.
  - intros [[->|?] Hl]; [|tauto]. left. congruence.
Qed.

Lemma build_twin_df_age d pa pt : build_twin_df d pa pt !! "age" = Some pa.
Proof. unfold build_twin_df. by rewrite lookup_insert_ne, lookup_insert_eq. Qed.

Lemma build_twin_df_tenure d pa pt : build_twin_df d pa pt !! "tenure_months" = Some pt.
Proof. unfold build_twin_df. by rewrite lookup_insert_eq. Qed.

Lemma predict_future_twin_time_raises {np : NumPy} d months w e :
  time_projection d months = Raise e -> predict_future_twin d months w = (Raise e, w).
Proof. intros H. unfold predict_future_twin. by rewrite H. Qed.

Lemma predict_future_twin_health_raises {np : NumPy} d months w pa pt e :
  time_projection d months = Ok (pa, pt) -> health_projection d = Raise e ->
  predict_future_twin d months w = (Raise e, w).
Proof. intros Ht Hh. unfold predict_future_twin. by rewrite Ht, Hh. Qed.

Lemma health_projection_inv d h :
  health_projection d = Ok h ->
  exists x, h = ((predict_health_increase x - 1.0) * 100)%float.
Proof.
  unfold health_projection. destruct (py_as_float _) as [e|x]; [done|].
  intros H. exists x. unfold Ok in H. congruence.
Qed.

(** Every run that returns went through the five steps. *)
Lemma predict_future_twin_inv {np : NumPy} d months w r w' :
  predict_future_twin d months w = (Ok r, w') ->
  exists pa pt h sv jv evs age,
    time_projection d months = Ok (pa, pt) /\ health_projection d = Ok h
    /\ py_int pa = Ok age
    /\ r = {| projected_age := age;
              health_increase_percent := py_round h 1;
              predicted_salary := salary_field sv;
              recommended_jobs := jv;
              time_projection_months := months |}
    /\ w' = emitted w evs
    /\ (length jv <= 3)%nat.
Proof.
  intros Hrun.
  destruct (time_projection d months) as [e|[pa pt]] eqn:Ht.
  { rewrite (predict_future_twin_time_raises _ _ _ _ Ht) in Hrun. done. }
  destruct (health_projection d) as [e|h] eqn:Hh.
  { rewrite (predict_future_twin_health_raises _ _ _ _ _ _ Ht Hh) in Hrun. done. }
  destruct (predict_future_twin_events d months w pa pt h Ht Hh)
    as (sv & jv & evs & Hr & Hlen & _).
  rewrite Hr in Hrun. destruct (py_int pa) as [e|age] eqn:Ha; [done|].
  exists pa, pt, h, sv, jv, evs, age. unfold Ok in *. repeat split; congruence.
Qed.

Lemma sample_time_projection :
  time_projection sample_profile 24 = Ok (PInt 32, PInt 34).
Proof. reflexivity. Qed.

Lemma sample_health_projection :
  health_projection sample_profile = Ok 10.000000000000009%float.
Proof. reflexivity. Qed.

(** X3: both artifacts are loaded afresh on every call that gets past the
    projections, the job artifact also when the salary step failed, and no
    call changes the artifacts. *)
Theorem artifacts_loaded_on_every_call {np : NumPy} d months w pa pt h :
  time_projection d months = Ok (pa, pt) -> health_projection d = Ok h ->
  exists r evs,
    predict_future_twin d months w = (r, emitted w evs)
    /\ loaded_paths evs = [SALARY_MODEL_FILE; JOB_MODEL_FILE]
    /\ (length (predictor_calls evs) <= 2)%nat.
Proof.
  intros Ht Hh.
  destruct (predict_future_twin_events d months w pa pt h Ht Hh)
    as (sv & jv & evs & Hr & _ & Hl & _ & Hn & _).
  eexists _, evs. split; [exact Hr|]. by split.
Qed.

Lemma artifacts_loaded_on_every_call_witness :
  exists r evs,
    predict_future_twin sample_profile 24 (world_of broken_pipeline sample_classifier)
    = (r, emitted (world_of broken_pipeline sample_classifier) evs)
    /\ loaded_paths evs = [SALARY_MODEL_FILE; JOB_MODEL_FILE]
    /\ (length (predictor_calls evs) <= 2)%nat.
Proof.
  exact (artifacts_loaded_on_every_call sample_profile 24
           (world_of broken_pipeline sample_classifier) (PInt 32) (PInt 34)
           10.000000000000009%float eq_refl eq_refl).
Defined.

(** X4: whatever the profile holds, a predictor is only ever handed the
    seven fitted columns, in their order, with the projected age and tenure
    in place of the submitted ones and the other five as submitted; no
    other key of the profile reaches a predictor. *)
Theorem predictors_receive_feature_columns {np : NumPy} d months w pa pt h :
  time_projection d months = Ok (pa, pt) -> health_projection d = Ok h ->
  exists r evs,
    predict_future_twin d months w = (r, emitted w evs)
    /\ forall X, X ∈ predictor_calls evs ->
         map fst X = feature_columns
         /\ ("age", pa) ∈ X /\ ("tenure_months", pt) ∈ X
         /\ forall c v, c ∈ profile_columns -> (c, v) ∈ X -> d !! c = Some v.
Proof.
  intros Ht Hh.
  destruct (predict_future_twin_events d months w pa pt h Ht Hh)
    as (sv & jv & evs & Hr & _ & _ & HX & _).
  eexists _, evs. split; [exact Hr|]. intros X Hin.
  destruct (df_select_ok_inv _ _ _ (HX X Hin)) as [Hcols Hmem].
  split; [done|]. split; [|split].
  - apply Hmem. split; [|apply build_twin_df_age].
    apply feature_columns_split. tauto.
  - apply Hmem. split; [|apply build_twin_df_tenure].
    apply feature_columns_split. tauto.
  - intros c v Hc Hcv. apply Hmem in Hcv as [_ Hl].
    by rewrite build_twin_df_column in Hl.
Qed.

Lemma predictors_receive_feature_columns_witness :
  exists r evs,
    predict_future_twin (<["avg_sleep_hours" := PFloat 6.0]> sample_profile) 24 sample_world
    = (r, emitted sample_world evs)
    /\ forall X, X ∈ predictor_calls evs ->
         map fst X = feature_columns
         /\ ("age", PInt 32) ∈ X /\ ("tenure_months", PInt 34) ∈ X
         /\ forall c v, c ∈ profile_columns -> (c, v) ∈ X ->
              <["avg_sleep_hours" := PFloat 6.0]> sample_profile !! c = Some v.
Proof.
  exact (predictors_receive_feature_columns
           (<["avg_sleep_hours" := PFloat 6.0]> sample_profile) 24 sample_world
           (PInt 32) (PInt 34) 5.000000000000004%float eq_refl eq_refl).
Defined.

(** The salary step when the artifact fails: which line is printed. *)
Lemma salary_prediction_raises_line df w X :
  df_select df feature_columns = Ok X -> salary_raises (files w) X ->
  exists e evs,
    salary_prediction df w
    = (Ok (PFloat (-1.0)), emitted w (evs ++ [EvPrint (error_line "Salary Prediction" e)]))
    /\ printed_lines evs = [].
Proof.
  intros HX Hr. unfold salary_raises in Hr.
  run_step. destruct (files w !! SALARY_MODEL_FILE) as [p|] eqn:Hp.
  - rewrite HX. cbn. destruct (predict p X) as [e|a] eqn:Hv; cbn.
    + exists e, [EvLoad SALARY_MODEL_FILE; EvPredict X]. split; [close_run|done].
    + subst a. cbn.
      exists (IndexError "index 0 is out of bounds for axis 0 with size 0"),
        [EvLoad SALARY_MODEL_FILE; EvPredict X].
      split; [close_run|done].
  - exists (FileNotFoundError SALARY_MODEL_FILE), [EvLoad SALARY_MODEL_FILE].
    split; [close_run|done].
Qed.

(** The job step when the artifact fails: which line is printed. *)
Lemma job_classification_raises_line {np : NumPy} df w X :
  df_select df feature_columns = Ok X -> jobs_raise (files w) X ->
  exists e evs,
    job_classification df w
    = (Ok ["N/A"], emitted w (evs ++ [EvPrint (error_line "Job Classification" e)]))
    /\ printed_lines evs = [].
Proof.
  intros HX Hr. unfold jobs_raise, jobs_return in Hr.
  run_step. destruct (files w !! JOB_MODEL_FILE) as [p|] eqn:Hp.
  - rewrite HX. cbn. destruct (predict_proba p X) as [e|[|probas rows]] eqn:Hv; cbn.
    { exists e, [EvLoad JOB_MODEL_FILE; EvPredictProba X]. split; [close_run|done]. }
    { exists (IndexError "index 0 is out of bounds for axis 0 with size 0"),
        [EvLoad JOB_MODEL_FILE; EvPredictProba X]. split; [close_run|done]. }
    destruct (classifier_classes p) as [e|classes] eqn:Hc; cbn.
    { exists e, [EvLoad JOB_MODEL_FILE; EvPredictProba X]. split; [close_run|done]. }
    destruct (take_labels classes (top_indices probas)) as [e|labels] eqn:Hl; cbn.
    { exists e, [EvLoad JOB_MODEL_FILE; EvPredictProba X]. split; [close_run|done]. }
    exfalso. apply (Hr labels). eauto 10.
  - exists (FileNotFoundError JOB_MODEL_FILE), [EvLoad JOB_MODEL_FILE].
    split; [close_run|done].
Qed.

(** X5: when both artifacts answer, a call loads each artifact once, calls
    each predictor once on the same frame, and prints nothing. *)
Theorem successful_run_trace {np : NumPy} d months age tenure sleep w v labels :
  well_formed d age tenure sleep ->
  salary_returns (files w) (feature_frame d age tenure months) v ->
  jobs_return (files w) (feature_frame d age tenure months) labels ->
  snd (predict_future_twin d months w)
  = emitted w [EvLoad SALARY_MODEL_FILE; EvPredict (feature_frame d age tenure months);
               EvLoad JOB_MODEL_FILE; EvPredictProba (feature_frame d age tenure months)].
Proof.
  intros Hwf Hs Hj. pose proof (df_select_well_formed d age tenure sleep months Hwf) as HX.
  pose proof (salary_prediction_returns _ w _ _ HX Hs) as Hsal.
  pose proof (job_classification_returns _
                (emitted w [EvLoad SALARY_MODEL_FILE;
                            EvPredict (feature_frame d age tenure months)]) _ _ HX Hj) as Hjob.
  destruct Hwf as [Ha Ht Hsl _].
  rewrite (predict_future_twin_run _ months _ _ _ _ _ _ _ _ Ha Ht Hsl Hsal Hjob).
  cbn [snd]. by rewrite emitted_emitted.
Qed.

Lemma successful_run_trace_witness :
  snd (predict_future_twin sample_profile 24 sample_world)
  = emitted sample_world
      [EvLoad SALARY_MODEL_FILE; EvPredict (feature_frame sample_profile 30 10 24);
       EvLoad JOB_MODEL_FILE; EvPredictProba (feature_frame sample_profile 30 10 24)].
Proof.
  apply (successful_run_trace sample_profile 24 30 10 7.5 sample_world
           (PFloat 85000.125) ["B"; "C"; "D"] sample_profile_well_formed).
  - exists (constant_regressor (PFloat 85000.125)), []. split; reflexivity.
  - exists sample_classifier, [0.0625; 0.5; 0.25; 0.1875]%float, [], ["A"; "B"; "C"; "D"].
    repeat split; reflexivity.
Defined.

(** X6: when both artifacts fail, the call still returns, with both
    fallbacks, and prints exactly one line per failed step: the salary line
    first, then the job line, each carrying the text of its exception. *)
Theorem both_failures_print_two_lines {np : NumPy} d months age tenure sleep w :
  well_formed d age tenure sleep ->
  salary_raises (files w) (feature_frame d age tenure months) ->
  jobs_raise (files w) (feature_frame d age tenure months) ->
  exists e1 e2 evs,
    predict_future_twin d months w
    = (Ok {| projected_age := age + months / 12;
             health_increase_percent :=
               py_round ((predict_health_increase sleep - 1.0) * 100)%float 1;
             predicted_salary := PStr "N/A";
             recommended_jobs := ["N/A"];
             time_projection_months := months |}, emitted w evs)
    /\ printed_lines evs
       = [error_line "Salary Prediction" e1; error_line "Job Classification" e2].
Proof.
  intros Hwf Hs Hj. pose proof (df_select_well_formed d age tenure sleep months Hwf) as HX.
  destruct (salary_prediction_raises_line _ w _ HX Hs) as (e1 & evs1 & Hsal & Hp1).
  destruct (job_classification_raises_line _
              (emitted w (evs1 ++ [EvPrint (error_line "Salary Prediction" e1)])) _ HX Hj)
    as (e2 & evs2 & Hjob & Hp2).
  destruct Hwf as [Ha Ht Hsl _].
  exists e1, e2. eexists.
  rewrite (predict_future_twin_run _ months _ _ _ _ _ _ _ _ Ha Ht Hsl Hsal Hjob).
  rewrite emitted_emitted. split; [reflexivity|].
  unfold printed_lines in *. rewrite !omap_app, Hp1, Hp2. reflexivity.
Qed.

Lemma both_failures_print_two_lines_witness :
  exists e1 e2 evs,
    predict_future_twin sample_profile 24 (world_of broken_pipeline broken_pipeline)
    = (Ok {| projected_age := 30 + 24 / 12;
             health_increase_percent :=
               py_round ((predict_health_increase 7.5 - 1.0) * 100)%float 1;
             predicted_salary := PStr "N/A";
             recommended_jobs := ["N/A"];
             time_projection_months := 24 |},
       emitted (world_of broken_pipeline broken_pipeline) evs)
    /\ printed_lines evs
       = [error_line "Salary Prediction" e1; error_line "Job Classification" e2].
Proof.
  apply (both_failures_print_two_lines sample_profile 24 30 10 7.5
           (world_of broken_pipeline broken_pipeline) sample_profile_well_formed).
  - exact I.
  - intros labels (p & probas & rows & classes & Hp & Hv & _).
    assert (files (world_of broken_pipeline broken_pipeline) !! JOB_MODEL_FILE
            = Some broken_pipeline) as Hq by reflexivity.
    rewrite Hq in Hp. injection Hp as <-. discriminate Hv.
Defined.

(** X7: an [age] or [tenure_months] that is a string or null makes the call
    raise [TypeError] at the addition, before any artifact is touched. *)
Theorem non_numeric_projection_input_raises {np : NumPy} d months w :
  (exists v, d !! "age" = Some v /\ is_numeric v = false)
  \/ (exists age v, d !! "age" = Some (PInt age)
                    /\ d !! "tenure_months" = Some v /\ is_numeric v = false) ->
  exists msg, predict_future_twin d months w = (Raise (TypeError msg), w).
Proof.
  intros [(v & Hv & Hn)|(age & v & Ha & Hv & Hn)].
  - destruct v; try done; eexists; apply predict_future_twin_time_raises;
      unfold time_projection, dict_getitem; rewrite Hv; reflexivity.
  - destruct v; try done; eexists; apply predict_future_twin_time_raises;
      unfold time_projection, dict_getitem; rewrite Ha; cbn; rewrite Hv; reflexivity.
Qed.

Lemma non_numeric_projection_input_raises_witness :
  exists msg,
    predict_future_twin (<["age" := PStr "30"]> sample_profile) 24 sample_world
    = (Raise (TypeError msg), sample_world).
Proof.
  apply (non_numeric_projection_input_raises (<["age" := PStr "30"]> sample_profile) 24
           sample_world).
  left. exists (PStr "30"). split; reflexivity.
Defined.

(** X8: an [avg_sleep_hours] that is a string or null is not replaced by the
    default: the call raises [TypeError] in the health heuristic, before any
    artifact is touched. *)
Theorem non_numeric_sleep_raises {np : NumPy} d months w age tenure v :
  d !! "age" = Some (PInt age) -> d !! "tenure_months" = Some (PInt tenure) ->
  d !! "avg_sleep_hours" = Some v -> is_numeric v = false ->
  exists msg, predict_future_twin d months w = (Raise (TypeError msg), w).
Proof.
  intros Ha Ht Hv Hn.
  pose proof (time_projection_int d months age tenure Ha Ht) as Htime.
  destruct v; try done; eexists;
    apply (predict_future_twin_health_raises _ _ _ _ _ _ Htime);
    unfold health_projection, dict_get; rewrite Hv; reflexivity.
Qed.

Lemma non_numeric_sleep_raises_witness :
  exists msg,
    predict_future_twin (<["avg_sleep_hours" := PNone]> sample_profile) 24 sample_world
    = (Raise (TypeError msg), sample_world).
Proof.
  apply (non_numeric_sleep_raises (<["avg_sleep_hours" := PNone]> sample_profile) 24
           sample_world 30 10 PNone); reflexivity.
Defined.

Lemma is_infinity_spec x :
  is_infinity x = true -> exists s, Prim2SF x = S754_infinity s.
Proof.
  unfold is_infinity. rewrite FloatAxioms.eqb_spec, abs_spec.
  destruct (Prim2SF x) as [[]|[]| |[] m e]; cbn; try done; eauto.
Qed.

Lemma SFadd_nan_l y : SF64add S754_nan y = S754_nan.
Proof. reflexivity. Qed.

Lemma SFadd_infinity_finite s y :
  sf_finite y -> SF64add (S754_infinity s) y = S754_infinity s.
Proof. by destruct y as [[]|[]| |[] m e]. Qed.

(** The salary block calls [predict] once the artifact is there and the
    columns are complete, whatever [predict] answers. *)
Lemma salary_prediction_asks df w p X :
  files w !! SALARY_MODEL_FILE = Some p -> df_select df feature_columns = Ok X ->
  exists v evs,
    salary_prediction df w = (Ok v, emitted w evs)
    /\ loaded_paths evs = [SALARY_MODEL_FILE] /\ predictor_calls evs = [X].
Proof.
  intros Hp HX. run_step. rewrite Hp, HX. cbn.
  destruct (predict p X) as [e|[|v a]]; cbn.
  - eexists _, [_; _; _]. split; [close_run|]. by split.
  - eexists _, [_; _; _]. split; [close_run|]. by split.
  - eexists _, [_; _]. split; [close_run|]. by split.
Qed.

(** The job block calls [predict_proba] under the same conditions. *)
Lemma job_classification_asks {np : NumPy} df w p X :
  files w !! JOB_MODEL_FILE = Some p -> df_select df feature_columns = Ok X ->
  exists v evs,
    job_classification df w = (Ok v, emitted w evs)
    /\ loaded_paths evs = [JOB_MODEL_FILE] /\ predictor_calls evs = [X].
Proof.
  intros Hp HX. run_step. rewrite Hp, HX. cbn.
  destruct (predict_proba p X) as [e|[|probas rows]]; cbn;
    try (eexists _, [_; _; _]; split; [close_run|]; by split).
  destruct (classifier_classes p) as [e|classes]; cbn;
    try (eexists _, [_; _; _]; split; [close_run|]; by split).
  destruct (take_labels classes (top_indices probas)) as [e|l]; cbn.
  - eexists _, [_; _; _]; split; [close_run|]; by split.
  - eexists _, [_; _]; split; [close_run|]; by split.
Qed.

(** The frame of a profile that has the five columns, whatever the
    projected values are. *)
Lemma df_select_projected d pa pt :
  Forall (fun c => is_Some (d !! c)) profile_columns ->
  exists X, df_select (build_twin_df d pa pt) feature_columns = Ok X
            /\ ("age", pa) ∈ X /\ ("tenure_months", pt) ∈ X.
Proof.
  intros Hcols.
  assert (Forall (fun c => is_Some (build_twin_df d pa pt !! c)) feature_columns) as Hall.
  { apply Forall_forall. intros c Hc. apply feature_columns_split in Hc as [Hc|[->| ->]].
    - rewrite build_twin_df_column by done. rewrite Forall_forall in Hcols. by apply Hcols.
    - rewrite build_twin_df_age. by eexists.
    - rewrite build_twin_df_tenure. by eexists. }
  pose proof (df_select_present _ _ Hall) as HX.
  eexists. split; [exact HX|].
  destruct (df_select_ok_inv _ _ _ HX) as [_ Hmem].
  split; apply Hmem; (split; [apply feature_columns_split; tauto|]).
  - apply build_twin_df_age.
  - apply build_twin_df_tenure.
Qed.

(** X9: a NaN or infinite [age] passes the projection, so both artifacts are
    loaded before the call fails in [int(projected_age)] while the result is
    built: [ValueError] for NaN, [OverflowError] for an infinity. When both
    artifacts are on disk and the profile has the other five columns, both
    predictors have been called by then, on a frame that holds the
    non-finite age. *)
Theorem non_finite_age_fails_after_prediction {np : NumPy} d months w x tenure h y :
  d !! "age" = Some (PFloat x) -> d !! "tenure_months" = Some (PInt tenure) ->
  health_projection d = Ok h -> float_of_int (months / 12) = Ok y ->
  is_nan x = true \/ is_infinity x = true ->
  exists e evs,
    predict_future_twin d months w = (Raise e, emitted w evs)
    /\ loaded_paths evs = [SALARY_MODEL_FILE; JOB_MODEL_FILE]
    /\ (is_Some (files w !! SALARY_MODEL_FILE) -> is_Some (files w !! JOB_MODEL_FILE) ->
        Forall (fun c => is_Some (d !! c)) profile_columns ->
        exists X, predictor_calls evs = [X; X] /\ ("age", PFloat (x + y)) ∈ X)
    /\ (is_nan x = true -> exists msg, e = ValueError msg)
    /\ (is_infinity x = true -> exists msg, e = OverflowError msg).
Proof.
  intros Ha Ht Hh Hy Hx.
  assert (time_projection d months = Ok (PFloat (x + y), PInt (tenure + months))) as Htime.
  { unfold time_projection, dict_getitem. rewrite Ha. cbn. rewrite Hy, Ht. reflexivity. }
  set (twin_df := build_twin_df d (PFloat (x + y)) (PInt (tenure + months))).
  destruct (salary_prediction_events twin_df w) as (sv & evs1 & Hs & Hl1 & _).
  destruct (job_classification_events twin_df (emitted w evs1)) as (jv & evs2 & Hj & _ & Hl2 & _).
  pose proof (predict_future_twin_steps _ _ _ _ _ _ _ _ _ _ Htime Hh Hs Hj) as Hr.
  rewrite emitted_emitted in Hr.
  assert (loaded_paths (evs1 ++ evs2) = [SALARY_MODEL_FILE; JOB_MODEL_FILE]) as Hl.
  { unfold loaded_paths in *. by rewrite omap_app, Hl1, Hl2. }
  assert (is_Some (files w !! SALARY_MODEL_FILE) -> is_Some (files w !! JOB_MODEL_FILE) ->
          Forall (fun c => is_Some (d !! c)) profile_columns ->
          exists X, predictor_calls (evs1 ++ evs2) = [X; X] /\ ("age", PFloat (x + y)) ∈ X)
    as Hasked.
  { intros [p Hp] [q Hq] Hcols.
    destruct (df_select_projected d (PFloat (x + y)) (PInt (tenure + months)) Hcols)
      as (X & HX & Hage & _).
    destruct (salary_prediction_asks twin_df w p X Hp HX) as (sv' & evs1' & Hs' & _ & Hc1).
    rewrite Hs in Hs'. injection Hs' as _ He1. apply app_inv_head in He1. subst evs1'.
    destruct (job_classification_asks twin_df (emitted w evs1) q X Hq HX)
      as (jv' & evs2' & Hj' & _ & Hc2).
    rewrite Hj in Hj'. injection Hj' as _ He2. apply app_inv_head in He2. subst evs2'.
    exists X. split; [|done]. unfold predictor_calls in *. by rewrite omap_app, Hc1, Hc2. }
  pose proof (float_of_int_finite _ _ Hy) as Hfin.
  cbn [py_int] in Hr. unfold int_of_float in Hr. rewrite add_spec in Hr.
  destruct Hx as [Hnan|Hinf].
  - pose proof Hnan as Hn. apply is_nan_key in Hn. rewrite Hn, SFadd_nan_l in Hr.
    eexists _, (evs1 ++ evs2)%list. split; [exact Hr|]. split; [done|]. split; [done|].
    split; [eauto|].
    intros Hinf. apply is_infinity_spec in Hinf as [s Hs0]. congruence.
  - pose proof Hinf as Hi. apply is_infinity_spec in Hi as [s Hs0].
    rewrite Hs0, SFadd_infinity_finite in Hr by done.
    eexists _, (evs1 ++ evs2)%list. split; [exact Hr|]. split; [done|]. split; [done|].
    split; [|eauto].
    intros Hnan. apply is_nan_key in Hnan. congruence.
Qed.

Lemma non_finite_age_fails_after_prediction_witness :
  exists e evs,
    predict_future_twin (<["age" := PFloat nan]> sample_profile) 24 sample_world
    = (Raise e, emitted sample_world evs)
    /\ loaded_paths evs = [SALARY_MODEL_FILE; JOB_MODEL_FILE]
    /\ (is_Some (files sample_world !! SALARY_MODEL_FILE) ->
        is_Some (files sample_world !! JOB_MODEL_FILE) ->
        Forall (fun c => is_Some (<["age" := PFloat nan]> sample_profile !! c))
          profile_columns ->
        exists X, predictor_calls evs = [X; X] /\ ("age", PFloat (nan + 2)) ∈ X)
    /\ (is_nan nan = true -> exists msg, e = ValueError msg)
    /\ (is_infinity nan = true -> exists msg, e = OverflowError msg).
Proof.
  apply (non_finite_age_fails_after_prediction (<["age" := PFloat nan]> sample_profile) 24
           sample_world nan 10 10.000000000000009%float 2%float);
    try reflexivity.
  left. reflexivity.
Defined.

(** X10: whatever the profile, the health percentage of a returned result
    lies between 0 and 10 and is never NaN. *)
Theorem health_increase_percent_in_range {np : NumPy} d months w r w' :
  predict_future_twin d months w = (Ok r, w') ->
  (0 <=? health_increase_percent r)%float = true
  /\ (health_increase_percent r <=? 10)%float = true.
Proof.
  intros Hrun.
  destruct (predict_future_twin_inv _ _ _ _ _ Hrun)
    as (pa & pt & h & sv & jv & evs & age & _ & Hh & _ & -> & _).
  destruct (health_projection_inv _ _ Hh) as [x ->].
  destruct (health_percent_range x) as [Hn Hle].
  apply andb_true_iff. cbn [health_increase_percent]. by apply py_round_percent.
Qed.

Lemma health_increase_percent_in_range_witness :
  (0 <=? 10.0)%float = true /\ (10.0 <=? 10)%float = true.
Proof.
  exact (health_increase_percent_in_range sample_profile 24 sample_world _ _ sample_run).
Defined.

(** X11: the shape of every returned result: the horizon is echoed, the
    salary is a float or the text N/A, there are at most three
    recommendations, and the call only appended to the trace. *)
Theorem returned_result_shape {np : NumPy} d months w r w' :
  predict_future_twin d months w = (Ok r, w') ->
  time_projection_months r = months
  /\ (predicted_salary r = PStr "N/A" \/ exists x, predicted_salary r = PFloat x)
  /\ (length (recommended_jobs r) <= 3)%nat
  /\ exists evs, w' = emitted w evs.
Proof.
  intros Hrun.
  destruct (predict_future_twin_inv _ _ _ _ _ Hrun)
    as (pa & pt & h & sv & jv & evs & age & _ & _ & _ & -> & -> & Hlen).
  cbn. repeat split; [|done|by exists evs].
  unfold salary_field. destruct sv as [| | |x|]; auto.
  destruct (negb (x =? -1.0)%float); eauto.
Qed.

Lemma returned_result_shape_witness :
  24 = 24
  /\ (PFloat 85000.12 = PStr "N/A" \/ exists x, PFloat 85000.12 = PFloat x)
  /\ (length ["B"; "C"; "D"] <= 3)%nat
  /\ exists evs,
      emitted sample_world
        [EvLoad SALARY_MODEL_FILE; EvPredict (feature_frame sample_profile 30 10 24);
         EvLoad JOB_MODEL_FILE; EvPredictProba (feature_frame sample_profile 30 10 24)]
      = emitted sample_world evs.
Proof.
  exact (returned_result_shape sample_profile 24 sample_world _ _ sample_run).
Defined.

(** ** Further properties of the top-k selection and of the columns *)

Lemma top_indices_NoDup {np : NumPy} probas : argsort_sorts -> NoDup (top_indices probas).
Proof.
  intros Hsort. destruct (top_indices_sorted_prefix probas Hsort) as (l & -> & _ & Hp).
  eapply sublist_NoDup; [|apply sublist_take].
  rewrite Hp. apply NoDup_ListNoDup, List.seq_NoDup.
Qed.

Lemma take_labels_lookup classes idx labels :
  take_labels classes idx = Ok labels ->
  Forall2 (fun i l => classes !! i = Some l) idx labels.
Proof.
  revert labels. induction idx as [|i idx IH]; intros labels; cbn.
  { intros H. unfold Ok in H. inversion H. constructor. }
  destruct (classes !! i) as [c|] eqn:Hc; [|done].
  destruct (take_labels classes idx) as [e|cs]; [done|].
  intros H. unfold Ok in H. inversion H. constructor; [done|]. by apply IH.
Qed.

(** X12: a class whose probability is NaN outranks every number, whatever
    sort numpy uses: as soon as one probability is NaN, the first
    recommendation is a class with a NaN probability. *)
Theorem nan_probability_ranks_first {np : NumPy} probas i :
  argsort_sorts ->
  (i < length probas)%nat -> is_nan (key_at probas i) = true ->
  exists k, head (top_indices probas) = Some k /\ is_nan (key_at probas k) = true.
Proof.
  intros Hsort Hi Hnan.
  destruct (top_indices_sorted_prefix probas Hsort) as (l & -> & Hs & Hp).
  assert (i ∈ l) as Hin.
  { rewrite Hp. apply elem_of_seq. lia. }
  destruct l as [|k rest]; [by apply elem_of_nil in Hin|].
  exists k. split; [done|].
  apply elem_of_cons in Hin as [<-|Hin]; [done|].
  apply StronglySorted_inv in Hs as [_ Hk]. rewrite Forall_forall in Hk.
  apply is_nan_key, sf_key_nan in Hnan.
  apply is_nan_key, sf_key_nan.
  pose proof (sf_key_le_3 (Prim2SF (key_at probas k))) as Hle.
  pose proof (Hk i Hin) as Hnlt. unfold listed_before in Hnlt.
  apply not_true_iff_false in Hnlt. rewrite np_lt_key in Hnlt.
  unfold key_lt, fkey in Hnlt.
  destruct (Z.eq_dec (sf_key (Prim2SF (key_at probas k))).1 3) as [|Hne]; [done|].
  exfalso. apply Hnlt. lia.
Qed.

Lemma nan_probability_ranks_first_witness :
  exists k, head (top_indices [0.5; nan; 0.25; 0.125]%float) = Some k
            /\ is_nan (key_at [0.5; nan; 0.25; 0.125]%float k) = true.
Proof.
  apply (@nan_probability_ranks_first scalar_numpy [0.5; nan; 0.25; 0.125]%float 1);
    [exact scalar_numpy_sorts|cbn; lia|reflexivity].
Defined.

(** X13: whatever sort numpy uses, the recommendations are labels of the
    classifier, and no label is recommended twice when the classifier's
    labels are distinct. *)
Theorem recommendations_are_distinct_classes {np : NumPy} classes probas labels :
  argsort_sorts ->
  NoDup classes -> take_labels classes (top_indices probas) = Ok labels ->
  NoDup labels /\ forall l, l ∈ labels -> l ∈ classes.
Proof.
  intros Hsort Hnd Hl. apply take_labels_lookup in Hl.
  pose proof (top_indices_NoDup probas Hsort) as Hidx.
  induction Hl as [|i l idx labels Hil Hrest IH]; [split; [constructor|]|].
  { intros l Hin. by apply elem_of_nil in Hin. }
  apply NoDup_cons in Hidx as [Hi Hidx]. destruct (IH Hidx) as [IH1 IH2].
  split.
  - apply NoDup_cons. split; [|done]. intros Hin.
    apply list_elem_of_lookup in Hin as [n Hn].
    destruct (Forall2_lookup_r _ _ _ _ _ Hrest Hn) as (j & Hj & Hjl).
    assert (i = j) as -> by (by apply (NoDup_lookup classes i j l)).
    apply Hi. by apply list_elem_of_lookup_2 in Hj.
  - intros l' Hin. apply elem_of_cons in Hin as [->|Hin]; [|by apply IH2].
    by apply list_elem_of_lookup_2 in Hil.
Qed.

Lemma recommendations_are_distinct_classes_witness :
  NoDup ["C"; "B"; "D"] /\ forall l, l ∈ ["C"; "B"; "D"] -> l ∈ ["A"; "B"; "C"; "D"].
Proof.
  apply (@recommendations_are_distinct_classes scalar_numpy ["A"; "B"; "C"; "D"]
           [0.1; 0.4; 0.4; 0.1]%float).
  - exact scalar_numpy_sorts.
  - apply (bool_decide_unpack (NoDup ["A"; "B"; "C"; "D"])). reflexivity.
  - reflexivity.
Defined.

Lemma df_select_perm (df : gmap string pyval) cols cols' X :
  cols ≡ₚ cols' -> df_select df cols = Ok X ->
  exists X', df_select df cols' = Ok X' /\ X ≡ₚ X'.
Proof.
  intros Hp. unfold df_select.
  destruct (filter _ cols) as [|c0 l] eqn:Hf; [|done].
  assert (filter (fun c => df !! c = None) cols' = []) as ->.
  { apply Permutation_nil_r. rewrite <- Hf. symmetry. by apply filter_Permutation. }
  intros H. eexists. split; [reflexivity|].
  assert (X = omap (fun c => pair c <$> df !! c) cols) as ->
    by (unfold Ok in H; congruence).
  by apply omap_Permutation.
Qed.

(** X14: the seven columns the engine selects are the seven columns the
    training script fits on, in another order: a selection by the engine's
    list succeeds exactly when the selection by the training list does, and
    holds the same cells. *)
Theorem engine_columns_match_training (df : gmap string pyval) :
  feature_columns ≡ₚ all_features
  /\ feature_columns <> all_features
  /\ (forall X, df_select df feature_columns = Ok X ->
        exists X', df_select df all_features = Ok X' /\ X ≡ₚ X')
  /\ (forall X', df_select df all_features = Ok X' ->
        exists X, df_select df feature_columns = Ok X /\ X ≡ₚ X').
Proof.
  assert (feature_columns ≡ₚ all_features) as Hp.
  { unfold feature_columns, all_features, numerical_features, categorical_features.
    cbn [app]. apply (Permutation_app_comm [_; _; _; _] [_; _; _]). }
  split; [done|]. split; [done|]. split.
  - intros X. by apply df_select_perm.
  - intros X' HX'. symmetry in Hp.
    destruct (df_select_perm df _ _ X' Hp HX') as (X & HX & HP).
    exists X. by split.
Qed.

(** ** The endpoint *)

Ltac elem_now := cbn; rewrite ?elem_of_cons; auto 6.

Lemma validated_months_Some f m :
  validated_months f = Some m <-> f = FScalar (PInt m) /\ m ∈ [6; 24; 60].
Proof.
  split.
  - destruct f as [[| b | n | x | s]|o|a]; cbn; try done.
    + by destruct b.
    + destruct (Z.eqb_spec n 6) as [->|]; cbn.
      { intros H; inversion H; subst. split; [done|]. elem_now. }
      destruct (Z.eqb_spec n 24) as [->|]; cbn.
      { intros H; inversion H; subst. split; [done|]. elem_now. }
      destruct (Z.eqb_spec n 60) as [->|]; cbn; [|done].
      intros H; inversion H; subst. split; [done|]. elem_now.
  - intros [-> Hm]. rewrite !elem_of_cons, elem_of_nil in Hm.
    destruct Hm as [->|[->|[->|[]]]]; reflexivity.
Qed.

(** The handler on an object body with both keys and a valid horizon. *)
Lemma handle_prediction_valid {np : NumPy} o ud m w :
  o !! "user_data" = Some ud -> o !! "projection_months" = Some (FScalar (PInt m)) ->
  m ∈ [6; 24; 60] ->
  handle_prediction {| is_json := true; json := BObject o |} w
  = match predict_future_twin_on ud m w with
    | (inr r, w1) => (Ok {| body := ResultBody r; status := 200 |}, w1)
    | (inl e, w1) =>
        (Ok (error_response ("Internal server error: " ++ exn_str e) 500),
         emitted w1 [EvPrint ("Unhandled server error: " ++ exn_str e)])
    end.
Proof.
  intros Hud Hpm Hm.
  assert (validated_months (FScalar (PInt m)) = Some m) as Hv
    by (by apply validated_months_Some).
  unfold handle_prediction. cbn [is_json json negb].
  unfold has_required_keys, py_contains, body_getitem. rewrite Hud, Hpm.
  rewrite !(bool_decide_eq_true_2 _ (mk_is_Some _ _ eq_refl)).
  unfold lift, mbind, M_bind, Ok. cbn [negb]. rewrite Hv.
  unfold try_except, print, emit, mret, M_ret, Ok, error_response, emitted.
  destruct (predict_future_twin_on ud m w) as [[e|r] w1]; reflexivity.
Qed.

Lemma predict_future_twin_emits {np : NumPy} d months w :
  exists r evs, predict_future_twin d months w = (r, emitted w evs).
Proof.
  destruct (framed_predict_future_twin d months (files w)) as (r & evs & H).
  exists r, evs. specialize (H (trace w)). by destruct w.
Qed.

Lemma predict_future_twin_on_emits {np : NumPy} ud months w :
  exists r evs, predict_future_twin_on ud months w = (r, emitted w evs).
Proof.
  destruct ud as [v|o|a]; cbn.
  - destruct v; eexists _, []; unfold lift; by rewrite emitted_nil.
  - apply predict_future_twin_emits.
  - eexists _, []. unfold lift. by rewrite emitted_nil.
Qed.

Lemma time_projection_missing d months :
  d !! "age" = None \/ d !! "tenure_months" = None ->
  exists e, time_projection d months = Raise e.
Proof.
  intros H. unfold time_projection, dict_getitem.
  destruct (d !! "age") as [age|]; [|eexists; reflexivity].
  cbn. destruct (py_add_int age (months / 12)); [eexists; reflexivity|].
  destruct H as [H|H]; [done|]. rewrite H. eexists; reflexivity.
Qed.

(** X15: a request that is not JSON, or whose body is a JSON object, is
    always answered: the handler does not raise, the status is 200, 400 or
    500, and the body is a prediction exactly when the status is 200. *)
Theorem handle_prediction_answers {np : NumPy} req w :
  is_json req = false \/ (exists o, json req = BObject o) ->
  exists resp evs,
    handle_prediction req w = (Ok resp, emitted w evs)
    /\ status resp ∈ [200; 400; 500]
    /\ (status resp = 200 <-> exists r, body resp = ResultBody r).
Proof.
  assert (forall msg, exists resp evs,
    (Ok (error_response msg 400), w) = (Ok resp, emitted w evs)
    /\ status resp ∈ [200; 400; 500]
    /\ (status resp = 200 <-> exists r, body resp = ResultBody r)) as Hrej.
  { intros msg. exists (error_response msg 400), []. rewrite emitted_nil.
    split; [done|]. split; [elem_now|]. cbn. split; [done|]. by intros [r Hr]. }
  destruct req as [[] data]; cbn [is_json json]; intros Hreq.
  2: { unfold handle_prediction. cbn [is_json negb]. apply Hrej. }
  destruct Hreq as [|[o ->]]; [done|].
  unfold handle_prediction. cbn [is_json json negb].
  unfold has_required_keys, py_contains, body_getitem.
  destruct (o !! "user_data") as [ud|] eqn:Hud.
  2: { rewrite bool_decide_eq_false_2 by (by intros [x Hx]). apply Hrej. }
  rewrite (bool_decide_eq_true_2 _ (mk_is_Some _ _ eq_refl)).
  destruct (o !! "projection_months") as [pm|] eqn:Hpm.
  2: { rewrite bool_decide_eq_false_2 by (by intros [x Hx]). apply Hrej. }
  rewrite (bool_decide_eq_true_2 _ (mk_is_Some _ _ eq_refl)).
  unfold lift, mbind, M_bind, Ok. cbn [negb].
  destruct (validated_months pm) as [m|] eqn:Hv; [|apply Hrej].
  unfold try_except, print, emit, mret, M_ret, Ok.
  destruct (predict_future_twin_on_emits ud m w) as (r & evs & ->).
  destruct r as [e|r].
  - eexists _, (evs ++ [_])%list. rewrite <- emitted_emitted. split; [reflexivity|].
    split; [elem_now|]. cbn. split; [done|]. by intros [r Hr].
  - eexists _, evs. split; [reflexivity|]. split; [elem_now|]. cbn. split; [eauto|done].
Qed.

Lemma handle_prediction_answers_witness :
  exists resp evs,
    handle_prediction (twin_request (FObject sample_profile) (FScalar (PInt 24))) sample_world
    = (Ok resp, emitted sample_world evs)
    /\ status resp ∈ [200; 400; 500]
    /\ (status resp = 200 <-> exists r, body resp = ResultBody r).
Proof.
  apply (handle_prediction_answers
           (twin_request (FObject sample_profile) (FScalar (PInt 24))) sample_world).
  right. eexists. reflexivity.
Defined.

(** X16: an answer with status 400 carries one of the three rejection
    messages, and the request it answers left no trace: no artifact was
    loaded and nothing was printed. *)
Theorem rejected_requests_touch_nothing {np : NumPy} req w resp w' :
  handle_prediction req w = (Ok resp, w') -> status resp = 400 ->
  w' = w /\ exists msg, msg ∈ rejections /\ body resp = ErrorBody msg.
Proof.
  assert (forall msg, msg ∈ rejections ->
    (Ok (error_response msg 400), w) = (Ok resp, w') ->
    w' = w /\ exists msg, msg ∈ rejections /\ body resp = ErrorBody msg) as Hrej.
  { intros msg Hmsg H. unfold Ok in H. inversion H; subst. split; [done|]. by exists msg. }
  unfold handle_prediction. destruct (is_json req); cbn [negb].
  2: { intros H _. revert H. apply Hrej. unfold rejections. elem_now. }
  unfold mbind, M_bind, lift.
  destruct (has_required_keys (json req)) as [e|[]] eqn:Hk; [done| |].
  2: { intros H _. revert H. apply Hrej. unfold rejections. elem_now. }
  cbn [negb].
  destruct (body_getitem (json req) "user_data") as [e|ud]; [done|].
  destruct (body_getitem (json req) "projection_months") as [e|pm]; [done|].
  destruct (validated_months pm) as [m|].
  2: { intros H _. revert H. apply Hrej. unfold rejections. elem_now. }
  unfold try_except, print, emit, mret, M_ret, Ok.
  destruct (predict_future_twin_on ud m w) as [[e|r] w1]; intros H Hs;
    inversion H; subst; cbn in Hs; done.
Qed.

Lemma rejected_requests_touch_nothing_witness :
  sample_world = sample_world
  /\ exists msg, msg ∈ rejections
       /\ body (error_response "Request must be JSON" 400) = ErrorBody msg.
Proof.
  apply (rejected_requests_touch_nothing
           {| is_json := false; json := BScalar PNone |} sample_world
           (error_response "Request must be JSON" 400) sample_world); reflexivity.
Defined.

(** X17: a horizon that is not the integer 6, 24 or 60 is rejected with
    status 400 before the engine runs, whatever the profile: the float 6.0,
    the text "6", a bool and null are all rejected. *)
Theorem invalid_horizon_rejected {np : NumPy} o ud pm w :
  o !! "user_data" = Some ud -> o !! "projection_months" = Some pm ->
  (forall m, m ∈ [6; 24; 60] -> pm <> FScalar (PInt m)) ->
  handle_prediction {| is_json := true; json := BObject o |} w
  = (Ok (error_response "Invalid 'projection_months'. Must be 6, 24, or 60." 400), w).
Proof.
  intros Hud Hpm Hinv.
  assert (validated_months pm = None) as Hv.
  { destruct (validated_months pm) as [m|] eqn:Hv; [|done].
    apply validated_months_Some in Hv as [-> Hm]. by destruct (Hinv m Hm). }
  unfold handle_prediction. cbn [is_json json negb].
  unfold has_required_keys, py_contains, body_getitem. rewrite Hud, Hpm.
  rewrite !(bool_decide_eq_true_2 _ (mk_is_Some _ _ eq_refl)).
  unfold lift, mbind, M_bind, Ok. cbn [negb]. by rewrite Hv.
Qed.

Lemma invalid_horizon_rejected_witness :
  handle_prediction (twin_request (FObject sample_profile) (FScalar (PFloat 6.0))) sample_world
  = (Ok (error_response "Invalid 'projection_months'. Must be 6, 24, or 60." 400),
     sample_world).
Proof.
  apply (invalid_horizon_rejected _ (FObject sample_profile) (FScalar (PFloat 6.0))
           sample_world); [reflexivity|reflexivity|].
  intros m _ H. discriminate H.
Defined.

(** X18: with a valid horizon, a [user_data] that is not an object, or an
    object without [age] or [tenure_months], is answered with status 500 and
    the text of the exception; the handler prints one line and no artifact is
    loaded. *)
Theorem engine_failure_is_answered_500 {np : NumPy} o ud m w :
  o !! "user_data" = Some ud -> o !! "projection_months" = Some (FScalar (PInt m)) ->
  m ∈ [6; 24; 60] ->
  match ud with
  | FObject d => d !! "age" = None \/ d !! "tenure_months" = None
  | _ => True
  end ->
  exists e,
    handle_prediction {| is_json := true; json := BObject o |} w
    = (Ok (error_response ("Internal server error: " ++ exn_str e) 500),
       emitted w [EvPrint ("Unhandled server error: " ++ exn_str e)]).
Proof.
  intros Hud Hpm Hm Hbad. rewrite (handle_prediction_valid o ud m w Hud Hpm Hm).
  destruct ud as [v|d|a]; cbn [predict_future_twin_on].
  - destruct v; unfold lift, Raise; eauto.
  - destruct (time_projection_missing d m Hbad) as [e He].
    rewrite (predict_future_twin_time_raises _ _ _ _ He). unfold Raise. eauto.
  - unfold lift, Raise. eauto.
Qed.

Lemma engine_failure_is_answered_500_witness :
  exists e,
    handle_prediction (twin_request (FArray []) (FScalar (PInt 24))) sample_world
    = (Ok (error_response ("Internal server error: " ++ exn_str e) 500),
       emitted sample_world [EvPrint ("Unhandled server error: " ++ exn_str e)]).
Proof.
  apply (engine_failure_is_answered_500 _ (FArray []) 24 sample_world);
    [reflexivity|reflexivity| |exact I].
  elem_now.
Defined.

(** X19: a well-formed profile with a valid horizon is answered with status
    200; the age grows by 0, 2 or 5 years and the horizon is echoed. *)
Theorem valid_request_is_answered_200 {np : NumPy} o d m age tenure sleep w :
  o !! "user_data" = Some (FObject d) ->
  o !! "projection_months" = Some (FScalar (PInt m)) ->
  m ∈ [6; 24; 60] -> well_formed d age tenure sleep ->
  exists r w',
    handle_prediction {| is_json := true; json := BObject o |} w
    = (Ok {| body := ResultBody r; status := 200 |}, w')
    /\ projected_age r - age ∈ [0; 2; 5]
    /\ time_projection_months r = m.
Proof.
  intros Hud Hpm Hm Hwf. rewrite (handle_prediction_valid o _ m w Hud Hpm Hm).
  cbn [predict_future_twin_on].
  destruct (well_formed_run d m age tenure sleep w Hwf) as (sv & jv & evs & -> & _).
  eexists _, _. split; [reflexivity|]. cbn. split; [|done].
  rewrite !elem_of_cons, elem_of_nil in Hm.
  destruct Hm as [->|[->|[->|[]]]]; cbn; rewrite Z.add_simpl_l;
    apply (bool_decide_unpack (_ ∈ [0; 2; 5])); reflexivity.
Qed.

Lemma valid_request_is_answered_200_witness :
  exists r w',
    handle_prediction (twin_request (FObject sample_profile) (FScalar (PInt 60))) sample_world
    = (Ok {| body := ResultBody r; status := 200 |}, w')
    /\ projected_age r - 30 ∈ [0; 2; 5]
    /\ time_projection_months r = 60.
Proof.
  apply (valid_request_is_answered_200 _ sample_profile 60 30 10 7.5 sample_world);
    [reflexivity|reflexivity| |exact sample_profile_well_formed].
  elem_now.
Defined.

(** X20: a JSON body that is not an object is not rejected by the key
    check when it is a number, a bool or null, or an array that holds both
    key names: the handler raises [TypeError] outside its [try] block. *)
Theorem non_object_body_raises {np : NumPy} req w :
  is_json req = true ->
  (exists v, json req = BScalar v /\ forall s, v <> PStr s)
  \/ (exists a, json req = BArray a
                /\ FScalar (PStr "user_data") ∈ a
                /\ FScalar (PStr "projection_months") ∈ a) ->
  exists msg, handle_prediction req w = (Raise (TypeError msg), w).
Proof.
  intros Hj Hbody. unfold handle_prediction. rewrite Hj. cbn [negb].
  destruct Hbody as [(v & -> & Hv)|(a & -> & H1 & H2)].
  - destruct v as [| | | |s]; try (eexists; reflexivity). by destruct (Hv s).
  - assert (forall key, FScalar (PStr key) ∈ a -> py_contains key (BArray a) = Ok true) as Hc.
    { intros key Hin. unfold py_contains. f_equal. apply existsb_exists.
      exists (FScalar (PStr key)). split; [by apply list_elem_of_In|].
      apply String.eqb_refl. }
    unfold has_required_keys. rewrite (Hc _ H1), (Hc _ H2).
    eexists. reflexivity.
Qed.

Lemma non_object_body_raises_witness :
  exists msg,
    handle_prediction
      {| is_json := true;
         json := BArray [FScalar (PStr "user_data"); FScalar (PStr "projection_months")] |}
      sample_world
    = (Raise (TypeError msg), sample_world).
Proof.
  apply (non_object_body_raises
           {| is_json := true;
              json := BArray [FScalar (PStr "user_data");
                              FScalar (PStr "projection_months")] |} sample_world);
    [reflexivity|].
  right. eexists. split; [reflexivity|]. split.
  - apply list_elem_of_here.
  - apply list_elem_of_further, list_elem_of_here.
Defined.
